(** * create-project-cli: a shallow embedding of the scaffolding tool

    The development follows the three pieces of the program:

    - [ArgumentParser] (src/utils/argumentParser.js): tokens to a
      configuration record;
    - [TemplateGenerator] (utils/templateGenerator.js): directories and
      files of the five templates, through [fs.mkdirSync] and
      [fs.writeFileSync];
    - [ProjectCLI] (src/index.js): validation, project creation, the optional
      git initialisation and the top-level [try]/[catch] of [run].

    JavaScript statements run in a small state-and-exception monad over a
    [World]: the file system, the working directory of the process and the
    chronological log of every observable effect. *)

From Stdlib Require Import Ascii.
From stdpp Require Import gmap strings list fin_maps.

(** ** JavaScript strings

    Strings are byte strings. The only characters the program inspects are
    ASCII ('-', '/', the class [a-zA-Z0-9_-]), so the byte view agrees with
    the UTF-16 view of the engine on every test made below. *)

Module JsString.

Definition dq : string := String (ascii_of_nat 34) "".
Definition nl : string := String (ascii_of_nat 10) "".

(** [s.startsWith(p)] *)
Fixpoint startsWith (s p : string) : bool :=
  match p with
  | EmptyString => true
  | String b p' =>
      match s with
      | EmptyString => false
      | String a s' => if decide (a = b) then startsWith s' p' else false
      end
  end.

(** [s.includes(p)] *)
Fixpoint includes (s p : string) : bool :=
  startsWith s p ||
  match s with
  | EmptyString => false
  | String _ s' => includes s' p
  end.

Definition code (a : ascii) : nat := nat_of_ascii a.

Definition in_range (lo hi : nat) (a : ascii) : bool :=
  (lo <=? code a)%nat && (code a <=? hi)%nat.

Definition lower_char (a : ascii) : ascii :=
  if in_range 65 90 a then ascii_of_nat (code a + 32) else a.

(** [s.toLowerCase()], on the ASCII letters. *)
Fixpoint toLowerCase (s : string) : string :=
  match s with
  | EmptyString => EmptyString
  | String a s' => String (lower_char a) (toLowerCase s')
  end.

(** Truthiness of a string value: only the empty string is falsy. *)
Definition truthy (s : string) : bool :=
  match s with EmptyString => false | _ => true end.

(** [parts.join(sep)] *)
Fixpoint array_join (sep : string) (parts : list string) : string :=
  match parts with
  | [] => ""
  | [p] => p
  | p :: rest => p +:+ sep +:+ array_join sep rest
  end.

(** [s.split(sep)] for a one-character separator. *)
Fixpoint split_aux (sep : ascii) (cur : string) (s : string) : list string :=
  match s with
  | EmptyString => [String.rev cur]
  | String a s' =>
      if decide (a = sep) then String.rev cur :: split_aux sep "" s'
      else split_aux sep (String a cur) s'
  end.

Definition split (sep : ascii) (s : string) : list string := split_aux sep "" s.

End JsString.

(** ** Outcomes: a JavaScript call returns or throws an [Error] *)

Record JsError := Error { message : string }.

Inductive Outcome (A : Type) :=
| Returned (a : A)
| Thrown (e : JsError).
Arguments Returned {A} a.
Arguments Thrown {A} e.

(** ** Node's [path] module (POSIX flavour)

    A path is absolute, as [process.cwd()] is, and kept as the list of its
    components: ["/home/u/app"] is [["home"; "u"; "app"]]. *)

Module NodePath.

Abbreviation Path := (list string).

(** [normalizeString(path, allowAboveRoot)] of lib/path.js, one component
    at a time; [acc] is the result so far, last component first. *)
Fixpoint normalizeString (allowAboveRoot : bool) (acc : list string)
         (cs : list string) : list string :=
  match cs with
  | [] => rev acc
  | c :: cs' =>
      if decide (c = "") then normalizeString allowAboveRoot acc cs'
      else if decide (c = ".") then normalizeString allowAboveRoot acc cs'
      else if decide (c = "..") then
        match acc with
        | top :: acc' =>
            if decide (top = "..")
            then normalizeString allowAboveRoot
                   (if allowAboveRoot then ".." :: acc else acc) cs'
            else normalizeString allowAboveRoot acc' cs'
        | [] =>
            normalizeString allowAboveRoot
              (if allowAboveRoot then [".."] else []) cs'
        end
      else normalizeString allowAboveRoot (c :: acc) cs'
  end.

Definition slash : ascii := ascii_of_nat 47.

(** Components of the string arguments of a [path.join] call. *)
Definition segments (args : list string) : list string :=
  concat (map (JsString.split slash) args).

(** [path.join(base, ...args)] for an absolute [base]. *)
Definition join (base : Path) (args : list string) : Path :=
  normalizeString false [] (base ++ segments args).

(** [p] lies inside [root]: it is [root] followed by further components. *)
Definition inside (root p : Path) : Prop :=
  exists rel : list string, rel <> [] /\ p = root ++ rel.

End NodePath.

Import NodePath.

(** ** What gets written

    [JSON.stringify(obj, null, 2)] of a package manifest is kept as the object
    it serialises. The other texts are literals of the source: [SourceText]
    stands for a literal written in place, in which the project name is the
    only value interpolated, [Readme] for the text [generateReadme] builds
    from its three arguments. *)

Module PackageJson.
Record t := Build {
  name : string;
  version : string;
  description : string;
  main : string;
  bin : option (list (string * string));
  scripts : list (string * string);
  keywords : list string;
  author : string;
  license : string
}.
End PackageJson.

Inductive Content :=
| SourceText (projectName : string)
| Readme (projectName template : string) (author : option string)
| Json (pkg : PackageJson.t).

(** ** The world a run acts on *)

Inductive Node :=
| Dir
| File (content : Content).

#[global] Instance PackageJson_eq_dec : EqDecision PackageJson.t.
Proof. solve_decision. Defined.
#[global] Instance Content_eq_dec : EqDecision Content.
Proof. solve_decision. Defined.
#[global] Instance Node_eq_dec : EqDecision Node.
Proof. solve_decision. Defined.

Inductive Event :=
| LogInfo (msg : string)
| LogSuccess (msg : string)
| LogError (msg : string)
| LogWarning (msg : string)
| HelpShown
| FsMkdir (dirPath : Path)
| FsWrite (filePath : Path) (content : Content)
| Chdir (dir : Path)
| Exec (command : string) (succeeded : bool).

Record World := mkWorld {
  fs : gmap Path Node;
  cwd : Path;
  log : list Event
}.

Definition set_fs (f : gmap Path Node) (w : World) : World :=
  {| fs := f; cwd := cwd w; log := log w |}.
Definition set_cwd (d : Path) (w : World) : World :=
  {| fs := fs w; cwd := d; log := log w |}.
Definition emit (e : Event) (w : World) : World :=
  {| fs := fs w; cwd := cwd w; log := log w ++ [e] |}.

(** ** Statements: state passing with exceptions *)

Definition JS (A : Type) : Type := World -> Outcome A * World.

Definition ret {A} (a : A) : JS A := fun w => (Returned a, w).
Definition throw {A} (msg : string) : JS A := fun w => (Thrown (Error msg), w).
Definition bind {A B} (c : JS A) (k : A -> JS B) : JS B :=
  fun w =>
    match c w with
    | (Returned a, w') => k a w'
    | (Thrown e, w') => (Thrown e, w')
    end.
(** [try { body } catch (error) { handler }] *)
Definition try_catch {A} (body : JS A) (handler : JsError -> JS A) : JS A :=
  fun w =>
    match body w with
    | (Returned a, w') => (Returned a, w')
    | (Thrown e, w') => handler e w'
    end.
(** A pure computation that may throw, run as a statement. *)
Definition lift {A} (o : Outcome A) : JS A := fun w => (o, w).

Notation "x <- c1 ;; c2" := (bind c1 (fun x => c2))
  (at level 100, c1 at next level, right associativity).
Notation "c1 ;; c2" := (bind c1 (fun _ => c2))
  (at level 100, right associativity).

(** ** Node's [fs] and [process] *)

Module Fs.

(** The root directory always exists. *)
Definition node_at (f : gmap Path Node) (p : Path) : option Node :=
  match p with
  | [] => Some Dir
  | _ => f !! p
  end.

Definition parent (p : Path) : Path := removelast p.

(** [fs.existsSync(p)] *)
Definition existsSync (p : Path) : JS bool :=
  fun w => (Returned (bool_decide (is_Some (node_at (fs w) p))), w).

(** Directories made by [mkdir -p]; [rp] is the path, last component
    first. A missing directory is made once its parent is there. *)
Fixpoint mkdirp (f : gmap Path Node) (rp : list string)
  : Outcome (gmap Path Node) :=
  match rp with
  | [] => Returned f
  | _ :: rparent =>
      match f !! rev rp with
      | Some Dir => Returned f
      | Some (File _) => Thrown (Error "EEXIST: file already exists")
      | None =>
          match mkdirp f rparent with
          | Returned f' => Returned (<[rev rp := Dir]> f')
          | Thrown _ => Thrown (Error "ENOTDIR: not a directory")
          end
      end
  end.

(** [fs.mkdirSync(p, { recursive: true })] *)
Definition mkdirSync (p : Path) : JS unit :=
  fun w =>
    match mkdirp (fs w) (rev p) with
    | Returned f' => (Returned tt, emit (FsMkdir p) (set_fs f' w))
    | Thrown e => (Thrown e, w)
    end.

(** [fs.writeFileSync(p, content, 'utf8')] *)
Definition writeFileSync (p : Path) (content : Content) : JS unit :=
  fun w =>
    match node_at (fs w) p with
    | Some Dir => (Thrown (Error "EISDIR: illegal operation on a directory"), w)
    | _ =>
        match node_at (fs w) (parent p) with
        | Some Dir =>
            (Returned tt, emit (FsWrite p content) (set_fs (<[p := File content]> (fs w)) w))
        | Some (File _) => (Thrown (Error "ENOTDIR: not a directory"), w)
        | None => (Thrown (Error "ENOENT: no such file or directory"), w)
        end
    end.

End Fs.

Module Process.

(** [process.cwd()] *)
Definition cwd : JS Path := fun w => (Returned (cwd w), w).

(** [process.chdir(dir)] *)
Definition chdir (dir : Path) : JS unit :=
  fun w =>
    match Fs.node_at (fs w) dir with
    | Some Dir => (Returned tt, emit (Chdir dir) (set_cwd dir w))
    | Some (File _) => (Thrown (Error "ENOTDIR: not a directory"), w)
    | None => (Thrown (Error "ENOENT: no such file or directory"), w)
    end.

End Process.

(** ** Logger (src/utils/logger.js)

    Each method prints its message in its colour; the method is kept as the
    constructor of the event, [error] being the one that writes to the error
    stream. *)

Module Logger.
Definition info (msg : string) : JS unit := fun w => (Returned tt, emit (LogInfo msg) w).
Definition success (msg : string) : JS unit := fun w => (Returned tt, emit (LogSuccess msg) w).
Definition error (msg : string) : JS unit := fun w => (Returned tt, emit (LogError msg) w).
Definition warning (msg : string) : JS unit := fun w => (Returned tt, emit (LogWarning msg) w).
End Logger.

(** ** ArgumentParser (src/utils/argumentParser.js) *)

Module Config.
Record t := Build {
  projectName : string;
  template : string;
  gitInit : bool;
  author : string
}.
End Config.

Module ArgumentParser.
Import JsString.

Definition set_template (v : string) (c : Config.t) : Config.t :=
  Config.Build (Config.projectName c) v (Config.gitInit c) (Config.author c).
Definition set_gitInit (v : bool) (c : Config.t) : Config.t :=
  Config.Build (Config.projectName c) (Config.template c) v (Config.author c).
Definition set_author (v : string) (c : Config.t) : Config.t :=
  Config.Build (Config.projectName c) (Config.template c) (Config.gitInit c) v.

Definition is_template_flag (arg : string) : bool :=
  bool_decide (arg = "--template") || bool_decide (arg = "-t").
Definition is_git_flag (arg : string) : bool :=
  bool_decide (arg = "--git") || bool_decide (arg = "-g").
Definition is_author_flag (arg : string) : bool :=
  bool_decide (arg = "--author") || bool_decide (arg = "-a").

(** [!args[i + 1] || args[i + 1].startsWith('-')], for a token that is
    there. *)
Definition not_a_value (next : string) : bool :=
  negb (truthy next) || startsWith next "-".

Definition template_requires_value : string := "--template flag requires a value".
Definition author_requires_value : string := "--author flag requires a value".
Definition name_required : string :=
  "Project name is required. Usage: create-proj <project-name> [options]".

(** The [for] loop of [parse] from index [i] on: [args] is the list of the
    tokens [args[i]], [args[i + 1]], ...; a flag that takes a value skips
    it ([i++]). *)
Fixpoint parseFlags (args : list string) (config : Config.t) : Outcome Config.t :=
  match args with
  | [] => Returned config
  | arg :: rest =>
      if is_template_flag arg then
        match rest with
        | [] => Thrown (Error template_requires_value)
        | next :: rest' =>
            if not_a_value next then Thrown (Error template_requires_value)
            else parseFlags rest' (set_template (toLowerCase next) config)
        end
      else if is_git_flag arg then
        parseFlags rest (set_gitInit true config)
      else if is_author_flag arg then
        match rest with
        | [] => Thrown (Error author_requires_value)
        | next :: rest' =>
            if not_a_value next then Thrown (Error author_requires_value)
            else parseFlags rest' (set_author next config)
        end
      else parseFlags rest config
  end.

Definition parse (args : list string) : Outcome Config.t :=
  match List.find (fun arg => negb (startsWith arg "-")) args with
  | Some projectName =>
      if truthy projectName
      then parseFlags args (Config.Build projectName "basic" false "")
      else Thrown (Error name_required)
  | None => Thrown (Error name_required)
  end.

End ArgumentParser.

(** ** TemplateGenerator (utils/templateGenerator.js) *)

Module Options.
(** The [options] object of [generate]; [author] may be left undefined. *)
Record t := Build {
  projectName : string;
  author : option string
}.
End Options.

Module TemplateGenerator.

(** [value || fallback] on a string that may be undefined. *)
Definition or_else (value : option string) (fallback : string) : string :=
  match value with
  | Some v => if JsString.truthy v then v else fallback
  | None => fallback
  end.

(** [createDir(dirPath)] *)
Definition createDir (dirPath : Path) : JS unit :=
  present <- Fs.existsSync dirPath ;;
  if negb present then Fs.mkdirSync dirPath else ret tt.

(** [writeFile(filePath, content)] *)
Definition writeFile (filePath : Path) (content : Content) : JS unit :=
  Fs.writeFileSync filePath content.

(** [generateReadme(projectName, template, author)] *)
Definition generateReadme (projectName template : string) (author : option string)
  : Content := Readme projectName template author.

Definition generateBasicTemplate (projectPath : Path) (options : Options.t) : JS unit :=
  let projectName := Options.projectName options in
  let author := Options.author options in
  createDir (join projectPath ["src"]) ;;
  createDir (join projectPath ["utils"]) ;;
  createDir (join projectPath ["tests"]) ;;
  writeFile (join projectPath ["src"; "index.js"]) (SourceText projectName) ;;
  writeFile (join projectPath ["utils"; "helpers.js"]) (SourceText projectName) ;;
  writeFile (join projectPath ["README.md"]) (generateReadme projectName "basic" author) ;;
  writeFile (join projectPath [".gitignore"]) (SourceText projectName) ;;
  writeFile (join projectPath ["package.json"])
    (Json {| PackageJson.name := projectName;
             PackageJson.version := "1.0.0";
             PackageJson.description := projectName +:+ " - A basic project";
             PackageJson.main := "src/index.js";
             PackageJson.bin := None;
             PackageJson.scripts :=
               [("start", "node src/index.js");
                ("test", "echo " +:+ JsString.dq +:+ "Error: no test specified" +:+ JsString.dq +:+ " && exit 1")];
             PackageJson.keywords := [];
             PackageJson.author := or_else author "";
             PackageJson.license := "MIT" |}).

Definition generateWebTemplate (projectPath : Path) (options : Options.t) : JS unit :=
  let projectName := Options.projectName options in
  let author := Options.author options in
  createDir (join projectPath ["src"]) ;;
  createDir (join projectPath ["src"; "css"]) ;;
  createDir (join projectPath ["src"; "js"]) ;;
  createDir (join projectPath ["public"]) ;;
  createDir (join projectPath ["assets"]) ;;
  writeFile (join projectPath ["src"; "index.html"]) (SourceText projectName) ;;
  writeFile (join projectPath ["src"; "css"; "style.css"]) (SourceText projectName) ;;
  writeFile (join projectPath ["src"; "js"; "app.js"]) (SourceText projectName) ;;
  writeFile (join projectPath ["README.md"]) (generateReadme projectName "web" author) ;;
  writeFile (join projectPath [".gitignore"]) (SourceText projectName) ;;
  writeFile (join projectPath ["package.json"])
    (Json {| PackageJson.name := projectName;
             PackageJson.version := "1.0.0";
             PackageJson.description := projectName +:+ " - A web application";
             PackageJson.main := "src/index.html";
             PackageJson.bin := None;
             PackageJson.scripts :=
               [("start", "echo " +:+ JsString.dq +:+ "Open src/index.html in your browser" +:+ JsString.dq)];
             PackageJson.keywords := ["web"; "html"; "css"; "javascript"];
             PackageJson.author := or_else author "";
             PackageJson.license := "MIT" |}).

Definition generateApiTemplate (projectPath : Path) (options : Options.t) : JS unit :=
  let projectName := Options.projectName options in
  let author := Options.author options in
  createDir (join projectPath ["src"]) ;;
  createDir (join projectPath ["src"; "routes"]) ;;
  createDir (join projectPath ["src"; "controllers"]) ;;
  createDir (join projectPath ["src"; "models"]) ;;
  createDir (join projectPath ["src"; "middleware"]) ;;
  createDir (join projectPath ["utils"]) ;;
  createDir (join projectPath ["config"]) ;;
  writeFile (join projectPath ["src"; "server.js"]) (SourceText projectName) ;;
  writeFile (join projectPath ["src"; "routes"; "index.js"]) (SourceText projectName) ;;
  writeFile (join projectPath ["src"; "controllers"; "index.js"]) (SourceText projectName) ;;
  writeFile (join projectPath ["config"; "config.js"]) (SourceText projectName) ;;
  writeFile (join projectPath ["README.md"]) (generateReadme projectName "api" author) ;;
  writeFile (join projectPath [".gitignore"]) (SourceText projectName) ;;
  writeFile (join projectPath ["package.json"])
    (Json {| PackageJson.name := projectName;
             PackageJson.version := "1.0.0";
             PackageJson.description := projectName +:+ " - REST API";
             PackageJson.main := "src/server.js";
             PackageJson.bin := None;
             PackageJson.scripts :=
               [("start", "node src/server.js"); ("dev", "node src/server.js")];
             PackageJson.keywords := ["api"; "rest"; "backend"];
             PackageJson.author := or_else author "";
             PackageJson.license := "MIT" |}).

Definition generateCliTemplate (projectPath : Path) (options : Options.t) : JS unit :=
  let projectName := Options.projectName options in
  let author := Options.author options in
  createDir (join projectPath ["src"]) ;;
  createDir (join projectPath ["utils"]) ;;
  createDir (join projectPath ["commands"]) ;;
  writeFile (join projectPath ["src"; "cli.js"]) (SourceText projectName) ;;
  writeFile (join projectPath ["commands"; "index.js"]) (SourceText projectName) ;;
  writeFile (join projectPath ["README.md"]) (generateReadme projectName "cli" author) ;;
  writeFile (join projectPath [".gitignore"]) (SourceText projectName) ;;
  writeFile (join projectPath ["package.json"])
    (Json {| PackageJson.name := projectName;
             PackageJson.version := "1.0.0";
             PackageJson.description := projectName +:+ " - Command-line tool";
             PackageJson.main := "src/cli.js";
             PackageJson.bin := Some [(projectName, "./src/cli.js")];
             PackageJson.scripts := [("start", "node src/cli.js")];
             PackageJson.keywords := ["cli"; "command-line"; "tool"];
             PackageJson.author := or_else author "";
             PackageJson.license := "MIT" |}).

Definition generateFullstackTemplate (projectPath : Path) (options : Options.t) : JS unit :=
  let projectName := Options.projectName options in
  let author := Options.author options in
  createDir (join projectPath ["frontend"]) ;;
  createDir (join projectPath ["frontend"; "src"]) ;;
  createDir (join projectPath ["frontend"; "src"; "components"]) ;;
  createDir (join projectPath ["frontend"; "src"; "pages"]) ;;
  createDir (join projectPath ["frontend"; "src"; "styles"]) ;;
  createDir (join projectPath ["frontend"; "src"; "services"]) ;;
  createDir (join projectPath ["frontend"; "public"]) ;;
  writeFile (join projectPath ["frontend"; "src"; "App.js"]) (SourceText projectName) ;;
  writeFile (join projectPath ["frontend"; "src"; "services"; "api.js"]) (SourceText projectName) ;;
  writeFile (join projectPath ["frontend"; "src"; "components"; "Header.js"]) (SourceText projectName) ;;
  writeFile (join projectPath ["frontend"; "src"; "pages"; "UsersPage.js"]) (SourceText projectName) ;;
  writeFile (join projectPath ["frontend"; "public"; "index.html"]) (SourceText projectName) ;;
  writeFile (join projectPath ["frontend"; "src"; "styles"; "main.css"]) (SourceText projectName) ;;
  writeFile (join projectPath ["frontend"; "server.js"]) (SourceText projectName) ;;
  writeFile (join projectPath ["frontend"; "package.json"])
    (Json {| PackageJson.name := projectName +:+ "-frontend";
             PackageJson.version := "1.0.0";
             PackageJson.description := projectName +:+ " - Frontend Application";
             PackageJson.main := "server.js";
             PackageJson.bin := None;
             PackageJson.scripts := [("dev", "node server.js"); ("start", "node server.js")];
             PackageJson.keywords := ["frontend"; "fullstack"];
             PackageJson.author := or_else author "";
             PackageJson.license := "MIT" |}) ;;
  createDir (join projectPath ["backend"]) ;;
  createDir (join projectPath ["backend"; "routes"]) ;;
  createDir (join projectPath ["backend"; "controllers"]) ;;
  createDir (join projectPath ["backend"; "models"]) ;;
  createDir (join projectPath ["backend"; "middleware"]) ;;
  createDir (join projectPath ["backend"; "config"]) ;;
  writeFile (join projectPath ["backend"; "server.js"]) (SourceText projectName) ;;
  writeFile (join projectPath ["backend"; "routes"; "index.js"]) (SourceText projectName) ;;
  writeFile (join projectPath ["backend"; "controllers"; "userController.js"]) (SourceText projectName) ;;
  writeFile (join projectPath ["backend"; "models"; "User.js"]) (SourceText projectName) ;;
  writeFile (join projectPath ["backend"; "config"; "db.js"]) (SourceText projectName) ;;
  writeFile (join projectPath ["backend"; ".env"]) (SourceText projectName) ;;
  writeFile (join projectPath ["backend"; "package.json"])
    (Json {| PackageJson.name := projectName +:+ "-backend";
             PackageJson.version := "1.0.0";
             PackageJson.description := projectName +:+ " - Backend API";
             PackageJson.main := "server.js";
             PackageJson.bin := None;
             PackageJson.scripts := [("dev", "node server.js"); ("start", "node server.js")];
             PackageJson.keywords := ["backend"; "api"; "fullstack"];
             PackageJson.author := or_else author "";
             PackageJson.license := "MIT" |}) ;;
  writeFile (join projectPath ["README.md"]) (SourceText projectName) ;;
  writeFile (join projectPath [".gitignore"]) (SourceText projectName).

(** [generate(projectPath, template, options)]: the [switch], whose
    [default] falls into the basic template. *)
Definition generate (projectPath : Path) (template : string) (options : Options.t)
  : JS unit :=
  if decide (template = "web") then generateWebTemplate projectPath options
  else if decide (template = "api") then generateApiTemplate projectPath options
  else if decide (template = "cli") then generateCliTemplate projectPath options
  else if decide (template = "fullstack") then generateFullstackTemplate projectPath options
  else generateBasicTemplate projectPath options.

End TemplateGenerator.

(** ** ProjectCLI (src/index.js) *)

Module ChildProcess.

(** What running a command does is not the program's: [Subprocess] gives,
    for a command, the working directory and the file system it runs on,
    whether it exits with status 0 and the file system it leaves. A child
    cannot change the working directory of its parent. *)
Definition Subprocess : Type :=
  string -> Path -> gmap Path Node -> bool * gmap Path Node.

(** [execSync(command, { stdio: 'ignore' })] *)
Definition execSync (sub : Subprocess) (command : string) : JS unit :=
  fun w =>
    let '(ok, f') := sub command (cwd w) (fs w) in
    let w' := emit (Exec command ok) (set_fs f' w) in
    if ok then (Returned tt, w')
    else (Thrown (Error ("Command failed: " +:+ command)), w').

End ChildProcess.

Module ProjectCLI.
Import JsString.

Definition name_char (a : ascii) : bool :=
  in_range 97 122 a || in_range 65 90 a || in_range 48 57 a
  || bool_decide (code a = 95) || bool_decide (code a = 45).

Fixpoint all_chars (f : ascii -> bool) (s : string) : bool :=
  match s with
  | EmptyString => true
  | String a s' => f a && all_chars f s'
  end.

(** [/^[a-zA-Z0-9_-]+$/.test(s)] *)
Definition nameRegex_test (s : string) : bool :=
  truthy s && all_chars name_char s.

Definition validTemplates : list string := ["web"; "api"; "cli"; "basic"; "fullstack"].

Definition invalid_name : string :=
  "Project name can only contain letters, numbers, hyphens, and underscores".
Definition directory_exists (projectName : string) : string :=
  "Directory " +:+ dq +:+ projectName +:+ dq
  +:+ " already exists. Please choose a different name.".
Definition invalid_template (template : string) : string :=
  "Invalid template " +:+ dq +:+ template +:+ dq
  +:+ ". Valid templates: " +:+ array_join ", " validTemplates.

(** [validateConfig(config)] *)
Definition validateConfig (config : Config.t) : JS unit :=
  let projectName := Config.projectName config in
  let template := Config.template config in
  if negb (nameRegex_test projectName) then throw invalid_name
  else
    here <- Process.cwd ;;
    let projectPath := join here [projectName] in
    present <- Fs.existsSync projectPath ;;
    if present then throw (directory_exists projectName)
    else if negb (bool_decide (template ∈ validTemplates))
         then throw (invalid_template template)
         else ret tt.

Definition git_init : string := "git init".
Definition git_add : string := "git add .".
Definition git_commit : string :=
  "git commit -m " +:+ dq
  +:+ "Initial commit: Project scaffolded by create-project-cli" +:+ dq.

Definition git_failed : string :=
  "⚠ Git initialization failed. Make sure Git is installed.".

Definition structure_created : string := "✓ Project structure created".

Section WithSubprocess.
Variable sub : ChildProcess.Subprocess.

(** [initGit(projectPath, projectName)] *)
Definition initGit (projectPath : Path) (projectName : string) : JS unit :=
  try_catch
    (Logger.info "Initializing Git repository..." ;;
     originalCwd <- Process.cwd ;;
     Process.chdir projectPath ;;
     ChildProcess.execSync sub git_init ;;
     ChildProcess.execSync sub git_add ;;
     ChildProcess.execSync sub git_commit ;;
     Process.chdir originalCwd ;;
     Logger.success "✓ Git repository initialized")
    (fun error => Logger.warning git_failed).

(** [createProject(config)] *)
Definition createProject (config : Config.t) : JS unit :=
  let projectName := Config.projectName config in
  let template := Config.template config in
  let gitInit := Config.gitInit config in
  let author := Config.author config in
  here <- Process.cwd ;;
  let projectPath := join here [projectName] in
  Logger.info (nl +:+ "Creating " +:+ template +:+ " project: " +:+ projectName +:+ "...") ;;
  Fs.mkdirSync projectPath ;;
  TemplateGenerator.generate projectPath template
    (Options.Build projectName (Some author)) ;;
  (if gitInit then initGit projectPath projectName else ret tt) ;;
  Logger.success structure_created.

(** [showHelp()]: the usage banner on standard output. *)
Definition showHelp : JS unit := fun w => (Returned tt, emit HelpShown w).

Definition help_requested (args : list string) : bool :=
  bool_decide (length args = 0)
  || bool_decide ("--help" ∈ args) || bool_decide ("-h" ∈ args).

Definition created_successfully (projectName : string) : string :=
  nl +:+ "✓ Project " +:+ dq +:+ projectName +:+ dq +:+ " created successfully!".

Definition fatal (msg : string) : string := nl +:+ "✗ Error: " +:+ msg.

(** [run()], on [args = process.argv.slice(2)]. The value is the exit
    code of the process: 0 when [run] returns, 1 through
    [process.exit(1)] in the [catch]. *)
Definition run (args : list string) : JS nat :=
  try_catch
    (if help_requested args then showHelp ;; ret 0
     else
       config <- lift (ArgumentParser.parse args) ;;
       validateConfig config ;;
       createProject config ;;
       Logger.success (created_successfully (Config.projectName config)) ;;
       Logger.info (nl +:+ "Next steps:") ;;
       Logger.info ("  cd " +:+ Config.projectName config) ;;
       (if bool_decide (Config.template config = "web")
           || bool_decide (Config.template config = "api")
        then Logger.info "  npm install" ;; Logger.info "  npm start"
        else Logger.info "  Start coding!") ;;
       ret 0)
    (fun error =>
       Logger.error (fatal (message error)) ;;
       ret 1).

End WithSubprocess.

End ProjectCLI.

(** A machine without git: every command fails and changes nothing. *)
Definition no_git : ChildProcess.Subprocess := fun _ _ f => (false, f).
(** A machine where every command succeeds and leaves the files alone. *)
Definition quiet_git : ChildProcess.Subprocess := fun _ _ f => (true, f).

Definition home : World :=
  {| fs := <[ ["home"; "dev"] := Dir ]> (<[ ["home"] := Dir ]> ∅);
     cwd := ["home"; "dev"];
     log := [] |}.

(** ** The generator as a script

    Each template function is a straight-line sequence of [createDir] and
    [writeFile] calls. [Script.run] replays such a sequence from its list of
    steps, so that one induction covers the five templates. *)

Module Script.

Inductive Step :=
| MkDir (args : list string)
| Write (args : list string) (content : Content).

Definition exec (root : Path) (s : Step) : JS unit :=
  match s with
  | MkDir args => TemplateGenerator.createDir (join root args)
  | Write args content => TemplateGenerator.writeFile (join root args) content
  end.

Fixpoint run (root : Path) (steps : list Step) : JS unit :=
  match steps with
  | [] => ret tt
  | s :: rest =>
      match rest with
      | [] => exec root s
      | _ => exec root s ;; run root rest
      end
  end.

(** The path of a step below the root, and the event a step leaves when
    it acts. *)
Definition rel (s : Step) : Path :=
  match s with
  | MkDir args => segments args
  | Write args _ => segments args
  end.

Definition event (base : Path) (s : Step) : Event :=
  match s with
  | MkDir args => FsMkdir (base ++ segments args)
  | Write args content => FsWrite (base ++ segments args) content
  end.

Definition is_plain (c : string) : bool :=
  negb (bool_decide (c = "")) && negb (bool_decide (c = "."))
  && negb (bool_decide (c = "..")).

(** A step names a place strictly below the root, without dots. *)
Definition plain (s : Step) : bool :=
  forallb is_plain (rel s) && negb (bool_decide (rel s = [])).

Definition node_of (s : Step) : Node :=
  match s with
  | MkDir _ => Dir
  | Write _ content => File content
  end.

Definition entry (s : Step) : Path * Node := (rel s, node_of s).

(** The tree below the root while a script runs: the entries made so far,
    latest first. *)
Fixpoint find_node (m : list (Path * Node)) (p : Path) : option Node :=
  match m with
  | [] => None
  | (q, n) :: m' => if decide (q = p) then Some n else find_node m' p
  end.

Definition is_dir (n : option Node) : bool :=
  match n with Some Dir => true | _ => false end.

Definition is_file (n : option Node) : bool :=
  match n with Some (File _) => true | _ => false end.

Definition parent_is_dir (m : list (Path * Node)) (p : Path) : bool :=
  match Fs.parent p with
  | [] => true
  | par => is_dir (find_node m par)
  end.

(** A step finds what it needs below a root that exists: its parent
    directory, and a free name for a directory, or a name that is not a
    directory for a file. *)
Definition sim_step (m : list (Path * Node)) (s : Step) : bool :=
  plain s && parent_is_dir m (rel s) &&
  match s with
  | MkDir _ => match find_node m (rel s) with None => true | Some _ => false end
  | Write _ _ => negb (is_dir (find_node m (rel s)))
  end.

Fixpoint sim (m : list (Path * Node)) (steps : list Step) : bool :=
  match steps with
  | [] => true
  | s :: rest => sim_step m s && sim (entry s :: m) rest
  end.

Definition manifest (name description main : string)
           (bin : option (list (string * string)))
           (scripts : list (string * string)) (keywords : list string)
           (author : option string) : Content :=
  Json {| PackageJson.name := name;
          PackageJson.version := "1.0.0";
          PackageJson.description := description;
          PackageJson.main := main;
          PackageJson.bin := bin;
          PackageJson.scripts := scripts;
          PackageJson.keywords := keywords;
          PackageJson.author := TemplateGenerator.or_else author "";
          PackageJson.license := "MIT" |}.

Section Templates.
Variable options : Options.t.
Let projectName := Options.projectName options.
Let author := Options.author options.

Definition basic : list Step :=
  [ MkDir ["src"]; MkDir ["utils"]; MkDir ["tests"];
    Write ["src"; "index.js"] (SourceText projectName);
    Write ["utils"; "helpers.js"] (SourceText projectName);
    Write ["README.md"] (Readme projectName "basic" author);
    Write [".gitignore"] (SourceText projectName);
    Write ["package.json"]
      (manifest projectName (projectName +:+ " - A basic project") "src/index.js" None
         [("start", "node src/index.js");
          ("test", "echo " +:+ JsString.dq +:+ "Error: no test specified"
                   +:+ JsString.dq +:+ " && exit 1")]
         [] author) ].

Definition web : list Step :=
  [ MkDir ["src"]; MkDir ["src"; "css"]; MkDir ["src"; "js"];
    MkDir ["public"]; MkDir ["assets"];
    Write ["src"; "index.html"] (SourceText projectName);
    Write ["src"; "css"; "style.css"] (SourceText projectName);
    Write ["src"; "js"; "app.js"] (SourceText projectName);
    Write ["README.md"] (Readme projectName "web" author);
    Write [".gitignore"] (SourceText projectName);
    Write ["package.json"]
      (manifest projectName (projectName +:+ " - A web application") "src/index.html" None
         [("start", "echo " +:+ JsString.dq +:+ "Open src/index.html in your browser"
                    +:+ JsString.dq)]
         ["web"; "html"; "css"; "javascript"] author) ].

Definition api : list Step :=
  [ MkDir ["src"]; MkDir ["src"; "routes"]; MkDir ["src"; "controllers"];
    MkDir ["src"; "models"]; MkDir ["src"; "middleware"];
    MkDir ["utils"]; MkDir ["config"];
    Write ["src"; "server.js"] (SourceText projectName);
    Write ["src"; "routes"; "index.js"] (SourceText projectName);
    Write ["src"; "controllers"; "index.js"] (SourceText projectName);
    Write ["config"; "config.js"] (SourceText projectName);
    Write ["README.md"] (Readme projectName "api" author);
    Write [".gitignore"] (SourceText projectName);
    Write ["package.json"]
      (manifest projectName (projectName +:+ " - REST API") "src/server.js" None
         [("start", "node src/server.js"); ("dev", "node src/server.js")]
         ["api"; "rest"; "backend"] author) ].

Definition cli : list Step :=
  [ MkDir ["src"]; MkDir ["utils"]; MkDir ["commands"];
    Write ["src"; "cli.js"] (SourceText projectName);
    Write ["commands"; "index.js"] (SourceText projectName);
    Write ["README.md"] (Readme projectName "cli" author);
    Write [".gitignore"] (SourceText projectName);
    Write ["package.json"]
      (manifest projectName (projectName +:+ " - Command-line tool") "src/cli.js"
         (Some [(projectName, "./src/cli.js")])
         [("start", "node src/cli.js")]
         ["cli"; "command-line"; "tool"] author) ].

Definition fullstack : list Step :=
  [ MkDir ["frontend"]; MkDir ["frontend"; "src"];
    MkDir ["frontend"; "src"; "components"]; MkDir ["frontend"; "src"; "pages"];
    MkDir ["frontend"; "src"; "styles"]; MkDir ["frontend"; "src"; "services"];
    MkDir ["frontend"; "public"];
    Write ["frontend"; "src"; "App.js"] (SourceText projectName);
    Write ["frontend"; "src"; "services"; "api.js"] (SourceText projectName);
    Write ["frontend"; "src"; "components"; "Header.js"] (SourceText projectName);
    Write ["frontend"; "src"; "pages"; "UsersPage.js"] (SourceText projectName);
    Write ["frontend"; "public"; "index.html"] (SourceText projectName);
    Write ["frontend"; "src"; "styles"; "main.css"] (SourceText projectName);
    Write ["frontend"; "server.js"] (SourceText projectName);
    Write ["frontend"; "package.json"]
      (manifest (projectName +:+ "-frontend") (projectName +:+ " - Frontend Application")
         "server.js" None
         [("dev", "node server.js"); ("start", "node server.js")]
         ["frontend"; "fullstack"] author);
    MkDir ["backend"]; MkDir ["backend"; "routes"]; MkDir ["backend"; "controllers"];
    MkDir ["backend"; "models"]; MkDir ["backend"; "middleware"];
    MkDir ["backend"; "config"];
    Write ["backend"; "server.js"] (SourceText projectName);
    Write ["backend"; "routes"; "index.js"] (SourceText projectName);
    Write ["backend"; "controllers"; "userController.js"] (SourceText projectName);
    Write ["backend"; "models"; "User.js"] (SourceText projectName);
    Write ["backend"; "config"; "db.js"] (SourceText projectName);
    Write ["backend"; ".env"] (SourceText projectName);
    Write ["backend"; "package.json"]
      (manifest (projectName +:+ "-backend") (projectName +:+ " - Backend API")
         "server.js" None
         [("dev", "node server.js"); ("start", "node server.js")]
         ["backend"; "api"; "fullstack"] author);
    Write ["README.md"] (SourceText projectName);
    Write [".gitignore"] (SourceText projectName) ].

(** The steps [generate] dispatches to. *)
Definition of_template (template : string) : list Step :=
  if decide (template = "web") then web
  else if decide (template = "api") then api
  else if decide (template = "cli") then cli
  else if decide (template = "fullstack") then fullstack
  else basic.

End Templates.

End Script.

(** The events a statement adds to the log of [w], and their paths. *)
Definition events_of {A} (c : JS A) (w : World) : list Event :=
  drop (length (log w)) (log (snd (c w))).

Definition created (evs : list Event) : list Path :=
  omap (fun e => match e with FsMkdir p => Some p | _ => None end) evs.

Definition written (evs : list Event) : list Path :=
  omap (fun e => match e with FsWrite p _ => Some p | _ => None end) evs.

Definition templates : list string := ["basic"; "web"; "api"; "cli"; "fullstack"].

(** ** The table of generated layouts

    Second definition, from the words of the specification: per template,
    the directories created and the files written. The table names a
    directory by its path and a file by its role; [location] is where the
    generated tree keeps the file of a role. *)

Module SpecTable.

Inductive Role :=
| SrcEntryStub | UtilsHelperStub | Manifest | IgnoreFile | ReadmeFile
| HtmlPage | CssStylesheet | JsInteractionStub
| HttpServerEntry | RouteDispatcher | ControllerHandlers | ConfigModule
| CliEntry | CommandModule
| FrontendManifest | BackendManifest
| FrontendApp | FrontendService | FrontendComponent | FrontendPage
| FrontendServer | FrontendCss | FrontendHtml
| BackendServer | BackendRoutes | BackendController | BackendModel
| BackendConfig | BackendEnv.

Definition directories (template : string) : list Path :=
  if decide (template = "basic") then
    [["src"]; ["utils"]; ["tests"]]
  else if decide (template = "web") then
    [["src"]; ["src"; "css"]; ["src"; "js"]; ["public"]; ["assets"]]
  else if decide (template = "api") then
    [["src"]; ["src"; "routes"]; ["src"; "controllers"]; ["src"; "models"];
     ["src"; "middleware"]; ["utils"]; ["config"]]
  else if decide (template = "cli") then
    [["src"]; ["utils"]; ["commands"]]
  else if decide (template = "fullstack") then
    [["frontend"]; ["frontend"; "src"];
     ["frontend"; "src"; "components"]; ["frontend"; "src"; "pages"];
     ["frontend"; "src"; "styles"]; ["frontend"; "src"; "services"];
     ["frontend"; "public"];
     ["backend"]; ["backend"; "routes"]; ["backend"; "controllers"];
     ["backend"; "models"]; ["backend"; "middleware"]; ["backend"; "config"]]
  else [].

Definition files (template : string) : list Role :=
  if decide (template = "basic") then
    [SrcEntryStub; UtilsHelperStub; Manifest; IgnoreFile; ReadmeFile]
  else if decide (template = "web") then
    [HtmlPage; CssStylesheet; JsInteractionStub; Manifest; IgnoreFile; ReadmeFile]
  else if decide (template = "api") then
    [HttpServerEntry; RouteDispatcher; ControllerHandlers; ConfigModule;
     Manifest; IgnoreFile; ReadmeFile]
  else if decide (template = "cli") then
    [CliEntry; CommandModule; Manifest; IgnoreFile; ReadmeFile]
  else if decide (template = "fullstack") then
    [FrontendManifest; BackendManifest;
     FrontendApp; FrontendService; FrontendComponent; FrontendPage;
     FrontendServer; FrontendCss; FrontendHtml;
     BackendServer; BackendRoutes; BackendController; BackendModel;
     BackendConfig; BackendEnv;
     ReadmeFile; IgnoreFile]
  else [].

Definition location (r : Role) : Path :=
  match r with
  | SrcEntryStub => ["src"; "index.js"]
  | UtilsHelperStub => ["utils"; "helpers.js"]
  | Manifest => ["package.json"]
  | IgnoreFile => [".gitignore"]
  | ReadmeFile => ["README.md"]
  | HtmlPage => ["src"; "index.html"]
  | CssStylesheet => ["src"; "css"; "style.css"]
  | JsInteractionStub => ["src"; "js"; "app.js"]
  | HttpServerEntry => ["src"; "server.js"]
  | RouteDispatcher => ["src"; "routes"; "index.js"]
  | ControllerHandlers => ["src"; "controllers"; "index.js"]
  | ConfigModule => ["config"; "config.js"]
  | CliEntry => ["src"; "cli.js"]
  | CommandModule => ["commands"; "index.js"]
  | FrontendManifest => ["frontend"; "package.json"]
  | BackendManifest => ["backend"; "package.json"]
  | FrontendApp => ["frontend"; "src"; "App.js"]
  | FrontendService => ["frontend"; "src"; "services"; "api.js"]
  | FrontendComponent => ["frontend"; "src"; "components"; "Header.js"]
  | FrontendPage => ["frontend"; "src"; "pages"; "UsersPage.js"]
  | FrontendServer => ["frontend"; "server.js"]
  | FrontendCss => ["frontend"; "src"; "styles"; "main.css"]
  | FrontendHtml => ["frontend"; "public"; "index.html"]
  | BackendServer => ["backend"; "server.js"]
  | BackendRoutes => ["backend"; "routes"; "index.js"]
  | BackendController => ["backend"; "controllers"; "userController.js"]
  | BackendModel => ["backend"; "models"; "User.js"]
  | BackendConfig => ["backend"; "config"; "db.js"]
  | BackendEnv => ["backend"; ".env"]
  end.

End SpecTable.

Definition dir_rel (s : Script.Step) : option Path :=
  match s with Script.MkDir _ => Some (Script.rel s) | _ => None end.
Definition file_rel (s : Script.Step) : option Path :=
  match s with Script.Write _ _ => Some (Script.rel s) | _ => None end.

(** A root directory that is there and has nothing below it, as
    [createProject] hands it to [generate]. *)
Definition fresh (root : Path) (f : gmap Path Node) : Prop :=
  Fs.node_at f (join root []) = Some Dir /\
  forall rel : Path, rel <> [] -> f !! (join root [] ++ rel) = None.

(** The tree a template leaves below a fresh root, latest entry first. *)
Definition layout (options : Options.t) (template : string) : list (Path * Node) :=
  rev (Script.entry <$> Script.of_template options template).

(** ** Notions the properties are stated with *)

(** The file system [f] has a directory at [base], and below it what the
    entries [m] say. *)
Definition models (base : Path) (m : list (Path * Node)) (f : gmap Path Node) : Prop :=
  Fs.node_at f base = Some Dir /\
  forall rel : Path, rel <> [] -> f !! (base ++ rel) = Script.find_node m rel.

(** The file system after a step that acts. *)
Definition apply_step (base : Path) (f : gmap Path Node) (s : Script.Step)
  : gmap Path Node :=
  <[base ++ Script.rel s := Script.node_of s]> f.

#[global] Instance Event_eq_dec : EqDecision Event.
Proof. solve_decision. Defined.

Import JsString ArgumentParser ProjectCLI.

(** A flag that takes a value. *)
Definition takes_value (arg : string) : bool :=
  is_template_flag arg || is_author_flag arg.

(** The token at index [i] is a flag that takes a value, and the next
    token cannot be one: it is absent, empty or starts with '-'. *)
Definition lacks_value (args : list string) (i : nat) : Prop :=
  exists flag,
    args !! i = Some flag /\ takes_value flag = true /\
    match args !! S i with
    | None => True
    | Some next => not_a_value next = true
    end.

(** The message for a flag without its value: it names the long form. *)
Definition requires_value (flag : string) : string :=
  if is_template_flag flag then template_requires_value else author_requires_value.

(** A token that starts with '-'. *)
Definition is_flag (arg : string) : bool := startsWith arg "-".

(** The long form of a flag that takes a value. *)
Definition long_form (flag : string) : string :=
  if is_template_flag flag then "--template" else "--author".

(** A name with a character outside [A-Za-z0-9_-]. *)
Definition has_char_outside (s : string) : Prop :=
  exists a, a ∈ String.list_ascii_of_string s /\ name_char a = false.

(** Events of [fs.mkdirSync] and [fs.writeFileSync]. *)
Definition fs_event (e : Event) : Prop :=
  match e with
  | FsMkdir _ | FsWrite _ _ => True
  | _ => False
  end.

(** The success report of [run], after [createProject]. *)
Definition next_steps (config : Config.t) : list Event :=
  [ LogSuccess (created_successfully (Config.projectName config));
    LogInfo (nl +:+ "Next steps:");
    LogInfo ("  cd " +:+ Config.projectName config) ]
  ++ (if bool_decide (Config.template config = "web")
         || bool_decide (Config.template config = "api")
      then [LogInfo "  npm install"; LogInfo "  npm start"]
      else [LogInfo "  Start coding!"]).

(** The manifest of the basic template for project demo by Ann. *)
Definition demo_basic_manifest : PackageJson.t :=
  {| PackageJson.name := "demo";
     PackageJson.version := "1.0.0";
     PackageJson.description := "demo - A basic project";
     PackageJson.main := "src/index.js";
     PackageJson.bin := None;
     PackageJson.scripts :=
       [("start", "node src/index.js");
        ("test", "echo " +:+ JsString.dq +:+ "Error: no test specified"
                 +:+ JsString.dq +:+ " && exit 1")];
     PackageJson.keywords := [];
     PackageJson.author := "Ann";
     PackageJson.license := "MIT" |}.

Ltac script_cases H :=
  repeat (apply elem_of_cons in H as [H|H];
          [try discriminate; try (injection H as ? ?; subst)|]);
  try (by apply elem_of_nil in H).

Ltac split_list :=
  first [ by exists [] | by eexists [_] | by eexists [_; _] | by eexists [_; _; _]
        | by eexists [_; _; _; _] | by eexists [_; _; _; _; _] ].

(** ** Notions of the further properties *)

Definition first_name (args : list string) : option string :=
  List.find (fun arg => negb (startsWith arg "-")) args.

(** A token the loop has a case for. *)
Definition recognised (arg : string) : bool := takes_value arg || is_git_flag arg.

(** The place after [pre] is not the value place of a flag: [pre] is empty
    or its last token takes no value. *)
Definition free_place (pre : list string) : Prop :=
  match last pre with
  | None => True
  | Some a => takes_value a = false
  end.

(** What follows cannot be a value: nothing, or a token that is empty or
    starts with '-'. *)
Definition no_value_ahead (post : list string) : Prop :=
  match post with
  | [] => True
  | b :: _ => not_a_value b = true
  end.

(** [f'] keeps every entry of [f]. *)
Definition keeps (f f' : gmap Path Node) : Prop :=
  forall q n, f !! q = Some n -> f' !! q = Some n.

(** Events [initGit] can leave. *)
Definition git_event (e : Event) : Prop :=
  match e with
  | LogInfo _ | LogSuccess _ | LogWarning _ | Chdir _ | Exec _ _ => True
  | _ => False
  end.

(** The project directory of a configuration, from the working directory
    of [w]. *)
Definition project_path (config : Config.t) (w : World) : Path :=
  join (cwd w) [Config.projectName config].

Definition announcement (config : Config.t) : string :=
  nl +:+ "Creating " +:+ Config.template config +:+ " project: "
  +:+ Config.projectName config +:+ "...".

Definition project_options (config : Config.t) : Options.t :=
  Options.Build (Config.projectName config) (Some (Config.author config)).

(** Every entry of the file system has its parent directory. *)
Definition well_formed (f : gmap Path Node) : Prop :=
  map_Forall (fun p _ => Fs.node_at f (Fs.parent p) = Some Dir) f.

(** The world [createProject] reaches before [initGit], when the project
    directory is new in a well-formed file system. *)
Definition scaffolded (config : Config.t) (w : World) : World :=
  let P := project_path config w in
  let steps := Script.of_template (project_options config) (Config.template config) in
  {| fs := foldl (apply_step P) (<[P := Dir]> (fs w)) steps;
     cwd := cwd w;
     log := log w ++ [LogInfo (announcement config); FsMkdir P]
            ++ (Script.event P <$> steps) |}.

Definition git_started : string := "Initializing Git repository...".

Definition git_done : string := "✓ Git repository initialized".

(** The commands [initGit] ran when it did not finish: each one after the
    success of the one before, in the order init, add, commit. *)
Definition interrupted (ran : list Event) : Prop :=
  ran = [Exec git_init false] \/
  ran = [Exec git_init true; Exec git_add false] \/
  ran = [Exec git_init true; Exec git_add true; Exec git_commit false] \/
  ran = [Exec git_init true; Exec git_add true; Exec git_commit true].

Module Console.

Inductive Stream := Stdout | Stderr.

Definition esc : string := String (ascii_of_nat 27) "".

(** The template literal of a Logger method: the message between the
    colour sequence and the reset sequence. *)
Definition colored (code message : string) : string :=
  esc +:+ "[" +:+ code +:+ "m" +:+ message +:+ esc +:+ "[0m".

(** The line a Logger event stands for, and the stream it goes to:
    [console.error] for [error], [console.log] for the others. *)
Definition line (e : Event) : option (Stream * string) :=
  match e with
  | LogInfo msg => Some (Stdout, colored "36" msg)
  | LogSuccess msg => Some (Stdout, colored "32" msg)
  | LogError msg => Some (Stderr, colored "31" msg)
  | LogWarning msg => Some (Stdout, colored "33" msg)
  | _ => None
  end.

End Console.

(** A project directory in which [README.md] is a directory: the basic
    template throws when it reaches that file. *)
Definition blocked : World :=
  {| fs := <[ ["home"; "dev"; "README.md"] := Dir ]> (fs home);
     cwd := ["home"; "dev"];
     log := [] |}.

(** ** The test suite *)

Module TestRunner.

(** How the child process of [execSync] ended: with an exit code, or
    killed by a signal. *)
Inductive Exit := Code (status : nat) | Killed.

(** What a test throws and catches. The error of [execSync] has a
    [status] field, the exit code of the child ([null], here [None], when
    the child was killed); an error made by [new Error(message)] has no
    such field. *)
Inductive TestError :=
| ExecError (status : option nat)
| PlainError (message : string).

Inductive Result (A : Type) :=
| Done (a : A)
| Raised (error : TestError).
Arguments Done {A} a.
Arguments Raised {A} error.

Definition Test (A : Type) : Type := World -> Result A * World.

Definition done {A} (a : A) : Test A := fun w => (Done a, w).
Definition raise {A} (error : TestError) : Test A := fun w => (Raised error, w).
Definition and_then {A B} (c : Test A) (k : A -> Test B) : Test B :=
  fun w =>
    match c w with
    | (Done a, w') => k a w'
    | (Raised error, w') => (Raised error, w')
    end.
(** [try { body } catch (error) { handler }] *)
Definition catch {A} (body : Test A) (handler : TestError -> Test A) : Test A :=
  fun w =>
    match body w with
    | (Done a, w') => (Done a, w')
    | (Raised error, w') => handler error w'
    end.

Notation "x <~ c1 ;; c2" := (and_then c1 (fun x => c2))
  (at level 100, c1 at next level, right associativity).
Notation "c1 ;;; c2" := (and_then c1 (fun _ => c2))
  (at level 100, right associativity).

(** [error.status !== 0]: [null] and [undefined] are not 0. *)
Definition status_not_zero (error : TestError) : bool :=
  match error with
  | ExecError (Some status) => negb (status =? 0)
  | ExecError None => true
  | PlainError _ => true
  end.

(** [assert(condition, message)] *)
Definition assert (condition : bool) (message : string) : Test unit :=
  if condition then done tt
  else raise (PlainError (if truthy message then message else "Assertion failed")).

Definition existsSync (p : Path) : Test bool :=
  fun w => (Done (bool_decide (is_Some (Fs.node_at (fs w) p))), w).

(** [fs.rmSync(p, { recursive: true, force: true })]: the entry at [p]
    and everything below it go; nothing is thrown when there is none. *)
Definition rmSync (p : Path) : Test unit :=
  fun w =>
    (Done tt, set_fs (filter (fun entry => ~ p `prefix_of` entry.1) (fs w)) w).

Definition process_cwd : Test Path := fun w => (Done (cwd w), w).

Section WithCli.

(** The program under test, as a child process: from its arguments, the
    directory it starts in and the file system, how it ends and the file
    system it leaves. *)
Variable cli : list string -> Path -> gmap Path Node -> Exit * gmap Path Node.

(** [execSync('node index.js <args>', { stdio: 'ignore' })], on the
    arguments the shell hands to the program. The child starts in the
    working directory of the test; what it prints is dropped.
    [execSync] throws unless the child exits with code 0. *)
Definition execSync (args : list string) : Test unit :=
  fun w =>
    let '(exit, f) := cli args (cwd w) (fs w) in
    match exit with
    | Code 0 => (Done tt, set_fs f w)
    | Code status => (Raised (ExecError (Some status)), set_fs f w)
    | Killed => (Raised (ExecError None), set_fs f w)
    end.

(** [this.assert(fs.existsSync(p), message)] *)
Definition assert_exists (p : Path) (message : string) : Test unit :=
  found <~ existsSync p ;; assert found message.

Definition testBasicTemplate : Test unit :=
  execSync ["test-basic-app"; "--template"; "basic"] ;;;
  here <~ process_cwd ;;
  let projectPath := join here ["test-basic-app"] in
  assert_exists projectPath "Project directory should exist" ;;;
  assert_exists (join projectPath ["src"]) "src directory should exist" ;;;
  assert_exists (join projectPath ["utils"]) "utils directory should exist" ;;;
  assert_exists (join projectPath ["package.json"]) "package.json should exist" ;;;
  assert_exists (join projectPath ["README.md"]) "README.md should exist" ;;;
  rmSync projectPath.

Definition testWebTemplate : Test unit :=
  execSync ["test-web-app"; "-t"; "web"] ;;;
  here <~ process_cwd ;;
  let projectPath := join here ["test-web-app"] in
  assert_exists (join projectPath ["src"; "index.html"]) "index.html should exist" ;;;
  assert_exists (join projectPath ["src"; "css"; "style.css"]) "style.css should exist" ;;;
  assert_exists (join projectPath ["src"; "js"; "app.js"]) "app.js should exist" ;;;
  rmSync projectPath.

Definition testApiTemplate : Test unit :=
  execSync ["test-api-app"; "-t"; "api"] ;;;
  here <~ process_cwd ;;
  let projectPath := join here ["test-api-app"] in
  assert_exists (join projectPath ["src"; "server.js"]) "server.js should exist" ;;;
  assert_exists (join projectPath ["src"; "routes"]) "routes directory should exist" ;;;
  assert_exists (join projectPath ["src"; "controllers"])
    "controllers directory should exist" ;;;
  assert_exists (join projectPath ["config"]) "config directory should exist" ;;;
  rmSync projectPath.

Definition testCliTemplate : Test unit :=
  execSync ["test-cli-app"; "-t"; "cli"] ;;;
  here <~ process_cwd ;;
  let projectPath := join here ["test-cli-app"] in
  assert_exists (join projectPath ["src"; "cli.js"]) "cli.js should exist" ;;;
  assert_exists (join projectPath ["commands"]) "commands directory should exist" ;;;
  rmSync projectPath.

Definition testInvalidProjectName : Test unit :=
  catch
    (execSync ["test@invalid#name"; "--template"; "basic"] ;;;
     raise (PlainError "Should have failed with invalid project name"))
    (fun error =>
       assert (status_not_zero error)
         "Should exit with non-zero status for invalid name").

Definition testDuplicateProjectName : Test unit :=
  execSync ["test-duplicate-app"; "--template"; "basic"] ;;;
  catch
    (execSync ["test-duplicate-app"; "--template"; "basic"] ;;;
     raise (PlainError "Should have failed with duplicate project name"))
    (fun error =>
       assert (status_not_zero error)
         "Should exit with non-zero status for duplicate name") ;;;
  here <~ process_cwd ;;
  let projectPath := join here ["test-duplicate-app"] in
  found <~ existsSync projectPath ;;
  if found then rmSync projectPath else done tt.

End WithCli.

(** The program under test is [run]: the exit code of the process is the
    value of [run], and 1 for an exception no one caught. *)
Definition node_index (sub : ChildProcess.Subprocess)
  (args : list string) (here : Path) (f : gmap Path Node) : Exit * gmap Path Node :=
  let child := run sub args {| fs := f; cwd := here; log := [] |} in
  (match fst child with
   | Returned status => Code status
   | Thrown _ => Code 1
   end,
   fs (snd child)).

(** The four tests of a template, with the directory each one makes. *)
Definition template_tests (sub : ChildProcess.Subprocess) : list (string * Test unit) :=
  [ ("test-basic-app", testBasicTemplate (node_index sub));
    ("test-web-app", testWebTemplate (node_index sub));
    ("test-api-app", testApiTemplate (node_index sub));
    ("test-cli-app", testCliTemplate (node_index sub)) ].

End TestRunner.

Import TestRunner.

Ltac found_in H := apply H; [reflexivity|discriminate|vm_compute; by eexists].

(** * Properties *)

(** ** Paths *)

Lemma normalizeString_plain allow acc cs :
  forallb Script.is_plain cs = true ->
  normalizeString allow acc cs = rev acc ++ cs.
Proof.
  revert acc. induction cs as [|c cs IH]; intros acc Hp; simpl in *.
  - by rewrite app_nil_r.
  - apply andb_prop in Hp as [Hc Hcs]. unfold Script.is_plain in Hc.
    rewrite !andb_true_iff, !negb_true_iff, !bool_decide_eq_false in Hc.
    destruct Hc as [[H1 H2] H3].
    repeat case_decide; try done.
    rewrite IH by done. cbn [rev]. by rewrite <- app_assoc.
Qed.

Lemma normalizeString_app allow acc l cs :
  forallb Script.is_plain cs = true ->
  normalizeString allow acc (l ++ cs) = normalizeString allow acc l ++ cs.
Proof.
  intros Hp. revert acc. induction l as [|c l IH]; intros acc; simpl.
  - by apply normalizeString_plain.
  - repeat case_decide; try destruct acc; repeat case_decide; try destruct allow; apply IH.
Qed.

(** Below a root, [path.join] appends dot-free components to the
    normalised root. *)
Lemma join_plain root args :
  forallb Script.is_plain (segments args) = true ->
  join root args = join root [] ++ segments args.
Proof.
  intros Hp. unfold join. rewrite normalizeString_app by done.
  by rewrite app_nil_r.
Qed.

(** ** The generator is its script *)

Lemma generate_script root template options :
  TemplateGenerator.generate root template options
  = Script.run root (Script.of_template options template).
Proof.
  unfold TemplateGenerator.generate, Script.of_template.
  repeat case_decide; reflexivity.
Qed.

(** ** One step of a script, on any world *)

Lemma events_of_app {A} (c : JS A) w evs :
  log (snd (c w)) = log w ++ evs -> events_of c w = evs.
Proof. intros H. unfold events_of. rewrite H. apply drop_app_length. Qed.

Lemma run_cons root s rest w :
  Script.run root (s :: rest) w =
  match Script.exec root s w with
  | (Returned _, w1) => Script.run root rest w1
  | (Thrown e, w1) => (Thrown e, w1)
  end.
Proof.
  destruct rest; simpl; unfold bind, ret;
    destruct (Script.exec root s w) as [[[]|e] w1]; reflexivity.
Qed.

Lemma plain_join root s :
  Script.plain s = true ->
  join root (match s with Script.MkDir a => a | Script.Write a _ => a end)
  = join root [] ++ Script.rel s.
Proof.
  intros Hp. apply andb_prop in Hp as [Hp _].
  destruct s; apply join_plain, Hp.
Qed.

(** A step leaves the working directory alone and adds at most its own
    event to the log; a step that throws adds none. *)
Lemma exec_log root s w :
  Script.plain s = true ->
  cwd (snd (Script.exec root s w)) = cwd w /\
  (log (snd (Script.exec root s w)) = log w \/
   (fst (Script.exec root s w) = Returned tt /\
    log (snd (Script.exec root s w)) = log w ++ [Script.event (join root []) s])).
Proof.
  intros Hp. pose proof (plain_join root s Hp) as Hj.
  destruct s as [args|args content]; simpl in *.
  - unfold TemplateGenerator.createDir, bind, Fs.existsSync.
    case_bool_decide; simpl; [by auto|].
    unfold Fs.mkdirSync. destruct (Fs.mkdirp _ _); simpl; [|by auto].
    split; [done|]. right. by rewrite Hj.
  - unfold TemplateGenerator.writeFile, Fs.writeFileSync.
    destruct (Fs.node_at (fs w) (join root args)) as [[|c]|];
      try (simpl; by auto);
      (destruct (Fs.node_at (fs w) (Fs.parent (join root args))) as [[|c']|];
       simpl; [|by auto..]; split; [done|]; right; by rewrite Hj).
Qed.

Lemma run_log root steps : forall w,
  forallb Script.plain steps = true ->
  exists acted,
    sublist acted steps /\
    log (snd (Script.run root steps w))
    = log w ++ (Script.event (join root []) <$> acted) /\
    cwd (snd (Script.run root steps w)) = cwd w.
Proof.
  induction steps as [|s rest IH]; intros w Hp.
  - exists []. simpl. by rewrite app_nil_r.
  - simpl in Hp. apply andb_prop in Hp as [Hs Hrest].
    rewrite run_cons.
    destruct (exec_log root s w Hs) as [Hcwd Hlog].
    destruct (Script.exec root s w) as [[[]|e] w1] eqn:E; simpl in *.
    + destruct (IH w1 Hrest) as (acted & Hsub & Hl & Hc).
      destruct Hlog as [Hlog|[_ Hlog]].
      * exists acted. rewrite Hl, Hlog, Hc. split; [|done].
        by apply sublist_cons.
      * exists (s :: acted).
        rewrite Hl, Hlog, Hc, <- app_assoc. split; [|done].
        by apply sublist_skip.
    + destruct Hlog as [Hlog|[? _]]; [|done].
      exists []. rewrite Hlog, app_nil_r. split; [|done].
      apply sublist_nil_l.
Qed.

(** ** Sample runs *)

Example parse_demo :
  ArgumentParser.parse ["my-api"; "-t"; "API"; "-g"; "-a"; "John Doe"]
  = Returned (Config.Build "my-api" "api" true "John Doe").
Proof. reflexivity. Qed.

Example parse_template_web :
  ArgumentParser.parse ["--template"; "web"]
  = Returned (Config.Build "web" "web" false "").
Proof. reflexivity. Qed.

Example run_basic_demo :
  let '(r, w) := ProjectCLI.run quiet_git ["demo"; "-g"] home in
  r = Returned 0 /\ cwd w = ["home"; "dev"] /\
  fs w !! ["home"; "dev"; "demo"; "src"; "index.js"] = Some (File (SourceText "demo")).
Proof. vm_compute. auto. Qed.

Example run_demo_app_api :
  let w := snd (run quiet_git ["demo-app"; "--template"; "api"] home) in
  fst (run quiet_git ["demo-app"; "--template"; "api"] home) = Returned 0 /\
  created (log w)
  = [ ["home"; "dev"; "demo-app"];
      ["home"; "dev"; "demo-app"; "src"];
      ["home"; "dev"; "demo-app"; "src"; "routes"];
      ["home"; "dev"; "demo-app"; "src"; "controllers"];
      ["home"; "dev"; "demo-app"; "src"; "models"];
      ["home"; "dev"; "demo-app"; "src"; "middleware"];
      ["home"; "dev"; "demo-app"; "utils"];
      ["home"; "dev"; "demo-app"; "config"] ] /\
  exists pkg,
    fs w !! ["home"; "dev"; "demo-app"; "package.json"] = Some (File (Json pkg)) /\
    PackageJson.name pkg = "demo-app" /\ PackageJson.author pkg = "".
Proof.
  split; [by vm_compute|]. split; [by vm_compute|].
  eexists. split; [by vm_compute|]. by split.
Qed.

(** ** A script on a root that is there *)

Lemma mkdirp_existing f p :
  Fs.node_at f p = Some Dir -> Fs.mkdirp f (rev p) = Returned f.
Proof.
  intros H. destruct (rev p) as [|c r] eqn:E; [done|].
  simpl. change (rev r ++ [c]) with (rev (c :: r)).
  rewrite <- E, rev_involutive.
  destruct p; [done|]. simpl in H. by rewrite H.
Qed.

Lemma node_at_below (base rel : Path) f :
  rel <> [] -> Fs.node_at f (base ++ rel) = f !! (base ++ rel).
Proof. intros H. destruct base, rel; done. Qed.

Lemma parent_below (base rel : Path) :
  rel <> [] -> Fs.parent (base ++ rel) = base ++ Fs.parent rel.
Proof. intros H. unfold Fs.parent. by apply removelast_app. Qed.

Lemma is_dir_true n : Script.is_dir n = true -> n = Some Dir.
Proof. by destruct n as [[|c]|]. Qed.

Lemma models_parent base m f rel :
  models base m f -> rel <> [] -> Script.parent_is_dir m rel = true ->
  Fs.node_at f (Fs.parent (base ++ rel)) = Some Dir.
Proof.
  intros [Hroot Hbelow] Hne Hpar. rewrite parent_below by done.
  unfold Script.parent_is_dir in Hpar.
  destruct (Fs.parent rel) as [|c par] eqn:E.
  - by rewrite app_nil_r.
  - apply is_dir_true in Hpar.
    rewrite node_at_below by done. by rewrite Hbelow.
Qed.

Lemma models_insert base m f s :
  models base m f -> Script.rel s <> [] ->
  models base (Script.entry s :: m) (apply_step base f s).
Proof.
  intros [Hroot Hbelow] Hne. unfold apply_step. split.
  - destruct base as [|b base]; [done|]. simpl in *.
    rewrite lookup_insert_ne; [done|].
    intros Heq. apply Hne.
    apply (app_inv_head (b :: base)). by rewrite app_nil_r.
  - intros rel' Hne'. simpl. case_decide as Hd.
    + by rewrite Hd, lookup_insert_eq.
    + rewrite lookup_insert_ne; [by apply Hbelow|].
      intros Heq. by apply app_inv_head in Heq.
Qed.

Lemma sim_step_plain m s :
  Script.sim_step m s = true ->
  Script.plain s = true /\ Script.rel s <> [] /\
  Script.parent_is_dir m (Script.rel s) = true.
Proof.
  intros H. apply andb_prop in H as [H _]. apply andb_prop in H as [Hp Hpar].
  split; [done|]. split; [|done].
  apply andb_prop in Hp as [_ Hne].
  by apply negb_true_iff, bool_decide_eq_false in Hne.
Qed.

Lemma exec_sim root m s w :
  models (join root []) m (fs w) ->
  Script.sim_step m s = true ->
  Script.exec root s w =
    (Returned tt,
     emit (Script.event (join root []) s)
          (set_fs (apply_step (join root []) (fs w) s) w)).
Proof.
  intros Hm Hs.
  destruct (sim_step_plain _ _ Hs) as (Hp & Hne & Hpar).
  pose proof (plain_join root s Hp) as Hj.
  pose proof (models_parent _ _ _ _ Hm Hne Hpar) as Hparent.
  apply andb_prop in Hs as [_ Hs].
  destruct Hm as [Hroot Hbelow].
  destruct s as [args|args content]; simpl in *.
  - destruct (Script.find_node m (segments args)) eqn:Hfree; [done|].
    unfold TemplateGenerator.createDir, bind, Fs.existsSync.
    rewrite Hj, (node_at_below (join root []) (segments args)), Hbelow, Hfree by done.
    rewrite bool_decide_eq_false_2 by (by intros [? ?]). simpl.
    unfold Fs.mkdirSync.
    destruct (segments args) as [|c0 rest0 _] eqn:Eseg using rev_ind; [done|].
    unfold Fs.parent in Hparent.
    rewrite app_assoc in Hparent |- *.
    rewrite removelast_last in Hparent.
    rewrite rev_unit. cbn [Fs.mkdirp rev].
    rewrite rev_involutive, <- app_assoc, Hbelow, Hfree by done.
    rewrite (mkdirp_existing _ _ Hparent). unfold apply_step. simpl.
    by rewrite Eseg.
  - unfold TemplateGenerator.writeFile, Fs.writeFileSync.
    rewrite Hj, Hparent.
    rewrite (node_at_below (join root []) (segments args)), Hbelow by done.
    unfold apply_step. simpl.
    by destruct (Script.find_node m (segments args)) as [[|c]|] eqn:E.
Qed.

Lemma run_sim root steps : forall m w,
  models (join root []) m (fs w) ->
  Script.sim m steps = true ->
  Script.run root steps w =
    (Returned tt,
     {| fs := foldl (apply_step (join root [])) (fs w) steps;
        cwd := cwd w;
        log := log w ++ (Script.event (join root []) <$> steps) |}) /\
  models (join root []) (rev (Script.entry <$> steps) ++ m)
         (foldl (apply_step (join root [])) (fs w) steps).
Proof.
  induction steps as [|s rest IH]; intros m w Hm Hsim.
  - simpl in *. split; [|done].
    destruct w; unfold ret; simpl. by rewrite app_nil_r.
  - simpl in Hsim. apply andb_prop in Hsim as [Hs Hsim].
    pose proof (exec_sim root m s w Hm Hs) as Hexec.
    destruct (sim_step_plain _ _ Hs) as (_ & Hne & _).
    pose proof (models_insert _ _ _ s Hm Hne) as Hm1.
    rewrite run_cons, Hexec.
    destruct (IH (Script.entry s :: m)
                (emit (Script.event (join root []) s)
                   (set_fs (apply_step (join root []) (fs w) s) w)) Hm1 Hsim)
      as [Hrun Hm'].
    rewrite Hrun. simpl. split; [by rewrite <- app_assoc|].
    csimpl. by rewrite <- app_assoc.
Qed.

Lemma foldl_apply_step_other base steps : forall f p,
  p ∉ (fun s => base ++ Script.rel s) <$> steps ->
  foldl (apply_step base) f steps !! p = f !! p.
Proof.
  induction steps as [|s rest IH]; intros f p Hp; [done|].
  simpl in *. apply not_elem_of_cons in Hp as [Hne Hp].
  rewrite IH by done. unfold apply_step. by rewrite lookup_insert_ne.
Qed.

Lemma created_events base steps :
  created (Script.event base <$> steps) = (app base) <$> omap dir_rel steps.
Proof.
  unfold created.
  induction steps as [|[args|args c] rest IH]; csimpl; by rewrite ?IH.
Qed.

Lemma written_events base steps :
  written (Script.event base <$> steps) = (app base) <$> omap file_rel steps.
Proof.
  unfold written.
  induction steps as [|[args|args c] rest IH]; csimpl; by rewrite ?IH.
Qed.

Lemma touched_events base steps p :
  p ∉ created (Script.event base <$> steps) ->
  p ∉ written (Script.event base <$> steps) ->
  p ∉ (fun s => base ++ Script.rel s) <$> steps.
Proof.
  rewrite created_events, written_events.
  induction steps as [|[args|args c] rest IH]; simpl; intros Hc Hw.
  - apply not_elem_of_nil.
  - apply not_elem_of_cons in Hc as [? ?]. apply not_elem_of_cons. auto.
  - apply not_elem_of_cons in Hw as [? ?]. apply not_elem_of_cons. auto.
Qed.

Lemma fresh_models root f : fresh root f -> models (join root []) [] f.
Proof. intros [Hr Hb]. split; [done|]. intros rel Hne. by rewrite Hb. Qed.

Lemma sim_of_template options template :
  Script.sim [] (Script.of_template options template) = true.
Proof.
  unfold Script.of_template. repeat case_decide; vm_compute; reflexivity.
Qed.

Lemma plain_of_template options template :
  forallb Script.plain (Script.of_template options template) = true.
Proof.
  unfold Script.of_template. repeat case_decide; vm_compute; reflexivity.
Qed.

Lemma template_cases (P : string -> Prop) :
  P "basic" -> P "web" -> P "api" -> P "cli" -> P "fullstack" ->
  forall template, template ∈ templates -> P template.
Proof.
  intros ????? template Hin. unfold templates in Hin.
  repeat (apply elem_of_cons in Hin as [->|Hin]; [done|]).
  by apply elem_of_nil in Hin.
Qed.

Lemma layout_directories options template :
  template ∈ templates ->
  forallb (fun d => Script.is_dir (Script.find_node (layout options template) d))
          (SpecTable.directories template) = true.
Proof. revert template. apply template_cases; vm_compute; reflexivity. Qed.

Lemma layout_files options template :
  template ∈ templates ->
  forallb (fun r => Script.is_file (Script.find_node (layout options template) (SpecTable.location r)))
          (SpecTable.files template) = true.
Proof. revert template. apply template_cases; vm_compute; reflexivity. Qed.

Lemma script_directories options template :
  template ∈ templates ->
  omap dir_rel (Script.of_template options template) = SpecTable.directories template.
Proof. revert template. apply template_cases; reflexivity. Qed.

Lemma script_files options template :
  template ∈ templates ->
  omap file_rel (Script.of_template options template)
  ≡ₚ SpecTable.location <$> SpecTable.files template.
Proof.
  revert template. apply template_cases;
    apply (bool_decide_unpack _); vm_compute; reflexivity.
Qed.

Lemma table_directories_nonempty template d :
  d ∈ SpecTable.directories template -> d <> [].
Proof.
  unfold SpecTable.directories. intros Hd ->.
  repeat case_decide;
    repeat (apply elem_of_cons in Hd as [Hd|Hd]; [discriminate|]);
    by apply elem_of_nil in Hd.
Qed.

(** C3. For each of the five templates and every project name (matching
    the name pattern or not), on a project root that is there and has
    nothing below it ([join root []] is the root in normal form),
    [generate] returns, and it creates exactly the
    directories and writes exactly the files of the table of section 4.3:
    the directories it makes are those of the table, the files it writes are
    the table's files up to order, each is in the file system afterwards, and
    every other path holds what it held before. *)
Theorem generate_exact_layout root template projectName author w :
  template ∈ templates ->
  fresh root (fs w) ->
  let generated :=
    TemplateGenerator.generate root template (Options.Build projectName author) in
  fst (generated w) = Returned tt /\
  created (events_of generated w)
  = app (join root []) <$> SpecTable.directories template /\
  written (events_of generated w)
  ≡ₚ (fun r => join root [] ++ SpecTable.location r) <$> SpecTable.files template /\
  (forall d, d ∈ SpecTable.directories template ->
     fs (snd (generated w)) !! (join root [] ++ d) = Some Dir) /\
  (forall r, r ∈ SpecTable.files template ->
     Script.is_file (fs (snd (generated w)) !! (join root [] ++ SpecTable.location r)) = true) /\
  (forall p, p ∉ created (events_of generated w) ->
             p ∉ written (events_of generated w) ->
             fs (snd (generated w)) !! p = fs w !! p).
Proof.
  intros Ht Hfresh generated. subst generated.
  set (options := Options.Build projectName author).
  rewrite generate_script.
  destruct (run_sim root (Script.of_template options template) [] w
              (fresh_models _ _ Hfresh) (sim_of_template _ _)) as [Hrun Hm].
  rewrite app_nil_r in Hm. fold (layout options template) in Hm.
  destruct Hm as [_ Hbelow].
  rewrite (events_of_app _ w (Script.event (join root []) <$> Script.of_template options template))
    by (by rewrite Hrun).
  rewrite Hrun. simpl.
  rewrite created_events, written_events, script_directories by done.
  split; [done|]. split; [done|]. split.
  { rewrite (script_files options template Ht), <- list_fmap_compose. done. }
  split; [|split].
  - intros d Hd.
    pose proof (layout_directories options template Ht) as Hall.
    rewrite forallb_forall in Hall. apply list_elem_of_In in Hd.
    specialize (Hall d Hd). apply is_dir_true in Hall.
    rewrite Hbelow; [done|].
    by apply (table_directories_nonempty template), list_elem_of_In.
  - intros r Hr.
    pose proof (layout_files options template Ht) as Hall.
    rewrite forallb_forall in Hall. apply list_elem_of_In in Hr.
    specialize (Hall r Hr).
    rewrite Hbelow; [done|]. by destruct r.
  - intros p Hc Hw. apply foldl_apply_step_other.
    apply touched_events;
      by rewrite ?created_events, ?written_events, ?script_directories.
Qed.

Lemma sublist_omap {A B} (f : A -> option B) (l k : list A) :
  sublist l k -> sublist (omap f l) (omap f k).
Proof.
  induction 1 as [|x l k _ IH|x l k _ IH]; csimpl.
  - constructor.
  - destruct (f x); [by apply sublist_skip|done].
  - destruct (f x); [by apply sublist_cons|done].
Qed.

Lemma plain_rel_nonempty s : Script.plain s = true -> Script.rel s <> [].
Proof.
  intros Hp. apply andb_prop in Hp as [_ Hne].
  by apply negb_true_iff, bool_decide_eq_false in Hne.
Qed.

Lemma acted_inside base (rel_of : Script.Step -> option Path) steps acted :
  (forall s d, rel_of s = Some d -> d = Script.rel s) ->
  forallb Script.plain steps = true ->
  sublist acted steps ->
  Forall (inside base) (app base <$> omap rel_of acted).
Proof.
  intros Hrel Hp Hsub. apply Forall_forall. intros p Hin.
  apply list_elem_of_fmap in Hin as (d & -> & Hd).
  apply list_elem_of_omap in Hd as (s & Hs & Hd).
  exists d. split; [|done].
  rewrite (Hrel _ _ Hd). apply plain_rel_nonempty.
  rewrite forallb_forall in Hp. apply Hp, list_elem_of_In.
  by apply (elem_of_sublist acted).
Qed.

Lemma script_files_NoDup options template :
  NoDup (omap file_rel (Script.of_template options template)).
Proof.
  unfold Script.of_template.
  repeat case_decide; apply (bool_decide_unpack _); vm_compute; reflexivity.
Qed.

(** C4. For every template and every configuration, on any world, the files
    one call of [generate] writes have pairwise distinct paths relative to
    the project root, and every directory it creates and file it writes
    lies inside the project root ([join root []], the root in normal form),
    also when the call throws before its end. *)
Theorem generate_paths_distinct_inside root template projectName author w :
  let evs :=
    events_of (TemplateGenerator.generate root template
                 (Options.Build projectName author)) w in
  exists files : list Path,
    written evs = app (join root []) <$> files /\
    NoDup files /\
    Forall (inside (join root [])) (created evs) /\
    Forall (inside (join root [])) (written evs).
Proof.
  intros evs. subst evs.
  set (options := Options.Build projectName author).
  rewrite generate_script.
  destruct (run_log root _ w (plain_of_template options template))
    as (acted & Hsub & Hlog & _).
  rewrite (events_of_app _ _ _ Hlog), created_events, written_events.
  exists (omap file_rel acted). split; [done|]. split; [|split].
  - apply (sublist_NoDup _ (omap file_rel (Script.of_template options template)));
      [apply script_files_NoDup|by apply sublist_omap].
  - eapply acted_inside; [|apply plain_of_template|done].
    by intros [] d [= <-].
  - eapply acted_inside; [|apply plain_of_template|done].
    by intros [] d [= <-].
Qed.

Lemma written_in_script root steps w p content :
  forallb Script.plain steps = true ->
  FsWrite p content ∈ events_of (Script.run root steps) w ->
  exists args,
    Script.Write args content ∈ steps /\ p = join root [] ++ segments args.
Proof.
  intros Hp Hin.
  destruct (run_log root steps w Hp) as (acted & Hsub & Hlog & _).
  rewrite (events_of_app _ _ _ Hlog) in Hin.
  apply list_elem_of_fmap in Hin as (s & Hev & Hs).
  destruct s as [args|args c]; simpl in Hev; [done|].
  injection Hev as -> ->. exists args. split; [|done].
  by apply (elem_of_sublist acted).
Qed.

Lemma or_else_empty author :
  TemplateGenerator.or_else author "" = default "" author.
Proof. by destruct author as [[|a s]|]. Qed.

(** C1 (amended). Every package manifest one call of [generate] writes,
    for any of the five templates and any configuration, has version
    "1.0.0", the configured author (the empty string when there is none)
    and license "MIT". Its name is the project name for the basic, web,
    api and cli templates; the fullstack template writes two manifests,
    named after the project with the suffix "-frontend" in
    frontend/package.json and "-backend" in backend/package.json. *)
Theorem manifest_fields root template projectName author w p pkg :
  template ∈ templates ->
  FsWrite p (Json pkg)
    ∈ events_of (TemplateGenerator.generate root template
                   (Options.Build projectName author)) w ->
  PackageJson.version pkg = "1.0.0" /\
  PackageJson.author pkg = default "" author /\
  PackageJson.license pkg = "MIT" /\
  (template <> "fullstack" ->
     p = join root [] ++ ["package.json"] /\ PackageJson.name pkg = projectName) /\
  (template = "fullstack" ->
     (p = join root [] ++ ["frontend"; "package.json"]
      /\ PackageJson.name pkg = projectName +:+ "-frontend") \/
     (p = join root [] ++ ["backend"; "package.json"]
      /\ PackageJson.name pkg = projectName +:+ "-backend")).
Proof.
  intros Ht Hin. rewrite generate_script in Hin.
  apply written_in_script in Hin as (args & Hs & ->);
    [|apply plain_of_template].
  rewrite <- or_else_empty.
  revert template Ht Hs. refine (template_cases _ _ _ _ _ _); intros Hs;
    script_cases Hs; repeat split; try done; intros _; auto.
Qed.

Lemma home_fresh : fresh ["home"; "dev"] (fs home).
Proof.
  split; [reflexivity|].
  intros rel Hne. change (join ["home"; "dev"] []) with ["home"; "dev"].
  unfold home; simpl.
  rewrite !lookup_insert_ne, lookup_empty; [done| |].
  - intros H. by destruct rel.
  - intros H. apply Hne. by injection H.
Qed.

Lemma fullstack_manifest_name_counterexample :
  let generated :=
    TemplateGenerator.generate ["home"; "dev"] "fullstack" (Options.Build "shop" None) in
  exists pkg,
    FsWrite ["home"; "dev"; "frontend"; "package.json"] (Json pkg)
      ∈ events_of generated home /\
    fs (snd (generated home)) !! ["home"; "dev"; "frontend"; "package.json"]
      = Some (File (Json pkg)) /\
    PackageJson.name pkg = "shop-frontend" /\
    PackageJson.name pkg <> "shop".
Proof.
  eexists. split; [|split; [|split]].
  - vm_compute. do 14 apply list_elem_of_further. apply list_elem_of_here.
  - vm_compute. reflexivity.
  - reflexivity.
  - discriminate.
Qed.

Lemma manifest_fields_witness :
  let p := ["home"; "dev"; "package.json"] in
  let pkg := demo_basic_manifest in
  "basic" ∈ templates /\
  FsWrite p (Json pkg)
    ∈ events_of (TemplateGenerator.generate ["home"; "dev"] "basic"
                   (Options.Build "demo" (Some "Ann"))) home /\
  (PackageJson.version pkg = "1.0.0" /\
   PackageJson.author pkg = default "" (Some "Ann") /\
   PackageJson.license pkg = "MIT" /\
   ("basic" <> "fullstack" ->
      p = join ["home"; "dev"] [] ++ ["package.json"]
      /\ PackageJson.name pkg = "demo") /\
   ("basic" = "fullstack" ->
      (p = join ["home"; "dev"] [] ++ ["frontend"; "package.json"]
       /\ PackageJson.name pkg = "demo" +:+ "-frontend") \/
      (p = join ["home"; "dev"] [] ++ ["backend"; "package.json"]
       /\ PackageJson.name pkg = "demo" +:+ "-backend"))).
Proof.
  intros p pkg.
  assert (Ht : "basic" ∈ templates) by (vm_compute; apply list_elem_of_here).
  assert (Hw : FsWrite p (Json pkg)
                 ∈ events_of (TemplateGenerator.generate ["home"; "dev"] "basic"
                                (Options.Build "demo" (Some "Ann"))) home)
    by (vm_compute; do 7 apply list_elem_of_further; apply list_elem_of_here).
  split; [exact Ht|]. split; [exact Hw|].
  exact (manifest_fields ["home"; "dev"] "basic" "demo" (Some "Ann") home
           p pkg Ht Hw).
Defined.

Lemma normalizeString_app_any allow acc l cs :
  normalizeString allow acc (l ++ cs)
  = normalizeString allow (rev (normalizeString allow acc l)) cs.
Proof.
  revert acc. induction l as [|c l IH]; intros acc; simpl.
  - by rewrite rev_involutive.
  - repeat case_decide; try destruct acc; repeat case_decide;
      try destruct allow; apply IH.
Qed.

(** The value of the [bin] entry, "./src/cli.js", joined to the project
    root, is the path of the CLI entry file. *)
Lemma join_bin_target root :
  join root ["./src/cli.js"] = join root ["src"; "cli.js"].
Proof.
  unfold join. rewrite !normalizeString_app_any. reflexivity.
Qed.

(** C9. On a project root that is there and has nothing below it, the
    manifest the cli template writes (package.json) has a [bin] mapping with
    one entry, whose key is the project name and whose value,
    "./src/cli.js", is the path relative to the project root of the CLI
    entry file that the template wrote (src/cli.js). *)
Theorem cli_manifest_bin root projectName author w :
  fresh root (fs w) ->
  let w' := snd (TemplateGenerator.generate root "cli"
                   (Options.Build projectName author) w) in
  exists pkg target,
    fs w' !! join root ["package.json"] = Some (File (Json pkg)) /\
    PackageJson.bin pkg = Some [(projectName, target)] /\
    target = "./src/cli.js" /\
    join root [target] = join root ["src"; "cli.js"] /\
    fs w' !! join root ["src"; "cli.js"] = Some (File (SourceText projectName)).
Proof.
  intros Hfresh w'. subst w'.
  set (options := Options.Build projectName author).
  rewrite generate_script.
  destruct (run_sim root (Script.of_template options "cli") [] w
              (fresh_models _ _ Hfresh) (sim_of_template _ _)) as [Hrun [_ Hbelow]].
  rewrite Hrun. simpl.
  rewrite (join_plain root ["package.json"]),
    (join_plain root ["src"; "cli.js"]) by reflexivity.
  change (segments ["package.json"]) with ["package.json"].
  change (segments ["src"; "cli.js"]) with ["src"; "cli.js"].
  rewrite !Hbelow by discriminate.
  eexists _, _. split; [reflexivity|]. split; [reflexivity|].
  split; [reflexivity|]. split; [|reflexivity].
  by rewrite join_bin_target, (join_plain root ["src"; "cli.js"]).
Qed.

Lemma cli_manifest_bin_witness :
  fresh ["home"; "dev"] (fs home) /\
  exists pkg target,
    fs (snd (TemplateGenerator.generate ["home"; "dev"] "cli"
               (Options.Build "tool" (Some "Ann")) home))
      !! ["home"; "dev"; "package.json"] = Some (File (Json pkg)) /\
    PackageJson.bin pkg = Some [("tool", target)] /\
    target = "./src/cli.js" /\
    join ["home"; "dev"] [target] = ["home"; "dev"; "src"; "cli.js"] /\
    fs (snd (TemplateGenerator.generate ["home"; "dev"] "cli"
               (Options.Build "tool" (Some "Ann")) home))
      !! ["home"; "dev"; "src"; "cli.js"] = Some (File (SourceText "tool")).
Proof.
  split; [apply home_fresh|].
  apply (cli_manifest_bin ["home"; "dev"] "tool" (Some "Ann") home home_fresh).
Defined.

Lemma generate_exact_layout_witness :
  let generated :=
    TemplateGenerator.generate ["home"; "dev"] "api" (Options.Build "demo-app" (Some "")) in
  "api" ∈ templates /\
  fresh ["home"; "dev"] (fs home) /\
  fst (generated home) = Returned tt /\
  created (events_of generated home)
  = [ ["home"; "dev"; "src"]; ["home"; "dev"; "src"; "routes"];
      ["home"; "dev"; "src"; "controllers"]; ["home"; "dev"; "src"; "models"];
      ["home"; "dev"; "src"; "middleware"]; ["home"; "dev"; "utils"];
      ["home"; "dev"; "config"] ].
Proof.
  intros generated.
  assert (Ht : "api" ∈ templates)
    by (vm_compute; do 2 apply list_elem_of_further; apply list_elem_of_here).
  pose proof (generate_exact_layout ["home"; "dev"] "api" "demo-app" (Some "") home
                Ht home_fresh) as (Hret & Hdirs & _).
  split; [exact Ht|]. split; [exact home_fresh|]. split; [exact Hret|exact Hdirs].
Defined.

(** ** Flags and their values *)

Lemma template_flag_dash arg : is_template_flag arg = true -> startsWith arg "-" = true.
Proof.
  unfold is_template_flag. intros H. apply orb_prop in H as [H|H];
    apply bool_decide_eq_true in H; by subst.
Qed.

Lemma author_flag_dash arg : is_author_flag arg = true -> startsWith arg "-" = true.
Proof.
  unfold is_author_flag. intros H. apply orb_prop in H as [H|H];
    apply bool_decide_eq_true in H; by subst.
Qed.

Lemma takes_value_dash arg : takes_value arg = true -> startsWith arg "-" = true.
Proof.
  intros H. apply orb_prop in H as [H|H];
    [by apply template_flag_dash|by apply author_flag_dash].
Qed.

Lemma git_flag_no_value arg : is_git_flag arg = true -> takes_value arg = false.
Proof.
  unfold is_git_flag. intros H. apply orb_prop in H as [H|H];
    apply bool_decide_eq_true in H; by subst.
Qed.

Lemma value_not_flag next :
  not_a_value next = false -> takes_value next = false.
Proof.
  intros Hv. destruct (takes_value next) eqn:E; [|done].
  apply takes_value_dash in E. unfold not_a_value in Hv.
  apply orb_false_elim in Hv as [_ Hv]. congruence.
Qed.

Lemma lacks_value_cons arg args i :
  lacks_value (arg :: args) (S i) <-> lacks_value args i.
Proof. unfold lacks_value. by simpl. Qed.

(** One turn of the loop, by the kind of the token. *)
Lemma parseFlags_step arg rest config :
  parseFlags (arg :: rest) config =
  if takes_value arg then
    match rest with
    | [] => Thrown (Error (requires_value arg))
    | next :: rest' =>
        if not_a_value next then Thrown (Error (requires_value arg))
        else parseFlags rest'
               (if is_template_flag arg
                then set_template (toLowerCase next) config
                else set_author next config)
    end
  else parseFlags rest (if is_git_flag arg then set_gitInit true config else config).
Proof.
  unfold takes_value, requires_value. simpl.
  destruct (is_template_flag arg) eqn:Et; simpl.
  - by destruct rest as [|next rest'].
  - destruct (is_git_flag arg) eqn:Eg.
    + apply git_flag_no_value in Eg. unfold takes_value in Eg.
      rewrite Et in Eg. simpl in Eg. by rewrite Eg.
    + by destruct (is_author_flag arg).
Qed.

(** The loop throws at the first flag that lacks its value. *)
Lemma parseFlags_lacks n : forall args config i,
  length args <= n ->
  lacks_value args i ->
  exists j flag,
    j <= i /\ args !! j = Some flag /\ lacks_value args j /\
    (forall k, k < j -> ~ lacks_value args k) /\
    parseFlags args config = Thrown (Error (requires_value flag)).
Proof.
  induction n as [|n IH]; intros args config i Hlen Hi.
  { destruct args; [|simpl in Hlen; lia]. by destruct Hi as (? & ? & _). }
  destruct args as [|arg rest]; [by destruct Hi as (? & ? & _)|].
  rewrite parseFlags_step. simpl in Hlen.
  destruct (takes_value arg) eqn:Etv.
  - destruct rest as [|next rest'].
    + exists 0, arg. split_and!; [lia|done|by (exists arg)|lia|done].
    + destruct (not_a_value next) eqn:Env.
      * exists 0, arg. split_and!; [lia|done|by (exists arg)|lia|done].
      * assert (Hnf := value_not_flag _ Env).
        destruct i as [|[|i]].
        -- destruct Hi as (f & [= <-] & _ & Hnext). simpl in Hnext. congruence.
        -- destruct Hi as (f & [= <-] & Hf & _). congruence.
        -- apply lacks_value_cons, lacks_value_cons in Hi.
           destruct (IH rest' (if is_template_flag arg
                                then set_template (toLowerCase next) config
                                else set_author next config) i) as
             (j & flag & Hj & Hflag & Hl & Hmin & Hthrow);
             [simpl in Hlen; lia|done|].
           exists (S (S j)), flag. split_and!; [lia|done| | |done].
           ++ by apply lacks_value_cons, lacks_value_cons.
           ++ intros [|[|k]] Hk.
              ** intros (f & [= <-] & _ & Hnext). simpl in Hnext. congruence.
              ** intros (f & [= <-] & Hf & _). congruence.
              ** rewrite !lacks_value_cons. apply Hmin. lia.
  - destruct i as [|i].
    + destruct Hi as (f & [= <-] & Hf & _). congruence.
    + apply lacks_value_cons in Hi.
      destruct (IH rest (if is_git_flag arg then set_gitInit true config else config) i)
        as (j & flag & Hj & Hflag & Hl & Hmin & Hthrow); [lia|done|].
      exists (S j), flag. split_and!; [lia|done| | |done].
      * by apply lacks_value_cons.
      * intros [|k] Hk.
        -- intros (f & [= <-] & Hf & _). congruence.
        -- rewrite lacks_value_cons. apply Hmin. lia.
Qed.

Lemma requires_value_names flag :
  includes (requires_value flag) (long_form flag) = true.
Proof. unfold requires_value, long_form. by destruct (is_template_flag flag). Qed.

Lemma lacks_value_shift pre args i :
  lacks_value (pre ++ args) (length pre + i) <-> lacks_value args i.
Proof.
  induction pre as [|a pre IH]; [done|].
  simpl. by rewrite lacks_value_cons.
Qed.

(** Without a flag that lacks its value the loop returns; it keeps the
    project name, and keeps the template and the author when their flags
    do not occur. *)
Lemma parseFlags_returns n : forall args config,
  length args <= n ->
  (forall i, ~ lacks_value args i) ->
  exists c,
    parseFlags args config = Returned c /\
    Config.projectName c = Config.projectName config /\
    ((forall a, a ∈ args -> is_template_flag a = false) ->
       Config.template c = Config.template config) /\
    ((forall a, a ∈ args -> is_author_flag a = false) ->
       Config.author c = Config.author config).
Proof.
  induction n as [|n IH]; intros args config Hlen Hno.
  { destruct args; [|simpl in Hlen; lia]. by exists config. }
  destruct args as [|arg rest]; [by exists config|].
  rewrite parseFlags_step. simpl in Hlen.
  destruct (takes_value arg) eqn:Etv.
  - destruct rest as [|next rest'].
    { exfalso. apply (Hno 0). by exists arg. }
    destruct (not_a_value next) eqn:Env.
    { exfalso. apply (Hno 0). by exists arg. }
    destruct (IH rest' (if is_template_flag arg
                        then set_template (toLowerCase next) config
                        else set_author next config)) as (c & Hc & Hname & Ht & Ha).
    { simpl in Hlen. lia. }
    { intros i Hi. apply (Hno (S (S i))). by rewrite !lacks_value_cons. }
    exists c. split; [done|]. split; [|split].
    + rewrite Hname. by destruct (is_template_flag arg).
    + intros Hnone. rewrite Ht.
      * rewrite (Hnone arg) by apply list_elem_of_here. done.
      * intros a Ha'. apply Hnone. by do 2 apply list_elem_of_further.
    + intros Hnone. rewrite Ha.
      * unfold takes_value in Etv.
        rewrite (Hnone arg) in Etv by apply list_elem_of_here.
        rewrite orb_false_r in Etv. by rewrite Etv.
      * intros a Ha'. apply Hnone. by do 2 apply list_elem_of_further.
  - destruct (IH rest (if is_git_flag arg then set_gitInit true config else config))
      as (c & Hc & Hname & Ht & Ha).
    { lia. }
    { intros i Hi. apply (Hno (S i)). by rewrite lacks_value_cons. }
    exists c. split; [done|]. split; [|split].
    + rewrite Hname. by destruct (is_git_flag arg).
    + intros Hnone. rewrite Ht.
      * by destruct (is_git_flag arg).
      * intros a Ha'. apply Hnone. by apply list_elem_of_further.
    + intros Hnone. rewrite Ha.
      * by destruct (is_git_flag arg).
      * intros a Ha'. apply Hnone. by apply list_elem_of_further.
Qed.

(** Tokens that are not flags with a value are passed one at a time. *)
Lemma parseFlags_skip pre args : forall config,
  Forall (fun a => takes_value a = false) pre ->
  exists config',
    parseFlags (pre ++ args) config = parseFlags args config' /\
    Config.projectName config' = Config.projectName config /\
    Config.template config' = Config.template config /\
    Config.author config' = Config.author config.
Proof.
  induction pre as [|a pre IH]; intros config Hpre; [by exists config|].
  apply Forall_cons in Hpre as [Ha Hpre].
  change ((a :: pre) ++ args) with (a :: (pre ++ args)).
  rewrite parseFlags_step, Ha.
  destruct (IH (if is_git_flag a then set_gitInit true config else config) Hpre)
    as (config' & Heq & Hn & Ht & Hau).
  exists config'. rewrite Heq, Hn, Ht, Hau. by destruct (is_git_flag a).
Qed.

Lemma find_after_flags pre v rest :
  Forall (fun a => is_flag a = true) pre ->
  is_flag v = false ->
  List.find (fun arg => negb (startsWith arg "-")) (pre ++ v :: rest) = Some v.
Proof.
  intros Hpre Hv. induction Hpre as [|a pre Ha _ IH]; simpl.
  - unfold is_flag in Hv. by rewrite Hv.
  - unfold is_flag in Ha. by rewrite Ha.
Qed.

(** Before the first token that is not a flag, no flag takes a value
    unless it lacks one. *)
Lemma flags_before_take_no_value pre flag args :
  Forall (fun a => is_flag a = true) pre ->
  is_flag flag = true ->
  (forall i, ~ lacks_value (pre ++ flag :: args) i) ->
  Forall (fun a => takes_value a = false) pre.
Proof.
  intros Hpre Hflag. revert Hpre.
  induction pre as [|a pre IH]; intros Hpre Hno; [done|].
  apply Forall_cons in Hpre as [Ha Hpre].
  apply Forall_cons. split.
  - destruct (takes_value a) eqn:E; [|done].
    exfalso. apply (Hno 0). exists a. split; [done|]. split; [done|].
    unfold not_a_value.
    destruct pre as [|b pre]; simpl.
    + unfold is_flag in Hflag. by rewrite Hflag, orb_true_r.
    + apply Forall_cons in Hpre as [Hb _]. unfold is_flag in Hb.
      by rewrite Hb, orb_true_r.
  - apply IH; [done|]. intros i Hi. apply (Hno (S i)).
    by apply lacks_value_cons.
Qed.

(** C8 (amended). If a --template/-t or --author/-a flag occurs whose next
    token is absent or starts with '-', [parse] throws and returns no
    configuration. When the list has no project name (no first token
    without a leading '-', or an empty one) the error is the one for the
    missing project name; otherwise the error names, in its long form, the
    first flag of the list that lacks its value. *)
Theorem parse_flag_without_value args i flag :
  args !! i = Some flag ->
  takes_value flag = true ->
  (args !! S i = None \/
   exists next, args !! S i = Some next /\ startsWith next "-" = true) ->
  (exists e, parse args = Thrown e) /\
  (forall name,
     List.find (fun arg => negb (startsWith arg "-")) args = Some name ->
     truthy name = true ->
     exists j first,
       j <= i /\ args !! j = Some first /\ lacks_value args j /\
       (forall k, k < j -> ~ lacks_value args k) /\
       parse args = Thrown (Error (requires_value first)) /\
       includes (requires_value first) (long_form first) = true) /\
  (forall name,
     List.find (fun arg => negb (startsWith arg "-")) args = Some name ->
     truthy name = false ->
     parse args = Thrown (Error name_required)) /\
  (List.find (fun arg => negb (startsWith arg "-")) args = None ->
   parse args = Thrown (Error name_required)).
Proof.
  intros Hflag Htv Hnext.
  assert (Hl : lacks_value args i).
  { exists flag. split; [done|]. split; [done|].
    destruct Hnext as [->|(next & -> & Hd)]; [done|].
    unfold not_a_value. by rewrite Hd, orb_true_r. }
  unfold parse.
  destruct (List.find _ args) as [name|] eqn:Efind.
  - destruct (truthy name) eqn:Etr.
    + destruct (parseFlags_lacks (length args) args
                  (Config.Build name "basic" false "") i (le_n _) Hl)
        as (j & first & Hj & Hfirst & Hlj & Hmin & Hthrow).
      rewrite Hthrow. split_and!; [by eexists| | |done].
      * intros ? [= <-] _. exists j, first.
        split_and!; try done. apply requires_value_names.
      * intros ? [= <-] ?. congruence.
    + split_and!; [by eexists| |by intros ? [= <-]|done].
      intros ? [= <-] ?. congruence.
  - split_and!; [by eexists|done|done|done].
Qed.

Lemma parse_flag_without_value_witness :
  ["app"; "-a"; "-t"] !! 2 = Some "-t" /\
  takes_value "-t" = true /\
  ["app"; "-a"; "-t"] !! 3 = @None string /\
  exists e, parse ["app"; "-a"; "-t"] = Thrown e.
Proof.
  split; [reflexivity|]. split; [reflexivity|]. split; [reflexivity|].
  exact (proj1 (parse_flag_without_value ["app"; "-a"; "-t"] 2 "-t"
                  eq_refl eq_refl (or_introl eq_refl))).
Defined.

Lemma parse_flag_without_value_counterexample :
  ["-t"] !! 0 = Some "-t" /\ ["-t"] !! 1 = @None string /\
  parse ["-t"] = Thrown (Error name_required) /\
  includes name_required "-t" = false /\
  includes name_required "--template" = false /\
  parse ["app"; "-a"; "-t"] = Thrown (Error author_requires_value) /\
  includes author_requires_value "-t" = false /\
  includes author_requires_value "--template" = false /\
  parse ["app"; "-a"; ""; "-t"] = Thrown (Error author_requires_value).
Proof. by vm_compute. Qed.

(** C10 (amended). Let the first token of the list that does not start
    with '-' be non-empty and stand right after a --template/-t or
    --author/-a flag, and let no flag of the list lack its value. Then
    [parse] returns a configuration, with no missing-project-name error,
    whose project name is that token. The same token is the value of the
    flag: the author as it is, the template in lower case, unless the same
    flag occurs again later in the list. *)
Theorem parse_value_token_is_project_name pre flag v rest :
  Forall (fun a => is_flag a = true) pre ->
  takes_value flag = true ->
  is_flag v = false ->
  truthy v = true ->
  (forall i, ~ lacks_value (pre ++ flag :: v :: rest) i) ->
  exists config,
    parse (pre ++ flag :: v :: rest) = Returned config /\
    Config.projectName config = v /\
    (is_template_flag flag = true ->
     (forall a, a ∈ rest -> is_template_flag a = false) ->
     Config.template config = toLowerCase v) /\
    (is_author_flag flag = true ->
     (forall a, a ∈ rest -> is_author_flag a = false) ->
     Config.author config = v).
Proof.
  intros Hpre Hflag Hv Htruthy Hno.
  assert (Hfd : is_flag flag = true) by by apply takes_value_dash.
  unfold parse.
  assert (Hfind : List.find (fun arg => negb (startsWith arg "-"))
                    (pre ++ flag :: v :: rest) = Some v).
  { change (flag :: v :: rest) with ([flag] ++ v :: rest).
    rewrite app_assoc. apply find_after_flags; [|done].
    apply Forall_app. split; [done|by apply Forall_singleton]. }
  rewrite Hfind, Htruthy.
  destruct (parseFlags_skip pre (flag :: v :: rest)
              (Config.Build v "basic" false "")
              (flags_before_take_no_value pre flag (v :: rest) Hpre Hfd Hno))
    as (c0 & -> & Hn0 & Ht0 & Ha0).
  rewrite parseFlags_step, Hflag.
  assert (Hval : not_a_value v = false).
  { unfold not_a_value. unfold is_flag in Hv. by rewrite Htruthy, Hv. }
  rewrite Hval.
  destruct (parseFlags_returns (length rest) rest
              (if is_template_flag flag
               then set_template (toLowerCase v) c0 else set_author v c0)
              (le_n _)) as (c & Hc & Hn & Ht & Ha).
  { intros i Hi. apply (Hno (length pre + S (S i))).
    by apply lacks_value_shift, lacks_value_cons, lacks_value_cons. }
  exists c. split; [done|]. split; [|split].
  - rewrite Hn. by destruct (is_template_flag flag).
  - intros Hf Hnone. rewrite (Ht Hnone), Hf. done.
  - intros Hf Hnone. rewrite (Ha Hnone).
    destruct (is_template_flag flag) eqn:E; [|done].
    exfalso. unfold is_template_flag, is_author_flag in *.
    apply orb_prop in E as [E|E]; apply bool_decide_eq_true in E; by subst.
Qed.

Lemma parse_value_token_is_project_name_witness :
  Forall (fun a => is_flag a = true) [] /\
  takes_value "--template" = true /\
  is_flag "web" = false /\
  truthy "web" = true /\
  (forall i, ~ lacks_value ["--template"; "web"] i) /\
  exists config,
    parse ["--template"; "web"] = Returned config /\
    Config.projectName config = "web" /\
    Config.template config = "web".
Proof.
  assert (Hno : forall i, ~ lacks_value ["--template"; "web"] i).
  { intros [|[|i]] (f & Hf & Htv & Hnext); simpl in *; try done;
      by injection Hf as <-. }
  split; [constructor|]. split; [reflexivity|]. split; [reflexivity|].
  split; [reflexivity|]. split; [exact Hno|].
  destruct (parse_value_token_is_project_name [] "--template" "web" []
              (Forall_nil_2 _) eq_refl eq_refl eq_refl Hno)
    as (config & Hparse & Hname & Htemplate & _).
  exists config. split; [exact Hparse|]. split; [exact Hname|].
  apply Htemplate; [reflexivity|]. intros a Ha. by apply elem_of_nil in Ha.
Defined.

Lemma parse_value_token_counterexample :
  parse ["-t"; "WEB"] = Returned (Config.Build "WEB" "web" false "") /\
  "web" <> "WEB" /\
  parse ["-t"; "web"; "-a"] = Thrown (Error author_requires_value) /\
  parse ["-t"; "web"; "-t"; "api"] = Returned (Config.Build "web" "api" false "") /\
  parse ["-t"; ""] = Thrown (Error name_required).
Proof.
  split; [reflexivity|]. split; [discriminate|].
  split; [reflexivity|]. split; reflexivity.
Qed.

(** ** Validation *)

(** A name that fails the pattern is rejected before anything else is
    looked at. *)
Lemma validateConfig_rejects_name config w :
  nameRegex_test (Config.projectName config) = false ->
  validateConfig config w = (Thrown (Error invalid_name), w).
Proof. unfold validateConfig. by intros ->. Qed.

(** C5. [validateConfig] checks the name pattern, then that the target
    directory does not exist, then the template, and throws the error of
    the first check that fails, leaving the world as it was: a name that
    violates the pattern gives the invalid-name error whatever the
    directory and the template are (in particular for an unknown template);
    a valid name whose directory exists gives the directory-exists error
    whatever the template is; only then an unknown template gives the
    invalid-template error. *)
Theorem validateConfig_order config w :
  let projectName := Config.projectName config in
  let template := Config.template config in
  let projectPath := join (cwd w) [projectName] in
  (nameRegex_test projectName = false ->
   validateConfig config w = (Thrown (Error invalid_name), w)) /\
  (nameRegex_test projectName = true ->
   is_Some (Fs.node_at (fs w) projectPath) ->
   validateConfig config w = (Thrown (Error (directory_exists projectName)), w)) /\
  (nameRegex_test projectName = true ->
   Fs.node_at (fs w) projectPath = None ->
   template ∉ validTemplates ->
   validateConfig config w = (Thrown (Error (invalid_template template)), w)) /\
  (nameRegex_test projectName = true ->
   Fs.node_at (fs w) projectPath = None ->
   template ∈ validTemplates ->
   validateConfig config w = (Returned tt, w)).
Proof.
  intros projectName template projectPath.
  subst projectName template projectPath.
  unfold validateConfig, bind, Process.cwd, Fs.existsSync, throw, ret.
  split_and!.
  - by intros ->.
  - intros -> Hex. cbn [negb]. by rewrite bool_decide_eq_true_2.
  - intros -> Hnone Hnot. cbn [negb].
    rewrite bool_decide_eq_false_2 by (rewrite Hnone; by intros [? ?]).
    by rewrite (bool_decide_eq_false_2 _ Hnot).
  - intros -> Hnone Hin. cbn [negb].
    rewrite bool_decide_eq_false_2 by (rewrite Hnone; by intros [? ?]).
    by rewrite (bool_decide_eq_true_2 _ Hin).
Qed.

Lemma validateConfig_order_witness :
  nameRegex_test "x@y" = false /\
  ("nope" ∉ validTemplates) /\
  validateConfig (Config.Build "x@y" "nope" false "") home
  = (Thrown (Error invalid_name), home).
Proof.
  split; [reflexivity|].
  split; [apply (bool_decide_unpack _); vm_compute; exact I|].
  exact (proj1 (validateConfig_order (Config.Build "x@y" "nope" false "") home)
           eq_refl).
Defined.

(** ** The run *)

Lemma all_chars_outside s : has_char_outside s -> all_chars name_char s = false.
Proof.
  intros (a & Hin & Ha). induction s as [|b s IH]; simpl in *.
  - by apply elem_of_nil in Hin.
  - apply elem_of_cons in Hin as [->|Hin].
    + by rewrite Ha.
    + rewrite IH by done. apply andb_false_r.
Qed.

Lemma nameRegex_test_outside s : has_char_outside s -> nameRegex_test s = false.
Proof.
  intros H. unfold nameRegex_test. rewrite all_chars_outside by done.
  apply andb_false_r.
Qed.

(** [run], stage by stage. *)
Lemma run_stages sub args w :
  run sub args w =
  if help_requested args then (Returned 0, emit HelpShown w)
  else
    match ArgumentParser.parse args with
    | Thrown e => (Returned 1, emit (LogError (fatal (message e))) w)
    | Returned config =>
        match validateConfig config w with
        | (Thrown e, w1) => (Returned 1, emit (LogError (fatal (message e))) w1)
        | (Returned _, w1) =>
            match createProject sub config w1 with
            | (Thrown e, w2) => (Returned 1, emit (LogError (fatal (message e))) w2)
            | (Returned _, w2) =>
                (Returned 0,
                 fold_left (fun w e => emit e w)
                   ([ LogSuccess (created_successfully (Config.projectName config));
                      LogInfo (nl +:+ "Next steps:");
                      LogInfo ("  cd " +:+ Config.projectName config) ]
                    ++ (if bool_decide (Config.template config = "web")
                           || bool_decide (Config.template config = "api")
                        then [LogInfo "  npm install"; LogInfo "  npm start"]
                        else [LogInfo "  Start coding!"]))
                   w2)
            end
        end
    end.
Proof.
  unfold run, try_catch, bind, lift, showHelp, ret.
  destruct (help_requested args); [done|].
  destruct (ArgumentParser.parse args) as [config|e]; [|done].
  destruct (validateConfig config w) as [[[]|e] w1]; [|done].
  destruct (createProject sub config w1) as [[[]|e] w2]; [|done].
  simpl. by destruct (bool_decide _ || bool_decide _).
Qed.

(** C6 (amended). When help is not requested and the arguments parse to a
    configuration whose project name has a character outside
    [A-Za-z0-9_-], the run fails with the invalid-name error and exit code
    1 before any directory is created or any file is written: the error
    line is its only effect, the file system and the working directory
    are what they were. *)
Theorem run_invalid_name sub args config w :
  help_requested args = false ->
  ArgumentParser.parse args = Returned config ->
  has_char_outside (Config.projectName config) ->
  fst (run sub args w) = Returned 1 /\
  events_of (run sub args) w = [LogError (fatal invalid_name)] /\
  fs (snd (run sub args w)) = fs w /\
  cwd (snd (run sub args w)) = cwd w.
Proof.
  intros Hhelp Hparse Hname.
  apply nameRegex_test_outside in Hname.
  rewrite (events_of_app _ w [LogError (fatal invalid_name)]);
    rewrite run_stages, Hhelp, Hparse,
      (validateConfig_rejects_name config w Hname); done.
Qed.

Lemma run_invalid_name_witness :
  help_requested ["x@y"] = false /\
  ArgumentParser.parse ["x@y"] = Returned (Config.Build "x@y" "basic" false "") /\
  has_char_outside "x@y" /\
  fst (run no_git ["x@y"] home) = Returned 1 /\
  events_of (run no_git ["x@y"]) home = [LogError (fatal invalid_name)] /\
  fs (snd (run no_git ["x@y"] home)) = fs home /\
  cwd (snd (run no_git ["x@y"] home)) = cwd home.
Proof.
  assert (Hout : has_char_outside "x@y").
  { exists "@"%char. split; [|reflexivity].
    apply list_elem_of_further, list_elem_of_here. }
  split; [reflexivity|]. split; [reflexivity|]. split; [exact Hout|].
  exact (run_invalid_name no_git ["x@y"] (Config.Build "x@y" "basic" false "") home
           eq_refl eq_refl Hout).
Defined.

Lemma run_invalid_name_counterexample :
  has_char_outside "x@y" /\
  List.find (fun arg => negb (startsWith arg "-")) ["x@y"; "-t"] = Some "x@y" /\
  run no_git ["x@y"; "-t"] home
  = (Returned 1, emit (LogError (fatal template_requires_value)) home) /\
  template_requires_value <> invalid_name /\
  run no_git ["x@y"; "--help"] home = (Returned 0, emit HelpShown home).
Proof.
  split.
  { exists "@"%char. split; [|reflexivity].
    apply list_elem_of_further, list_elem_of_here. }
  split; [reflexivity|]. split; [reflexivity|]. split; [discriminate|reflexivity].
Qed.

(** ** Git initialisation *)

(** [initGit] always returns. What it adds to the log has no error line,
    and a command that failed is followed at once by the warning, which
    ends it. *)
Lemma initGit_returns sub projectPath projectName w :
  fst (initGit sub projectPath projectName w) = Returned tt /\
  exists evs,
    log (snd (initGit sub projectPath projectName w)) = log w ++ evs /\
    (forall msg, LogError msg ∉ evs) /\
    (forall command, Exec command false ∈ evs ->
       exists before, evs = before ++ [Exec command false; LogWarning git_failed]).
Proof.
  unfold initGit, try_catch, bind, Logger.info, Logger.success, Logger.warning,
    Process.cwd, Process.chdir, ChildProcess.execSync.
  simpl.
  destruct (Fs.node_at (fs w) projectPath) as [[|c]|]; simpl.
  2,3: (split; [done|]; eexists; rewrite <- !app_assoc; split; [done|];
        split; [intros msg H|intros command H];
        repeat (apply elem_of_cons in H as [H|H]; [discriminate|]);
        by apply elem_of_nil in H).
  destruct (sub git_init projectPath (fs w)) as [[] f1]; simpl.
  2: { split; [done|]. eexists. rewrite <- !app_assoc. split; [done|].
       split; [intros msg H|intros command H];
         repeat (apply elem_of_cons in H as [H|H];
                 [try discriminate; try (injection H as <-; split_list)|]);
         by apply elem_of_nil in H. }
  destruct (sub git_add projectPath f1) as [[] f2]; simpl.
  2: { split; [done|]. eexists. rewrite <- !app_assoc. split; [done|].
       split; [intros msg H|intros command H];
         repeat (apply elem_of_cons in H as [H|H];
                 [try discriminate; try (injection H as <-; split_list)|]);
         by apply elem_of_nil in H. }
  destruct (sub git_commit projectPath f2) as [[] f3]; simpl.
  2: { split; [done|]. eexists. rewrite <- !app_assoc. split; [done|].
       split; [intros msg H|intros command H];
         repeat (apply elem_of_cons in H as [H|H];
                 [try discriminate; try (injection H as <-; split_list)|]);
         by apply elem_of_nil in H. }
  destruct (Fs.node_at f3 (cwd w)) as [[|c]|]; simpl.
  all: split; [done|]; eexists; rewrite <- !app_assoc; split; [done|];
    split; [intros msg H|intros command H];
    repeat (apply elem_of_cons in H as [H|H]; [discriminate|]);
    by apply elem_of_nil in H.
Qed.

Lemma mkdirSync_log p w :
  exists evs,
    log (snd (Fs.mkdirSync p w)) = log w ++ evs /\ Forall fs_event evs.
Proof.
  unfold Fs.mkdirSync. destruct (Fs.mkdirp _ _); simpl.
  - exists [FsMkdir p]. split; [done|]. by repeat constructor.
  - exists []. by rewrite app_nil_r.
Qed.

Lemma generate_log root template options w :
  exists evs,
    log (snd (TemplateGenerator.generate root template options w)) = log w ++ evs /\
    Forall fs_event evs.
Proof.
  rewrite generate_script.
  destruct (run_log root _ w (plain_of_template options template))
    as (acted & _ & Hlog & _).
  eexists. split; [exact Hlog|].
  apply Forall_fmap, Forall_forall. by intros [].
Qed.

Lemma validateConfig_world config w : snd (validateConfig config w) = w.
Proof.
  unfold validateConfig, bind, Process.cwd, Fs.existsSync, throw, ret.
  destruct (negb _); [done|]. simpl.
  destruct (bool_decide _); [done|]. by destruct (negb _).
Qed.

(** What [createProject] adds to the log: its announcement, file-system
    events, then, when the files are all written, the events of [initGit]
    if it is asked for and the closing success line. *)
Lemma createProject_log sub config w :
  exists made,
    Forall fs_event made /\
    ((exists e,
        fst (createProject sub config w) = Thrown e /\
        exists announce,
          log (snd (createProject sub config w)) = log w ++ LogInfo announce :: made) \/
     (fst (createProject sub config w) = Returned tt /\
      exists announce git,
        log (snd (createProject sub config w))
        = log w ++ LogInfo announce :: made ++ git ++ [LogSuccess structure_created] /\
        (Config.gitInit config = false -> git = []) /\
        (forall msg, LogError msg ∉ git) /\
        (forall command, Exec command false ∈ git ->
           exists before, git = before ++ [Exec command false; LogWarning git_failed]))).
Proof.
  unfold createProject, bind, Process.cwd, Logger.info, Logger.success, ret. simpl.
  set (w0 := emit _ w).
  set (projectPath := join (cwd w) [Config.projectName config]).
  destruct (mkdirSync_log projectPath w0) as (evs1 & Hlog1 & Hfs1).
  destruct (Fs.mkdirSync projectPath w0) as [[[]|e] w1]; simpl in *.
  2: { exists evs1. split; [done|]. left. exists e. split; [done|].
       eexists. rewrite Hlog1. unfold w0. simpl. by rewrite <- app_assoc. }
  set (options := Options.Build _ _).
  destruct (generate_log projectPath (Config.template config) options w1)
    as (evs2 & Hlog2 & Hfs2).
  destruct (TemplateGenerator.generate projectPath (Config.template config) options w1)
    as [[[]|e] w2]; simpl in *.
  2: { exists (evs1 ++ evs2). split; [by apply Forall_app|]. left.
       exists e. split; [done|]. eexists.
       rewrite Hlog2, Hlog1. unfold w0. simpl. by rewrite <- !app_assoc. }
  exists (evs1 ++ evs2). split; [by apply Forall_app|]. right.
  destruct (Config.gitInit config).
  - destruct (initGit_returns sub projectPath (Config.projectName config) w2)
      as (Hret & git & Hlog3 & Hnoerr & Hfail).
    destruct (initGit sub projectPath (Config.projectName config) w2)
      as [[[]|e] w3]; simpl in *; [|done].
    split; [done|]. eexists _, git. split_and!; [|done|done|done].
    rewrite Hlog3, Hlog2, Hlog1. unfold w0. simpl. by rewrite <- !app_assoc.
  - split; [done|]. eexists _, []. split_and!; [|done|..].
    + simpl. rewrite Hlog2, Hlog1. unfold w0. simpl. by rewrite <- !app_assoc.
    + intros msg H. by apply elem_of_nil in H.
    + intros command H. by apply elem_of_nil in H.
Qed.

Lemma fs_event_not_exec evs command ok :
  Forall fs_event evs -> Exec command ok ∉ evs.
Proof.
  intros Hall Hin. rewrite Forall_forall in Hall. by apply (Hall _ Hin).
Qed.

Lemma fs_event_not_error evs msg :
  Forall fs_event evs -> LogError msg ∉ evs.
Proof.
  intros Hall Hin. rewrite Forall_forall in Hall. by apply (Hall _ Hin).
Qed.

Lemma log_fold_emit evs : forall w,
  log (fold_left (fun w e => emit e w) evs w) = log w ++ evs.
Proof.
  induction evs as [|e evs IH]; intros w; simpl.
  - by rewrite app_nil_r.
  - rewrite IH. simpl. by rewrite <- app_assoc.
Qed.

(** The events of a run: the help banner; or an error line after at most
    an announcement and file-system events; or a project made, with the
    events of [initGit] between the files and the success report. *)
Lemma run_events sub args w :
  (fst (run sub args w) = Returned 0 /\ events_of (run sub args) w = [HelpShown]) \/
  (fst (run sub args w) = Returned 1 /\
   exists pre msg,
     events_of (run sub args) w = pre ++ [LogError msg] /\
     (forall command ok, Exec command ok ∉ pre)) \/
  (exists config announce made git,
     ArgumentParser.parse args = Returned config /\
     fst (run sub args w) = Returned 0 /\
     events_of (run sub args) w
     = LogInfo announce :: made ++ git ++ [LogSuccess structure_created]
       ++ next_steps config /\
     Forall fs_event made /\
     (Config.gitInit config = false -> git = []) /\
     (forall msg, LogError msg ∉ git) /\
     (forall command, Exec command false ∈ git ->
        exists before, git = before ++ [Exec command false; LogWarning git_failed])).
Proof.
  unfold events_of. rewrite run_stages.
  destruct (help_requested args).
  { left. simpl. by rewrite drop_app_length. }
  right.
  destruct (ArgumentParser.parse args) as [config|e].
  2: { left. simpl. rewrite drop_app_length. split; [done|].
       exists [], (fatal (message e)). split; [done|].
       intros ?? H. by apply elem_of_nil in H. }
  pose proof (validateConfig_world config w) as Hw.
  destruct (validateConfig config w) as [[[]|e] w1]; simpl in Hw; subst w1.
  2: { left. simpl. rewrite drop_app_length. split; [done|].
       exists [], (fatal (message e)). split; [done|].
       intros ?? H. by apply elem_of_nil in H. }
  destruct (createProject_log sub config w) as (made & Hmade & Hcases).
  destruct (createProject sub config w) as [[[]|e] w2]; cbn [fst snd] in *.
  - right. destruct Hcases as [(e & He & _)|(_ & announce & git & Hlog & Hgit)];
      [done|].
    exists config, announce, made, git. split; [done|]. split; [done|].
    split; [|by split].
    rewrite log_fold_emit, Hlog.
    fold (next_steps config).
    rewrite <- !app_assoc. rewrite drop_app_length. simpl.
    by rewrite <- !app_assoc.
  - left. destruct Hcases as [(e' & _ & announce & Hlog)|(He & _)]; [|done].
    split; [done|]. exists (LogInfo announce :: made), (fatal (message e)).
    simpl. rewrite Hlog. split.
    + rewrite <- app_assoc. by rewrite drop_app_length.
    + intros command ok H. apply elem_of_cons in H as [H|H]; [done|].
      by apply (fs_event_not_exec made command ok).
Qed.

(** C7. If a git command of the version-control initialisation fails
    during a run, the failure is caught where it happens: the warning
    follows the failed command at once, the run goes on to the
    project-structure line and the success report, no error line is
    printed and the exit code is 0. Such a run had [gitInit] set. *)
Theorem git_failure_is_not_fatal sub args w command :
  Exec command false ∈ events_of (run sub args) w ->
  exists config before,
    ArgumentParser.parse args = Returned config /\
    Config.gitInit config = true /\
    fst (run sub args w) = Returned 0 /\
    events_of (run sub args) w
    = before ++ [Exec command false; LogWarning git_failed;
                 LogSuccess structure_created] ++ next_steps config /\
    (forall msg, LogError msg ∉ events_of (run sub args) w).
Proof.
  intros Hin.
  destruct (run_events sub args w)
    as [[_ Hev]|[(_ & pre & msg & Hev & Hpre)
       |(config & announce & made & git & Hparse & Hret & Hev & Hmade
         & Hnogit & Hnoerr & Hfail)]];
    rewrite Hev in Hin |- *.
  - apply elem_of_cons in Hin as [Hin|Hin]; [done|]. by apply elem_of_nil in Hin.
  - apply elem_of_app in Hin as [Hin|Hin]; [by apply Hpre in Hin|].
    apply elem_of_cons in Hin as [Hin|Hin]; [done|]. by apply elem_of_nil in Hin.
  - assert (Hgit : Exec command false ∈ git).
    { apply elem_of_cons in Hin as [Hin|Hin]; [done|].
      apply elem_of_app in Hin as [Hin|Hin];
        [by apply (fs_event_not_exec made) in Hin|].
      apply elem_of_app in Hin as [Hin|Hin]; [done|].
      exfalso. unfold next_steps in Hin. simpl in Hin.
      destruct (bool_decide _ || bool_decide _);
        repeat (apply elem_of_cons in Hin as [Hin|Hin]; [discriminate|]);
        by apply elem_of_nil in Hin. }
    destruct (Hfail command Hgit) as (before & ->).
    exists config, (LogInfo announce :: made ++ before).
    split; [done|]. split.
    { destruct (Config.gitInit config); [done|].
      specialize (Hnogit eq_refl). by destruct before. }
    split; [done|]. split.
    { simpl. by rewrite <- !app_assoc. }
    intros msg H.
    apply elem_of_cons in H as [H|H]; [done|].
    apply elem_of_app in H as [H|H]; [by apply (fs_event_not_error made) in H|].
    apply elem_of_app in H as [H|H]; [by apply Hnoerr in H|].
    unfold next_steps in H. simpl in H.
    destruct (bool_decide _ || bool_decide _);
      repeat (apply elem_of_cons in H as [H|H]; [discriminate|]);
      by apply elem_of_nil in H.
Qed.

Lemma git_failure_is_not_fatal_witness :
  Exec git_init false ∈ events_of (run no_git ["demo"; "--git"]) home /\
  exists config before,
    ArgumentParser.parse ["demo"; "--git"] = Returned config /\
    Config.gitInit config = true /\
    fst (run no_git ["demo"; "--git"] home) = Returned 0 /\
    events_of (run no_git ["demo"; "--git"]) home
    = before ++ [Exec git_init false; LogWarning git_failed;
                 LogSuccess structure_created] ++ next_steps config /\
    (forall msg, LogError msg ∉ events_of (run no_git ["demo"; "--git"]) home).
Proof.
  assert (H : Exec git_init false ∈ events_of (run no_git ["demo"; "--git"]) home)
    by (apply (bool_decide_unpack _); vm_compute; exact I).
  split; [exact H|].
  exact (git_failure_is_not_fatal no_git ["demo"; "--git"] home git_init H).
Defined.

(** When a git command fails, [initGit] leaves the process in the project
    directory: the [catch] does not go back. *)
Lemma initGit_failure_cwd sub projectPath projectName w command :
  Exec command false ∈ events_of (initGit sub projectPath projectName) w ->
  cwd (snd (initGit sub projectPath projectName w)) = projectPath.
Proof.
  unfold events_of, initGit, try_catch, bind, Logger.info, Logger.success,
    Logger.warning, Process.cwd, Process.chdir, ChildProcess.execSync.
  simpl.
  destruct (Fs.node_at (fs w) projectPath) as [[|c]|]; simpl.
  2,3: (rewrite <- !app_assoc, drop_app_length; intros H;
        repeat (apply elem_of_cons in H as [H|H]; [discriminate|]);
        by apply elem_of_nil in H).
  destruct (sub git_init projectPath (fs w)) as [[] f1]; simpl; [|done].
  destruct (sub git_add projectPath f1) as [[] f2]; simpl; [|done].
  destruct (sub git_commit projectPath f2) as [[] f3]; simpl; [|done].
  destruct (Fs.node_at f3 (cwd w)) as [[|c]|]; simpl; [|done..].
  rewrite <- !app_assoc, drop_app_length; intros H;
    repeat (apply elem_of_cons in H as [H|H]; [discriminate|]);
    by apply elem_of_nil in H.
Qed.

(** C2 (the code at the failing input). On a machine where git fails, the
    run of [create-proj demo --git] from /home/dev ends with exit code 0
    and the working directory /home/dev/demo: [initGit] changed into the
    project directory and its [catch] did not change back. Where git
    works, the same run ends in /home/dev. *)
Theorem initGit_failure_does_not_restore_cwd :
  cwd home = ["home"; "dev"] /\
  fst (run no_git ["demo"; "--git"] home) = Returned 0 /\
  cwd (snd (run no_git ["demo"; "--git"] home)) = ["home"; "dev"; "demo"] /\
  cwd (snd (run quiet_git ["demo"; "--git"] home)) = ["home"; "dev"].
Proof. by vm_compute. Qed.

(** * Further properties

    What the code does beyond the sentences above: the parser on every
    argument list, the generator on every file system, and whole runs. *)

(** ** Paths and names *)

Lemma normalizeString_result_plain cs : forall acc,
  forallb Script.is_plain acc = true ->
  forallb Script.is_plain (normalizeString false acc cs) = true.
Proof.
  induction cs as [|c cs IH]; intros acc Hacc; simpl.
  - rewrite forallb_forall in *. intros x Hx. apply Hacc. by apply in_rev.
  - repeat case_decide; subst; try (by apply IH).
    + destruct acc as [|top acc']; [by apply IH|].
      simpl in Hacc. apply andb_prop in Hacc as [Htop Hacc'].
      case_decide; [by apply IH; simpl; rewrite Htop|by apply IH].
    + apply IH. simpl. rewrite Hacc, andb_true_r.
      unfold Script.is_plain. by rewrite !bool_decide_eq_false_2.
Qed.

(** [path.join] gives a path in normal form: joining it with nothing
    again changes nothing. *)
Lemma join_normal base args : join (join base args) [] = join base args.
Proof.
  unfold join at 1. rewrite app_nil_r.
  rewrite normalizeString_plain; [done|].
  by apply normalizeString_result_plain.
Qed.

Lemma string_app_assoc (a b c : string) : (a +:+ b) +:+ c = a +:+ (b +:+ c).
Proof.
  induction a as [|x a IH]; [done|].
  change (String x ((a +:+ b) +:+ c) = String x (a +:+ (b +:+ c))).
  by rewrite IH.
Qed.

Lemma string_app_nil_r (s : string) : s +:+ "" = s.
Proof.
  induction s as [|x s IH]; [done|].
  change (String x (s +:+ "") = String x s). by rewrite IH.
Qed.

Lemma rev_app_app s : forall t, String.rev_app s t = String.rev s +:+ t.
Proof.
  induction s as [|a s IH]; intros t; [done|].
  unfold String.rev. cbn [String.rev_app].
  rewrite (IH (String a t)), (IH (String a "")), string_app_assoc. done.
Qed.

Lemma split_aux_no_sep sep s : forall cur,
  all_chars (fun a => negb (bool_decide (a = sep))) s = true ->
  split_aux sep cur s = [String.rev cur +:+ s].
Proof.
  induction s as [|a s IH]; intros cur Hs.
  - simpl. by rewrite string_app_nil_r.
  - simpl in Hs. apply andb_prop in Hs as [Ha Hs].
    apply negb_true_iff, bool_decide_eq_false in Ha.
    cbn [split_aux]. case_decide; [done|]. rewrite IH by done.
    unfold String.rev at 1. cbn [String.rev_app].
    by rewrite rev_app_app, string_app_assoc.
Qed.

Lemma all_chars_impl (f g : ascii -> bool) s :
  (forall a, f a = true -> g a = true) ->
  all_chars f s = true -> all_chars g s = true.
Proof.
  intros Hfg. induction s as [|a s IH]; [done|]. simpl.
  intros H. apply andb_prop in H as [Ha Hs]. by rewrite (Hfg a Ha), IH.
Qed.

Lemma name_char_not_slash a : name_char a = true -> negb (bool_decide (a = slash)) = true.
Proof. by destruct a as [[] [] [] [] [] [] [] []]. Qed.

Lemma name_char_not_dot a : name_char a = true -> a <> "."%char.
Proof. by destruct a as [[] [] [] [] [] [] [] []]. Qed.

(** A name that passes the pattern is one path component, and not a dot
    component. *)
Lemma valid_name_component name :
  nameRegex_test name = true ->
  segments [name] = [name] /\ Script.is_plain name = true.
Proof.
  unfold nameRegex_test. intros H. apply andb_prop in H as [Hne Hall].
  split.
  - unfold segments, JsString.split. simpl. rewrite app_nil_r.
    apply split_aux_no_sep. eapply all_chars_impl; [|exact Hall].
    apply name_char_not_slash.
  - destruct name as [|a name]; [done|]. simpl in Hall.
    apply andb_prop in Hall as [Ha Hall]. apply name_char_not_dot in Ha.
    unfold Script.is_plain.
    rewrite !bool_decide_eq_false_2; [done|..]; intros [= ? ?]; done.
Qed.

(** X8. A project name the name pattern accepts is one path component:
    [path.join(cwd, name)] is the working directory (in normal form) with
    the name appended, so the project directory is a child of the working
    directory and no accepted name can lead out of it. *)
Theorem valid_name_stays_in_cwd name here :
  nameRegex_test name = true ->
  join here [name] = join here [] ++ [name] /\
  Fs.parent (join here [name]) = join here [] /\
  inside (join here []) (join here [name]).
Proof.
  intros Hname. destruct (valid_name_component name Hname) as [Hseg Hplain].
  assert (Hj : join here [name] = join here [] ++ [name]).
  { rewrite join_plain; rewrite Hseg; [done|]. simpl. by rewrite Hplain. }
  split; [done|]. rewrite Hj. split.
  - unfold Fs.parent. apply removelast_last.
  - by exists [name].
Qed.

Lemma valid_name_stays_in_cwd_witness :
  nameRegex_test "my-app_2" = true /\
  join ["home"; "dev"; ".."; "work"] ["my-app_2"] = ["home"; "work"] ++ ["my-app_2"] /\
  Fs.parent (join ["home"; "dev"; ".."; "work"] ["my-app_2"]) = ["home"; "work"] /\
  inside ["home"; "work"] (join ["home"; "dev"; ".."; "work"] ["my-app_2"]).
Proof.
  split; [reflexivity|].
  exact (valid_name_stays_in_cwd "my-app_2" ["home"; "dev"; ".."; "work"] eq_refl).
Defined.

(** ** The lines of the logger *)

Lemma string_length_app (a b : string) :
  String.length (a +:+ b) = String.length a + String.length b.
Proof.
  induction a as [|x a IH]; [done|].
  change (S (String.length (a +:+ b)) = S (String.length a + String.length b)).
  by rewrite IH.
Qed.

Lemma string_app_inv_tail (a b t : string) : a +:+ t = b +:+ t -> a = b.
Proof.
  revert b. induction a as [|x a IH]; intros [|y b] H; [done| | |].
  - apply (f_equal String.length) in H.
    rewrite !string_length_app in H. cbn in H. lia.
  - apply (f_equal String.length) in H.
    rewrite !string_length_app in H. cbn in H. lia.
  - change (String x (a +:+ t) = String y (b +:+ t)) in H.
    injection H as -> H. by rewrite (IH b H).
Qed.

Lemma colored_inj code1 code2 m1 m2 :
  String.length code1 = 2 -> String.length code2 = 2 ->
  Console.colored code1 m1 = Console.colored code2 m2 ->
  code1 = code2 /\ m1 = m2.
Proof.
  intros H1 H2.
  destruct code1 as [|a1 [|b1 [|? ?]]]; try done.
  destruct code2 as [|a2 [|b2 [|? ?]]]; try done.
  unfold Console.colored. cbn. intros [= -> -> H].
  split; [done|].
  by apply (string_app_inv_tail m1 m2 (Console.esc +:+ "[0m")).
Qed.

(** X18. The lines of the logger can be told apart: two logger calls that
    print the same text are the same method with the same message. So the
    colour codes of [info], [success], [error] and [warning] never make two
    different messages, or the same message at two levels, look alike. *)
Theorem logger_lines_distinct e1 e2 :
  is_Some (Console.line e1) ->
  Console.line e1 = Console.line e2 ->
  e1 = e2.
Proof.
  intros [x Hx] Heq.
  destruct e1 as [m1|m1|m1|m1| | | | |]; try done;
    destruct e2 as [m2|m2|m2|m2| | | | |]; try done;
    apply (f_equal (from_option snd "")) in Heq;
    cbn [Console.line from_option snd] in Heq;
    apply colored_inj in Heq as [Hc ->]; done.
Qed.

Lemma logger_lines_distinct_witness :
  is_Some (Console.line (LogError "x")) /\
  (Console.line (LogError "x") = Console.line (LogError "x") ->
   LogError "x" = LogError "x").
Proof.
  split; [by eexists|].
  assert (H : is_Some (Console.line (LogError "x"))) by (by eexists).
  exact (logger_lines_distinct (LogError "x") (LogError "x") H).
Defined.

(** ** The generator on any file system *)

Lemma keeps_refl f : keeps f f.
Proof. by intros q n. Qed.

Lemma keeps_trans f g h : keeps f g -> keeps g h -> keeps f h.
Proof. intros Hfg Hgh q n Hq. by apply Hgh, Hfg. Qed.

(** [mkdir -p] only adds directories, and the path is a directory when it
    returns. *)
Lemma mkdirp_effect rp : forall f f',
  Fs.mkdirp f rp = Returned f' ->
  keeps f f' /\ Fs.node_at f' (rev rp) = Some Dir.
Proof.
  induction rp as [|c rp IH]; intros f f' H.
  - simpl in H. injection H as <-. split; [apply keeps_refl|done].
  - cbn [Fs.mkdirp] in H.
    assert (Hne : rev (c :: rp) <> []).
    { simpl. by destruct (rev rp). }
    assert (Hat : forall g, Fs.node_at g (rev (c :: rp)) = g !! rev (c :: rp)).
    { intros g. by destruct (rev (c :: rp)). }
    rewrite Hat.
    destruct (f !! rev (c :: rp)) as [[|content]|] eqn:E; [|done|].
    + injection H as <-. split; [apply keeps_refl|done].
    + destruct (Fs.mkdirp f rp) as [f1|e] eqn:E1; [|done].
      injection H as <-. destruct (IH _ _ E1) as [Hk _]. split.
      * intros q n Hq. rewrite lookup_insert_ne; [by apply Hk|].
        intros Heq. rewrite <- Heq in Hq. simpl in *. congruence.
      * apply lookup_insert_eq.
Qed.

(** X9. [createDir] is idempotent: when a call returns, a second call on
    the resulting world returns and changes nothing, with no event. After
    a call that returned the path is a directory, except when a file was
    there before: then [createDir] did nothing at all. *)
Theorem createDir_idempotent dirPath w w1 :
  TemplateGenerator.createDir dirPath w = (Returned tt, w1) ->
  TemplateGenerator.createDir dirPath w1 = (Returned tt, w1) /\
  (Fs.node_at (fs w1) dirPath = Some Dir \/
   exists content, Fs.node_at (fs w) dirPath = Some (File content) /\ w1 = w).
Proof.
  unfold TemplateGenerator.createDir, bind, Fs.existsSync, ret.
  case_bool_decide as Hex; simpl.
  - intros [= <-]. rewrite bool_decide_eq_true_2 by done. split; [done|].
    destruct Hex as [[|content] Hn]; [by left|right; by exists content].
  - unfold Fs.mkdirSync.
    destruct (Fs.mkdirp (fs w) (rev dirPath)) as [f'|e] eqn:E; [|done].
    intros [= <-]. simpl.
    destruct (mkdirp_effect _ _ _ E) as [_ Hdir]. rewrite rev_involutive in Hdir.
    rewrite Hdir. rewrite bool_decide_eq_true_2 by done. split; [done|by left].
Qed.

Lemma createDir_idempotent_witness :
  TemplateGenerator.createDir ["home"; "dev"; "a"; "b"] home
  = (Returned tt,
     emit (FsMkdir ["home"; "dev"; "a"; "b"])
       (set_fs (<[ ["home"; "dev"; "a"; "b"] := Dir ]>
                  (<[ ["home"; "dev"; "a"] := Dir ]> (fs home))) home)) /\
  TemplateGenerator.createDir ["home"; "dev"; "a"; "b"]
    (emit (FsMkdir ["home"; "dev"; "a"; "b"])
       (set_fs (<[ ["home"; "dev"; "a"; "b"] := Dir ]>
                  (<[ ["home"; "dev"; "a"] := Dir ]> (fs home))) home))
  = (Returned tt,
     emit (FsMkdir ["home"; "dev"; "a"; "b"])
       (set_fs (<[ ["home"; "dev"; "a"; "b"] := Dir ]>
                  (<[ ["home"; "dev"; "a"] := Dir ]> (fs home))) home)).
Proof.
  assert (H : TemplateGenerator.createDir ["home"; "dev"; "a"; "b"] home
              = (Returned tt,
                 emit (FsMkdir ["home"; "dev"; "a"; "b"])
                   (set_fs (<[ ["home"; "dev"; "a"; "b"] := Dir ]>
                              (<[ ["home"; "dev"; "a"] := Dir ]> (fs home))) home)))
    by (by vm_compute).
  split; [exact H|].
  exact (proj1 (createDir_idempotent _ _ _ H)).
Defined.

(** A step either leaves log and files as they are (a directory that is
    there already, or an error), or acts: it returns, logs its event, and
    a [createDir] only adds directories while a [writeFile] puts its file
    at a place that held no directory. *)
Lemma exec_effect root s w :
  Script.plain s = true ->
  cwd (snd (Script.exec root s w)) = cwd w /\
  ((log (snd (Script.exec root s w)) = log w /\
    fs (snd (Script.exec root s w)) = fs w) \/
   (fst (Script.exec root s w) = Returned tt /\
    log (snd (Script.exec root s w)) = log w ++ [Script.event (join root []) s] /\
    match s with
    | Script.MkDir _ => keeps (fs w) (fs (snd (Script.exec root s w)))
    | Script.Write _ content =>
        fs (snd (Script.exec root s w))
        = <[join root [] ++ Script.rel s := File content]> (fs w) /\
        fs w !! (join root [] ++ Script.rel s) <> Some Dir
    end)).
Proof.
  intros Hp. pose proof (plain_join root s Hp) as Hj.
  pose proof (plain_rel_nonempty s Hp) as Hne.
  destruct s as [args|args content]; simpl in *.
  - unfold TemplateGenerator.createDir, bind, Fs.existsSync.
    case_bool_decide; simpl; [by auto|].
    unfold Fs.mkdirSync. destruct (Fs.mkdirp _ _) as [f'|e] eqn:E; simpl; [|by auto].
    split; [done|]. right. rewrite Hj. split; [done|]. split; [done|].
    by apply mkdirp_effect in E as [Hk _].
  - unfold TemplateGenerator.writeFile, Fs.writeFileSync. rewrite Hj.
    rewrite (node_at_below (join root []) (segments args)) by done.
    destruct (fs w !! (join root [] ++ segments args)) as [[|c]|] eqn:E;
      try (simpl; by auto);
      (destruct (Fs.node_at (fs w) (Fs.parent (join root [] ++ segments args)))
         as [[|c']|]; simpl; [|by auto..]; split; [done|]; right; by repeat split).
Qed.

(** The steps that acted, in order, with what a whole script keeps: an
    entry that was there is still there unchanged, unless it was a file
    and a step that acted wrote a file over it. *)
Lemma run_effect root steps : forall w,
  forallb Script.plain steps = true ->
  exists acted,
    sublist acted steps /\
    log (snd (Script.run root steps w))
    = log w ++ (Script.event (join root []) <$> acted) /\
    (forall q n, fs w !! q = Some n ->
       fs (snd (Script.run root steps w)) !! q = Some n \/
       (n <> Dir /\ exists content,
          fs (snd (Script.run root steps w)) !! q = Some (File content) /\
          FsWrite q content ∈ Script.event (join root []) <$> acted)).
Proof.
  induction steps as [|s rest IH]; intros w Hp.
  - exists []. simpl. rewrite app_nil_r. split; [done|]. split; [done|]. by left.
  - simpl in Hp. apply andb_prop in Hp as [Hs Hrest].
    rewrite run_cons.
    destruct (exec_effect root s w Hs) as [_ Heff].
    destruct (Script.exec root s w) as [[[]|e] w1] eqn:E; simpl in *.
    + destruct (IH w1 Hrest) as (acted & Hsub & Hl & Hkeep).
      destruct Heff as [[Hlog Hfs]|(_ & Hlog & Hfs)].
      * exists acted. rewrite Hl, Hlog. split; [by apply sublist_cons|].
        split; [done|]. intros q n Hq. apply Hkeep. by rewrite Hfs.
      * exists (s :: acted). rewrite Hl, Hlog, <- app_assoc.
        split; [by apply sublist_skip|]. split; [done|].
        intros q n Hq. csimpl.
        assert (Hnext : forall n1, fs w1 !! q = Some n1 ->
                  fs (Script.run root rest w1).2 !! q = Some n1 \/
                  (n1 <> Dir /\ exists content,
                     fs (Script.run root rest w1).2 !! q = Some (File content) /\
                     FsWrite q content ∈ Script.event (join root []) s
                       :: (Script.event (join root []) <$> acted))).
        { intros n1 H1. destruct (Hkeep q n1 H1) as [?|(? & c & ? & ?)]; [by left|].
          right. split; [done|]. exists c. split; [done|].
          by apply list_elem_of_further. }
        destruct s as [args|args content].
        -- apply Hnext. by apply Hfs.
        -- destruct Hfs as [Hfs Hnodir].
           destruct (decide (q = join root [] ++ segments args)) as [->|Hq'].
           ++ simpl in Hnodir.
              assert (Hn : n <> Dir) by congruence.
              destruct (Hnext (File content)) as [Hsame|(_ & c & Hc & Hin)].
              { rewrite Hfs. apply lookup_insert_eq. }
              ** right. split; [done|]. exists content. split; [done|].
                 apply list_elem_of_here.
              ** right. split; [done|]. by exists c.
           ++ apply Hnext. rewrite Hfs. simpl. by rewrite lookup_insert_ne.
    + destruct Heff as [[Hlog Hfs]|(? & _)]; [|done].
      exists []. rewrite Hlog, Hfs, app_nil_r.
      split; [apply sublist_nil_l|]. split; [done|]. by left.
Qed.

(** X10. [generate] removes nothing, on any world and also when it throws
    part-way: an entry of the file system before the call is there
    afterwards, unchanged, or it was a file and one of the writes of this
    call replaced its content. A directory is never replaced. *)
Theorem generate_never_deletes root template options w q n :
  fs w !! q = Some n ->
  let generated := TemplateGenerator.generate root template options in
  fs (snd (generated w)) !! q = Some n \/
  (n <> Dir /\ exists content,
     fs (snd (generated w)) !! q = Some (File content) /\
     FsWrite q content ∈ events_of generated w).
Proof.
  intros Hq generated. subst generated. rewrite generate_script.
  destruct (run_effect root _ w (plain_of_template options template))
    as (acted & _ & Hlog & Hkeep).
  rewrite (events_of_app _ _ _ Hlog). by apply Hkeep.
Qed.

Lemma generate_never_deletes_witness :
  fs blocked !! ["home"; "dev"; "README.md"] = Some Dir /\
  (let generated :=
     TemplateGenerator.generate ["home"; "dev"] "basic" (Options.Build "demo" None) in
   fs (snd (generated blocked)) !! ["home"; "dev"; "README.md"] = Some Dir \/
   (Dir <> Dir /\ exists content,
      fs (snd (generated blocked)) !! ["home"; "dev"; "README.md"] = Some (File content) /\
      FsWrite ["home"; "dev"; "README.md"] content ∈ events_of generated blocked)).
Proof.
  assert (H : fs blocked !! ["home"; "dev"; "README.md"] = Some Dir)
    by (vm_compute; reflexivity).
  split; [exact H|].
  exact (generate_never_deletes ["home"; "dev"] "basic" (Options.Build "demo" None)
           blocked ["home"; "dev"; "README.md"] Dir H).
Defined.

(** A file that a step wrote is still there, with that content, when the
    script ends, also when a later step throws. *)
Lemma run_written root steps : forall w p content,
  forallb Script.plain steps = true ->
  NoDup (omap file_rel steps) ->
  FsWrite p content ∈ events_of (Script.run root steps) w ->
  fs (snd (Script.run root steps w)) !! p = Some (File content).
Proof.
  induction steps as [|s rest IH]; intros w p content Hp Hnd Hin.
  { unfold events_of in Hin. simpl in Hin. rewrite drop_all in Hin.
    by apply elem_of_nil in Hin. }
  simpl in Hp. apply andb_prop in Hp as [Hs Hrest].
  assert (Hnd' : NoDup (omap file_rel rest)).
  { destruct s; csimpl in Hnd; [done|]. by apply NoDup_cons in Hnd as [_ ?]. }
  destruct (run_effect root rest (snd (Script.exec root s w)) Hrest)
    as (acted & Hsub & Hl & Hkeep).
  pose proof (events_of_app _ _ _ Hl) as Hev2.
  unfold events_of in Hin. rewrite run_cons in Hin |- *.
  destruct (exec_effect root s w Hs) as [_ Heff].
  destruct (Script.exec root s w) as [[[]|e] w1] eqn:E; simpl in *.
  - destruct Heff as [[Hlog Hfs]|(_ & Hlog & Hfs)].
    + apply IH; [done|done|]. unfold events_of. by rewrite Hlog.
    + rewrite Hl, Hlog, <- app_assoc, drop_app_length in Hin. simpl in Hin.
      apply elem_of_cons in Hin as [Hin|Hin].
      * destruct s as [args|args c]; simpl in Hin; [done|].
        injection Hin as -> ->. destruct Hfs as [Hfs _]. simpl in Hfs.
        destruct (Hkeep (join root [] ++ segments args) (File c))
          as [Hsame|(_ & c' & _ & Hin')]; [rewrite Hfs; apply lookup_insert_eq|done|].
        exfalso. apply list_elem_of_fmap in Hin' as (s' & Hs' & Hin').
        destruct s' as [args'|args' c'']; simpl in Hs'; [done|].
        injection Hs' as Hpath _. apply app_inv_head in Hpath.
        csimpl in Hnd. apply NoDup_cons in Hnd as [Hnotin _]. apply Hnotin.
        apply list_elem_of_omap. exists (Script.Write args' c'').
        split; [by apply (elem_of_sublist acted)|]. simpl. by rewrite Hpath.
      * apply IH; [done|done|]. by rewrite Hev2.
  - destruct Heff as [[Hlog Hfs]|(? & _)]; [|done].
    rewrite Hlog, drop_all in Hin. by apply elem_of_nil in Hin.
Qed.

(** X11. A file one call of [generate] wrote is in the file system when the
    call ends, with the content of that write, also when a later step of
    the template throws: no later step of the call replaces or removes
    it. *)
Theorem generate_keeps_written_files root template options w p content :
  let generated := TemplateGenerator.generate root template options in
  FsWrite p content ∈ events_of generated w ->
  fs (snd (generated w)) !! p = Some (File content).
Proof.
  intros generated. subst generated. rewrite generate_script.
  apply run_written; [apply plain_of_template|apply script_files_NoDup].
Qed.

Lemma generate_keeps_written_files_witness :
  let generated :=
    TemplateGenerator.generate ["home"; "dev"] "basic" (Options.Build "demo" None) in
  let p := ["home"; "dev"; "src"; "index.js"] in
  fst (generated blocked) <> Returned tt /\
  FsWrite p (SourceText "demo") ∈ events_of generated blocked /\
  fs (snd (generated blocked)) !! p = Some (File (SourceText "demo")).
Proof.
  intros generated p.
  assert (H : FsWrite p (SourceText "demo") ∈ events_of generated blocked)
    by (vm_compute; do 3 apply list_elem_of_further; apply list_elem_of_here).
  split; [vm_compute; discriminate|]. split; [exact H|].
  exact (generate_keeps_written_files ["home"; "dev"] "basic" (Options.Build "demo" None)
           blocked p (SourceText "demo") H).
Defined.

(** ** Whole runs *)

Lemma initGit_events sub projectPath projectName w :
  exists evs,
    log (snd (initGit sub projectPath projectName w)) = log w ++ evs /\
    Forall git_event evs.
Proof.
  unfold initGit, try_catch, bind, Logger.info, Logger.success, Logger.warning,
    Process.cwd, Process.chdir, ChildProcess.execSync.
  simpl.
  destruct (Fs.node_at (fs w) projectPath) as [[|c]|]; simpl.
  2,3: (eexists; rewrite <- !app_assoc; split; [done|]; by repeat constructor).
  destruct (sub git_init projectPath (fs w)) as [[] f1]; simpl.
  2: { eexists; rewrite <- !app_assoc; split; [done|]; by repeat constructor. }
  destruct (sub git_add projectPath f1) as [[] f2]; simpl.
  2: { eexists; rewrite <- !app_assoc; split; [done|]; by repeat constructor. }
  destruct (sub git_commit projectPath f2) as [[] f3]; simpl.
  2: { eexists; rewrite <- !app_assoc; split; [done|]; by repeat constructor. }
  destruct (Fs.node_at f3 (cwd w)) as [[|c]|]; simpl.
  all: eexists; rewrite <- !app_assoc; split; [done|]; by repeat constructor.
Qed.

(** [createProject], in full: the announcement; the project directory, if
    [mkdirSync] makes it; the steps of the template that act; then either
    an error, or the events of [initGit] (none without [gitInit]) and the
    closing line. *)
Lemma createProject_shape sub config w :
  let P := project_path config w in
  let steps := Script.of_template (project_options config) (Config.template config) in
  exists mk acted,
    (mk = [] \/ mk = [FsMkdir P]) /\
    sublist acted steps /\
    ((exists e,
        fst (createProject sub config w) = Thrown e /\
        log (snd (createProject sub config w))
        = log w ++ LogInfo (announcement config) :: mk
          ++ (Script.event P <$> acted)) \/
     (exists git,
        fst (createProject sub config w) = Returned tt /\
        log (snd (createProject sub config w))
        = log w ++ LogInfo (announcement config) :: mk
          ++ (Script.event P <$> acted) ++ git ++ [LogSuccess structure_created] /\
        mk = [FsMkdir P] /\
        Forall git_event git /\
        (Config.gitInit config = false -> git = []))).
Proof.
  intros P steps.
  unfold createProject, bind, Process.cwd, Logger.info, Logger.success, ret. simpl.
  fold (project_path config w) (announcement config) (project_options config).
  fold P. set (w0 := emit _ w).
  unfold Fs.mkdirSync.
  destruct (Fs.mkdirp (fs w0) (rev P)) as [f1|e] eqn:Emk; simpl.
  2: { exists [], []. split; [by left|]. split; [apply sublist_nil_l|].
       left. by exists e. }
  set (w1 := emit (FsMkdir P) (set_fs f1 w0)).
  rewrite generate_script. fold steps.
  destruct (run_log P steps w1 (plain_of_template _ _)) as (acted & Hsub & Hlog & _).
  assert (HP : join P [] = P) by apply join_normal.
  rewrite HP in Hlog.
  exists [FsMkdir P], acted. split; [by right|]. split; [done|].
  destruct (Script.run P steps w1) as [[[]|e] w2]; simpl in *.
  2: { left. exists e. split; [done|]. rewrite Hlog. unfold w1, w0. simpl.
       by rewrite <- !app_assoc. }
  right. destruct (Config.gitInit config).
  - destruct (initGit_returns sub P (Config.projectName config) w2) as [Hret _].
    destruct (initGit_events sub P (Config.projectName config) w2)
      as (git & Hlog3 & Hgit).
    destruct (initGit sub P (Config.projectName config) w2) as [[[]|e] w3];
      simpl in *; [|done].
    exists git. split; [done|]. split; [|by split].
    rewrite Hlog3, Hlog. unfold w1, w0. simpl. by rewrite <- !app_assoc.
  - exists []. split; [done|]. split; [|by split].
    simpl. rewrite Hlog. unfold w1, w0. simpl. by rewrite <- !app_assoc.
Qed.

(** The four ways a run goes: help; a parse error; a validation error;
    or [createProject], which ends in an error or in the success report. *)
Lemma run_shape sub args w :
  (help_requested args = true /\
   fst (run sub args w) = Returned 0 /\
   events_of (run sub args) w = [HelpShown]) \/
  (help_requested args = false /\
   ((exists e,
       parse args = Thrown e /\
       fst (run sub args w) = Returned 1 /\
       events_of (run sub args) w = [LogError (fatal (message e))]) \/
    (exists config,
       parse args = Returned config /\
       ((exists e,
           fst (validateConfig config w) = Thrown e /\
           fst (run sub args w) = Returned 1 /\
           events_of (run sub args) w = [LogError (fatal (message e))]) \/
        (fst (validateConfig config w) = Returned tt /\
         exists mk acted,
           (mk = [] \/ mk = [FsMkdir (project_path config w)]) /\
           sublist acted
             (Script.of_template (project_options config) (Config.template config)) /\
           ((exists e,
               fst (run sub args w) = Returned 1 /\
               events_of (run sub args) w
               = LogInfo (announcement config) :: mk
                 ++ (Script.event (project_path config w) <$> acted)
                 ++ [LogError (fatal (message e))]) \/
            (exists git,
               fst (run sub args w) = Returned 0 /\
               events_of (run sub args) w
               = LogInfo (announcement config) :: mk
                 ++ (Script.event (project_path config w) <$> acted)
                 ++ git ++ [LogSuccess structure_created] ++ next_steps config /\
               mk = [FsMkdir (project_path config w)] /\
               Forall git_event git /\
               (Config.gitInit config = false -> git = [])))))))).
Proof.
  unfold events_of. rewrite run_stages.
  destruct (help_requested args).
  { left. simpl. by rewrite drop_app_length. }
  right. split; [done|].
  destruct (parse args) as [config|e].
  2: { left. exists e. simpl. by rewrite drop_app_length. }
  right. exists config. split; [done|].
  pose proof (validateConfig_world config w) as Hw.
  destruct (validateConfig config w) as [[[]|e] w1]; simpl in Hw; subst w1.
  2: { left. exists e. simpl. by rewrite drop_app_length. }
  right. split; [done|].
  destruct (createProject_shape sub config w) as (mk & acted & Hmk & Hsub & Hcases).
  exists mk, acted. split; [done|]. split; [done|].
  destruct (createProject sub config w) as [[[]|e] w2]; cbn [fst snd] in *.
  - right. destruct Hcases as [(e & He & _)|(git & _ & Hlog & Hgit)]; [done|].
    exists git. split; [done|]. split; [|done].
    rewrite log_fold_emit, Hlog. fold (next_steps config).
    rewrite <- !app_assoc, drop_app_length. simpl. by rewrite <- !app_assoc.
  - left. destruct Hcases as [(e' & _ & Hlog)|(git & He & _)]; [|done].
    exists e. split; [done|]. simpl. rewrite Hlog.
    rewrite <- !app_assoc, drop_app_length. simpl. by rewrite <- !app_assoc.
Qed.

Lemma git_event_not_error git msg : Forall git_event git -> LogError msg ∉ git.
Proof. intros Hall Hin. rewrite Forall_forall in Hall. by apply (Hall _ Hin). Qed.

Lemma git_event_not_fs git : Forall git_event git -> created git = [] /\ written git = [].
Proof.
  unfold created, written. induction 1 as [|e git He _ [IHc IHw]]; [done|].
  destruct e; csimpl; try done.
Qed.

Lemma next_steps_kinds config :
  (forall msg, LogError msg ∉ next_steps config) /\
  created (next_steps config) = [] /\ written (next_steps config) = [].
Proof.
  unfold next_steps. destruct (bool_decide _ || bool_decide _); simpl.
  all: split; [|done]; intros msg H;
    repeat (apply elem_of_cons in H as [H|H]; [discriminate|]);
    by apply elem_of_nil in H.
Qed.

Lemma script_events_not_error base (acted : list Script.Step) msg :
  LogError msg ∉ Script.event base <$> acted.
Proof. intros H. apply list_elem_of_fmap in H as ([] & ? & _); done. Qed.

Lemma created_app evs1 evs2 : created (evs1 ++ evs2) = created evs1 ++ created evs2.
Proof. unfold created. apply omap_app. Qed.

Lemma written_app evs1 evs2 : written (evs1 ++ evs2) = written evs1 ++ written evs2.
Proof. unfold written. apply omap_app. Qed.

Lemma made_not_error config w mk (acted : list Script.Step) msg :
  mk = [] \/ mk = [FsMkdir (project_path config w)] ->
  LogError msg ∉ LogInfo (announcement config) :: mk
                 ++ (Script.event (project_path config w) <$> acted).
Proof.
  intros Hmk H. apply elem_of_cons in H as [H|H]; [done|].
  apply elem_of_app in H as [H|H]; [|by apply script_events_not_error in H].
  destruct Hmk as [->| ->]; [by apply elem_of_nil in H|].
  apply elem_of_cons in H as [H|H]; [done|]. by apply elem_of_nil in H.
Qed.

(** X15. The exit code of a run and its error output agree, for every
    argument list, world and behaviour of the git commands: either the run
    exits with code 0 and logs no error line, or it exits with code 1 and
    logs exactly one error line, as its last event, with the text
    [fatal msg] for some message. *)
Theorem run_exit_code sub args w :
  (fst (run sub args w) = Returned 0 /\
   forall msg, LogError msg ∉ events_of (run sub args) w) \/
  (fst (run sub args w) = Returned 1 /\
   exists before msg,
     events_of (run sub args) w = before ++ [LogError (fatal msg)] /\
     forall msg', LogError msg' ∉ before).
Proof.
  destruct (run_shape sub args w)
    as [(_ & Hret & Hev)
       |(_ & [(e & _ & Hret & Hev)
             |(config & _ & [(e & _ & Hret & Hev)
                            |(_ & mk & acted & Hmk & _ &
                              [(e & Hret & Hev)|(git & Hret & Hev & _ & Hgit & _)])])])];
    rewrite Hev.
  - left. split; [done|]. intros msg H.
    apply elem_of_cons in H as [H|H]; [done|]. by apply elem_of_nil in H.
  - right. split; [done|]. exists [], (message e). split; [done|].
    intros ? H. by apply elem_of_nil in H.
  - right. split; [done|]. exists [], (message e). split; [done|].
    intros ? H. by apply elem_of_nil in H.
  - right. split; [done|].
    exists (LogInfo (announcement config) :: mk
            ++ (Script.event (project_path config w) <$> acted)), (message e).
    split; [simpl; by rewrite <- !app_assoc|].
    intros msg'. by apply made_not_error.
  - left. split; [done|]. intros msg H.
    apply elem_of_cons in H as [H|H]; [done|].
    apply elem_of_app in H as [H|H].
    { apply (made_not_error config w mk [] msg Hmk).
      apply list_elem_of_further. csimpl. by rewrite app_nil_r. }
    apply elem_of_app in H as [H|H]; [by apply script_events_not_error in H|].
    apply elem_of_app in H as [H|H]; [by apply git_event_not_error in H|].
    apply elem_of_cons in H as [H|H]; [done|].
    by apply (proj1 (next_steps_kinds config)) in H.
Qed.

Lemma validateConfig_returned config w :
  fst (validateConfig config w) = Returned tt ->
  nameRegex_test (Config.projectName config) = true /\
  Fs.node_at (fs w) (project_path config w) = None /\
  Config.template config ∈ validTemplates.
Proof.
  unfold validateConfig, bind, Process.cwd, Fs.existsSync, throw, ret, project_path.
  destruct (nameRegex_test _); simpl; [|done].
  destruct (Fs.node_at _ _) as [n|] eqn:E.
  - by rewrite bool_decide_eq_true_2.
  - rewrite bool_decide_eq_false_2 by (by intros [? ?]).
    by case_bool_decide.
Qed.


Lemma project_path_inside config w :
  nameRegex_test (Config.projectName config) = true ->
  project_path config w = join (cwd w) [] ++ [Config.projectName config].
Proof.
  intros Hname. unfold project_path.
  destruct (valid_name_component _ Hname) as [Hseg Hplain].
  rewrite join_plain; rewrite Hseg; [done|]. simpl. by rewrite Hplain.
Qed.

(** X16. A run makes directories and writes files only in its project
    directory, for every argument list, world and behaviour of the git
    commands, also when it fails part-way. If a run creates or writes a
    path at all, then help was not requested, the arguments parsed to a
    configuration that passed the three checks of [validateConfig], the
    project directory is inside the working directory, and the path is the
    project directory or lies inside it. *)
Theorem run_touches_only_project sub args w p :
  p ∈ created (events_of (run sub args) w) ++ written (events_of (run sub args) w) ->
  exists config,
    help_requested args = false /\
    parse args = Returned config /\
    nameRegex_test (Config.projectName config) = true /\
    Fs.node_at (fs w) (project_path config w) = None /\
    Config.template config ∈ validTemplates /\
    inside (join (cwd w) []) (project_path config w) /\
    (p = project_path config w \/ inside (project_path config w) p).
Proof.
  intros Hp.
  destruct (run_shape sub args w)
    as [(_ & _ & Hev)
       |(Hhelp & [(e & _ & _ & Hev)
             |(config & Hparse & [(e & _ & _ & Hev)
                            |(Hval & mk & acted & Hmk & Hsub & Hcases)])])].
  1-3: rewrite Hev in Hp; by apply elem_of_nil in Hp.
  destruct (validateConfig_returned config w Hval) as (Hname & Hnone & Htpl).
  exists config. split_and!; try done.
  { rewrite (project_path_inside config w Hname). by eexists [_]. }
  assert (Hin : p ∈ created (mk ++ (Script.event (project_path config w) <$> acted))
                  ++ written (mk ++ (Script.event (project_path config w) <$> acted))).
  { destruct Hcases as [(e & _ & Hev)|(git & _ & Hev & _ & Hgit & _)]; rewrite Hev in Hp.
    - change (LogInfo ?a :: ?l) with ([LogInfo a] ++ l) in Hp.
      rewrite !created_app, !written_app in Hp. simpl in Hp.
      by rewrite !app_nil_r, <- created_app, <- written_app in Hp.
    - change (LogInfo ?a :: ?l) with ([LogInfo a] ++ l) in Hp.
      rewrite !created_app, !written_app in Hp.
      destruct (git_event_not_fs git Hgit) as [Hcg Hwg].
      destruct (next_steps_kinds config) as (_ & Hcn & Hwn).
      rewrite Hcg, Hwg, Hcn, Hwn in Hp. simpl in Hp.
      by rewrite !app_nil_r, <- created_app, <- written_app in Hp. }
  rewrite created_app, written_app, created_events, written_events in Hin.
  assert (Hplain := plain_of_template (project_options config) (Config.template config)).
  apply elem_of_app in Hin as [Hin|Hin]; apply elem_of_app in Hin as [Hin|Hin].
  - left. destruct Hmk as [->| ->]; [by apply elem_of_nil in Hin|].
    apply elem_of_cons in Hin as [Hin|Hin]; [done|]. by apply elem_of_nil in Hin.
  - right.
    pose proof (acted_inside (project_path config w) dir_rel _ acted
                  ltac:(by intros [] d [= <-]) Hplain Hsub) as Hall.
    rewrite Forall_forall in Hall. by apply Hall.
  - exfalso. destruct Hmk as [->| ->]; [by apply elem_of_nil in Hin|].
    by apply elem_of_nil in Hin.
  - right.
    pose proof (acted_inside (project_path config w) file_rel _ acted
                  ltac:(by intros [] d [= <-]) Hplain Hsub) as Hall.
    rewrite Forall_forall in Hall. by apply Hall.
Qed.

Lemma run_touches_only_project_witness :
  let args := ["demo"] in
  let config := Config.Build "demo" "basic" false "" in
  ["home"; "dev"; "demo"; "src"; "index.js"]
    ∈ created (events_of (run no_git args) home)
      ++ written (events_of (run no_git args) home) /\
  exists config,
    help_requested args = false /\
    parse args = Returned config /\
    nameRegex_test (Config.projectName config) = true /\
    Fs.node_at (fs home) (project_path config home) = None /\
    Config.template config ∈ validTemplates /\
    inside (join (cwd home) []) (project_path config home) /\
    (["home"; "dev"; "demo"; "src"; "index.js"] = project_path config home \/
     inside (project_path config home) ["home"; "dev"; "demo"; "src"; "index.js"]).
Proof.
  intros args config.
  assert (H : ["home"; "dev"; "demo"; "src"; "index.js"]
                ∈ created (events_of (run no_git args) home)
                  ++ written (events_of (run no_git args) home))
    by (apply (bool_decide_unpack _); by vm_compute).
  split; [exact H|].
  exact (run_touches_only_project no_git args home _ H).
Defined.

Lemma well_formed_nothing_below f (P : Path) :
  well_formed f -> P <> [] -> f !! P = None ->
  forall rel : Path, rel <> [] -> f !! (P ++ rel) = None.
Proof.
  intros Hwf HP Hnone rel. induction rel as [|c rel IH] using rev_ind; [done|].
  intros _. destruct (f !! (P ++ rel ++ [c])) as [n|] eqn:E; [|done].
  exfalso. apply Hwf in E. simpl in E.
  unfold Fs.parent in E. rewrite app_assoc, removelast_last in E.
  destruct rel as [|r rel].
  - rewrite app_nil_r in E. destruct P; [done|]. simpl in E. congruence.
  - rewrite node_at_below in E by done. rewrite IH in E; done.
Qed.

Lemma createProject_scaffolds sub config w :
  fst (validateConfig config w) = Returned tt ->
  well_formed (fs w) ->
  Fs.node_at (fs w) (join (cwd w) []) = Some Dir ->
  createProject sub config w =
  (Returned tt,
   emit (LogSuccess structure_created)
     (if Config.gitInit config
      then snd (initGit sub (project_path config w) (Config.projectName config)
                  (scaffolded config w))
      else scaffolded config w)).
Proof.
  intros Hval Hwf Hcwd.
  destruct (validateConfig_returned config w Hval) as (Hname & Hnone & Htpl).
  pose proof (project_path_inside config w Hname) as HP.
  assert (HPne : project_path config w <> []).
  { rewrite HP. by destruct (join (cwd w) []). }
  assert (Hnone' : fs w !! project_path config w = None).
  { destruct (project_path config w); [done|exact Hnone]. }
  unfold createProject, bind, Process.cwd, Logger.info, Logger.success, ret. simpl.
  fold (project_path config w) (announcement config) (project_options config).
  set (P := project_path config w) in *.
  unfold Fs.mkdirSync. simpl.
  assert (Hmk : Fs.mkdirp (fs w) (rev P) = Returned (<[P := Dir]> (fs w))).
  { rewrite HP, rev_unit. cbn [Fs.mkdirp rev].
    rewrite rev_involutive, <- HP, Hnone'.
    by rewrite (mkdirp_existing _ _ Hcwd). }
  rewrite Hmk. simpl.
  set (w1 := emit (FsMkdir P) (set_fs _ _)).
  assert (Hfresh : fresh P (fs w1)).
  { assert (HPn : join P [] = P) by apply join_normal.
    unfold fresh. rewrite HPn. simpl. split.
    - destruct P; [done|]. simpl. apply lookup_insert_eq.
    - intros rel Hrel. rewrite lookup_insert_ne.
      + by apply well_formed_nothing_below.
      + intros Heq. apply Hrel. apply (app_inv_head P). by rewrite app_nil_r. }
  rewrite generate_script.
  destruct (run_sim P (Script.of_template (project_options config) (Config.template config))
              [] w1 (fresh_models _ _ Hfresh) (sim_of_template _ _)) as [Hrun _].
  rewrite Hrun. simpl.
  assert (HPn : join P [] = P) by apply join_normal.
  rewrite HPn.
  assert (Hw2 : {| fs := foldl (apply_step P) (<[P:=Dir]> (fs w))
                      (Script.of_template (project_options config) (Config.template config));
                   cwd := cwd w;
                   log := ((log w ++ [LogInfo (announcement config)]) ++ [FsMkdir P]) ++
                          (Script.event P <$>
                           Script.of_template (project_options config) (Config.template config)) |}
                = scaffolded config w).
  { unfold scaffolded. fold P. f_equal. by rewrite <- !app_assoc. }
  rewrite Hw2.
  destruct (Config.gitInit config); [|done].
  destruct (initGit_returns sub P (Config.projectName config) (scaffolded config w))
    as [Hret _].
  by destruct (initGit sub P (Config.projectName config) (scaffolded config w))
    as [[[]|e] w3].
Qed.

Lemma home_well_formed : well_formed (fs home).
Proof. apply (bool_decide_unpack _). by vm_compute. Qed.

Lemma scaffolded_below config w :
  fst (validateConfig config w) = Returned tt ->
  well_formed (fs w) ->
  Fs.node_at (fs w) (join (cwd w) []) = Some Dir ->
  let P := project_path config w in
  fs (scaffolded config w) !! P = Some Dir /\
  (forall rel : Path, rel <> [] ->
     fs (scaffolded config w) !! (P ++ rel)
     = Script.find_node (layout (project_options config) (Config.template config)) rel) /\
  (forall p, p <> P -> ~ inside P p -> fs (scaffolded config w) !! p = fs w !! p).
Proof.
  intros Hval Hwf Hcwd P.
  destruct (validateConfig_returned config w Hval) as (Hname & Hnone & Htpl).
  pose proof (project_path_inside config w Hname) as HP. fold P in HP, Hnone.
  assert (HPne : P <> []) by (rewrite HP; by destruct (join (cwd w) [])).
  assert (Hnone' : fs w !! P = None) by (destruct P; [done|exact Hnone]).
  assert (HPn : join P [] = P) by apply join_normal.
  assert (Hfresh : fresh P (<[P := Dir]> (fs w))).
  { unfold fresh. rewrite HPn. split.
    - destruct P; [done|]. simpl. apply lookup_insert_eq.
    - intros rel Hrel. rewrite lookup_insert_ne.
      + by apply well_formed_nothing_below.
      + intros Heq. apply Hrel. apply (app_inv_head P). by rewrite app_nil_r. }
  set (steps := Script.of_template (project_options config) (Config.template config)).
  destruct (run_sim P steps [] (set_fs (<[P := Dir]> (fs w)) w)
              (fresh_models _ _ Hfresh) (sim_of_template _ _)) as [_ Hm].
  rewrite HPn, app_nil_r in Hm. simpl in Hm. destruct Hm as [Hroot Hbelow].
  unfold scaffolded. fold P steps. simpl. split_and!.
  - destruct P; [done|exact Hroot].
  - exact Hbelow.
  - intros p Hp Hout. rewrite foldl_apply_step_other.
    + by rewrite lookup_insert_ne.
    + intros Hin. apply list_elem_of_fmap in Hin as (s & -> & Hs). apply Hout.
      exists (Script.rel s). split; [|done]. apply plain_rel_nonempty.
      pose proof (plain_of_template (project_options config) (Config.template config)) as Hpl.
      rewrite forallb_forall in Hpl. by apply Hpl, list_elem_of_In.
Qed.

Lemma run_scaffolded sub args config w :
  help_requested args = false ->
  parse args = Returned config ->
  fst (validateConfig config w) = Returned tt ->
  well_formed (fs w) ->
  Fs.node_at (fs w) (join (cwd w) []) = Some Dir ->
  exists w3 git,
    log w3 = log (scaffolded config w) ++ git /\
    Forall git_event git /\
    (Config.gitInit config = false -> w3 = scaffolded config w) /\
    run sub args w
    = (Returned 0,
       fold_left (fun w e => emit e w)
         (LogSuccess structure_created :: next_steps config) w3).
Proof.
  intros Hhelp Hparse Hval Hwf Hcwd.
  rewrite run_stages, Hhelp, Hparse.
  pose proof (validateConfig_world config w) as Hw.
  destruct (validateConfig config w) as [[[]|e] w1] eqn:E; simpl in Hval, Hw; [|done].
  subst w1.
  assert (Hval' : fst (validateConfig config w) = Returned tt) by (by rewrite E).
  rewrite (createProject_scaffolds sub config w Hval' Hwf Hcwd).
  fold (next_steps config).
  destruct (Config.gitInit config).
  - destruct (initGit_events sub (project_path config w) (Config.projectName config)
                (scaffolded config w)) as (git & Hlog & Hgit).
    eexists _, git. split; [exact Hlog|]. split; [done|]. split; [done|]. done.
  - exists (scaffolded config w), []. rewrite app_nil_r. by split_and!.
Qed.

Lemma fold_emit_fs evs : forall w,
  fs (fold_left (fun w e => emit e w) evs w) = fs w.
Proof. induction evs as [|e evs IH]; intros w; simpl; [done|]. by rewrite IH. Qed.




Lemma validateConfig_rejects_existing config w :
  nameRegex_test (Config.projectName config) = true ->
  is_Some (Fs.node_at (fs w) (project_path config w)) ->
  validateConfig config w
  = (Thrown (Error (directory_exists (Config.projectName config))), w).
Proof.
  intros Hname Hex.
  unfold validateConfig, bind, Process.cwd, Fs.existsSync, throw, ret.
  rewrite Hname. simpl. fold (project_path config w).
  by rewrite bool_decide_eq_true_2.
Qed.



(** X17. [initGit] ends in one of three ways, whatever the git commands do.
    Either all three succeeded, in the order init, add, commit, the working
    directory is restored and the success line is logged. Or the working
    directory was changed to the project directory, some command failed (or
    going back failed), the commands that ran are a prefix of init, add,
    commit, each after the success of the one before, the warning is logged and the
    working directory stays the project directory. Or the project path is not a directory: then
    nothing ran, the warning is logged and the working directory and the
    file system are as before. *)
Theorem initGit_outcomes sub projectPath projectName w :
  let w' := snd (initGit sub projectPath projectName w) in
  let evs := events_of (initGit sub projectPath projectName) w in
  (evs = [LogInfo git_started; Chdir projectPath;
          Exec git_init true; Exec git_add true; Exec git_commit true;
          Chdir (cwd w); LogSuccess git_done] /\
   cwd w' = cwd w) \/
  (exists ran,
     interrupted ran /\
     evs = [LogInfo git_started; Chdir projectPath] ++ ran ++ [LogWarning git_failed] /\
     cwd w' = projectPath) \/
  (Fs.node_at (fs w) projectPath <> Some Dir /\
   evs = [LogInfo git_started; LogWarning git_failed] /\
   cwd w' = cwd w /\ fs w' = fs w).
Proof.
  intros w' evs. subst w' evs.
  unfold events_of, initGit, try_catch, bind, Logger.info, Logger.success,
    Logger.warning, Process.cwd, Process.chdir, ChildProcess.execSync.
  simpl.
  destruct (Fs.node_at (fs w) projectPath) as [[|c]|]; simpl.
  2,3: (right; right; rewrite <- !app_assoc, drop_app_length; by split_and!).
  destruct (sub git_init projectPath (fs w)) as [[] f1]; simpl.
  2: { right; left. exists [Exec git_init false].
       rewrite <- !app_assoc, drop_app_length. split; [by left|done]. }
  destruct (sub git_add projectPath f1) as [[] f2]; simpl.
  2: { right; left. exists [Exec git_init true; Exec git_add false].
       rewrite <- !app_assoc, drop_app_length. split; [right; by left|done]. }
  destruct (sub git_commit projectPath f2) as [[] f3]; simpl.
  2: { right; left. exists [Exec git_init true; Exec git_add true; Exec git_commit false].
       rewrite <- !app_assoc, drop_app_length. split; [right; right; by left|done]. }
  destruct (Fs.node_at f3 (cwd w)) as [[|c]|]; simpl.
  - left. by rewrite <- !app_assoc, drop_app_length.
  - right; left. exists [Exec git_init true; Exec git_add true; Exec git_commit true].
    rewrite <- !app_assoc, drop_app_length. split; [by do 3 right|done].
  - right; left. exists [Exec git_init true; Exec git_add true; Exec git_commit true].
    rewrite <- !app_assoc, drop_app_length. split; [by do 3 right|done].
Qed.

(** ** Manifests point at generated files *)

(** ** Manifests and their entry points *)

Lemma join_below root (d : list string) args :
  forallb Script.is_plain d = true ->
  forallb Script.is_plain (segments args) = true ->
  join (join root [] ++ d) args = join root [] ++ d ++ segments args.
Proof.
  intros Hd Hargs. rewrite join_plain by done.
  unfold join at 1. rewrite app_nil_r, normalizeString_app by done.
  pose proof (join_normal root []) as Hn. unfold join at 1 in Hn.
  rewrite app_nil_r in Hn. by rewrite Hn, <- app_assoc.
Qed.

(** X12. On a project root that is there and has nothing below it, the
    entry point of every manifest [generate] writes exists: the [main]
    field, joined to the directory of the manifest, is the path of a file
    in the file system after the call. This holds for the five templates
    and for both manifests of the fullstack template. *)
Theorem manifest_main_exists root template projectName author w p pkg :
  template ∈ templates ->
  fresh root (fs w) ->
  let generated :=
    TemplateGenerator.generate root template (Options.Build projectName author) in
  FsWrite p (Json pkg) ∈ events_of generated w ->
  Script.is_file
    (fs (snd (generated w)) !! join (Fs.parent p) [PackageJson.main pkg]) = true.
Proof.
  intros Ht Hfresh generated Hin. subst generated.
  set (options := Options.Build projectName author) in *.
  rewrite generate_script in Hin |- *.
  apply written_in_script in Hin as (args & Hs & ->); [|apply plain_of_template].
  destruct (run_sim root (Script.of_template options template) [] w
              (fresh_models _ _ Hfresh) (sim_of_template _ _)) as [Hrun [_ Hbelow]].
  rewrite Hrun. cbn [snd fs]. rewrite app_nil_r in Hbelow.
  revert template Ht Hs Hrun Hbelow.
  refine (template_cases _ _ _ _ _ _); intros Hs Hrun Hbelow;
    script_cases Hs; cbn [PackageJson.main];
    match goal with
    | |- context [Fs.parent (join root [] ++ segments ?a)] =>
        let r := eval vm_compute in (segments a) in
        change (segments a) with r;
        let d := eval vm_compute in (removelast r) in
        replace (Fs.parent (join root [] ++ r)) with (join root [] ++ d)
          by (unfold Fs.parent; symmetry;
              first [ apply (removelast_app (join root []) (l':=r)); discriminate ])
    end;
    rewrite join_below by reflexivity;
    (rewrite Hbelow by discriminate); vm_compute; reflexivity.
Qed.

Lemma manifest_main_exists_witness :
  let generated :=
    TemplateGenerator.generate ["home"; "dev"] "basic" (Options.Build "demo" (Some "Ann")) in
  let p := ["home"; "dev"; "package.json"] in
  "basic" ∈ templates /\
  fresh ["home"; "dev"] (fs home) /\
  FsWrite p (Json demo_basic_manifest) ∈ events_of generated home /\
  Script.is_file
    (fs (snd (generated home)) !! join (Fs.parent p) [PackageJson.main demo_basic_manifest])
  = true.
Proof.
  intros generated p.
  assert (Ht : "basic" ∈ templates) by (vm_compute; apply list_elem_of_here).
  assert (Hw : FsWrite p (Json demo_basic_manifest) ∈ events_of generated home)
    by (vm_compute; do 7 apply list_elem_of_further; apply list_elem_of_here).
  split; [exact Ht|]. split; [exact home_fresh|]. split; [exact Hw|].
  exact (manifest_main_exists ["home"; "dev"] "basic" "demo" (Some "Ann") home p
           demo_basic_manifest Ht home_fresh Hw).
Defined.

(** ** The parser on every argument list *)

Lemma parseFlags_no_lacks args config c :
  parseFlags args config = Returned c -> forall i, ~ lacks_value args i.
Proof.
  intros Hret i Hi.
  destruct (parseFlags_lacks (length args) args config i (le_n _) Hi)
    as (j & flag & _ & _ & _ & _ & Hthrow).
  congruence.
Qed.

(** X1. [parse] returns a configuration exactly when the argument list has a
    project name (its first token that does not start with '-', which must
    not be empty) and no --template/-t or --author/-a flag of the list lacks
    its value (the next token absent, empty or starting with '-'). In every
    other case it throws. *)
Theorem parse_returns_iff args :
  (exists config, parse args = Returned config) <->
  (exists name, first_name args = Some name /\ truthy name = true) /\
  (forall i, ~ lacks_value args i).
Proof.
  unfold parse, first_name. split.
  - intros [c Hc]. destruct (List.find _ args) as [name|]; [|done].
    destruct (truthy name) eqn:E; [|done].
    split; [by exists name|]. by apply (parseFlags_no_lacks _ _ _ Hc).
  - intros [(name & -> & ->) Hno].
    destruct (parseFlags_returns (length args) args (Config.Build name "basic" false "")
                (le_n _) Hno) as (c & Hc & _).
    by exists c.
Qed.

Lemma find_first (f : string -> bool) args name :
  List.find f args = Some name ->
  exists i, args !! i = Some name /\ f name = true /\
            forall j a, j < i -> args !! j = Some a -> f a = false.
Proof.
  induction args as [|a args IH]; [done|]. simpl.
  destruct (f a) eqn:E.
  - intros [= <-]. exists 0. split; [done|]. split; [done|]. intros; lia.
  - intros H. destruct (IH H) as (i & Hi & Hf & Hmin).
    exists (S i). split; [done|]. split; [done|].
    intros [|j] b Hj Hb; simpl in Hb; [by injection Hb as <-|].
    apply (Hmin j); [lia|done].
Qed.

(** X2. When [parse] returns, the project name of the configuration is a
    token of the argument list: it is not empty, it does not start with
    '-', and every token before it starts with '-'. *)
Theorem parse_project_name args config :
  parse args = Returned config ->
  exists i,
    args !! i = Some (Config.projectName config) /\
    Config.projectName config <> "" /\
    startsWith (Config.projectName config) "-" = false /\
    forall j a, j < i -> args !! j = Some a -> startsWith a "-" = true.
Proof.
  unfold parse. intros H.
  destruct (List.find _ args) as [name|] eqn:Efind; [|done].
  destruct (truthy name) eqn:Etr; [|done].
  destruct (parseFlags_returns (length args) args (Config.Build name "basic" false "")
              (le_n _) (parseFlags_no_lacks _ _ _ H)) as (c & Hc & Hname & _).
  rewrite H in Hc. injection Hc as <-. simpl in Hname. rewrite Hname.
  destruct (find_first _ _ _ Efind) as (i & Hi & Hf & Hmin).
  exists i. split; [done|]. split; [by destruct name|].
  split; [by apply negb_true_iff|].
  intros j a Hj Ha. apply negb_false_iff. by apply (Hmin j).
Qed.

Lemma parse_project_name_witness :
  parse ["-g"; "app"; "x"] = Returned (Config.Build "app" "basic" true "") /\
  exists i,
    ["-g"; "app"; "x"] !! i = Some "app" /\
    "app" <> "" /\
    startsWith "app" "-" = false /\
    forall j a, j < i -> ["-g"; "app"; "x"] !! j = Some a -> startsWith a "-" = true.
Proof.
  split; [reflexivity|].
  exact (parse_project_name ["-g"; "app"; "x"] (Config.Build "app" "basic" true "") eq_refl).
Defined.

Lemma git_flag_dash arg : is_git_flag arg = true -> startsWith arg "-" = true.
Proof.
  unfold is_git_flag. intros H. apply orb_prop in H as [H|H];
    apply bool_decide_eq_true in H; by subst.
Qed.

Lemma value_not_git next : not_a_value next = false -> is_git_flag next = false.
Proof.
  intros Hv. destruct (is_git_flag next) eqn:E; [|done].
  apply git_flag_dash in E. unfold not_a_value in Hv.
  apply orb_false_elim in Hv as [_ Hv]. congruence.
Qed.

(** The loop sets [gitInit] exactly when it meets a --git or -g token. *)
Lemma parseFlags_gitInit n : forall args config c,
  length args <= n ->
  parseFlags args config = Returned c ->
  Config.gitInit c = Config.gitInit config || existsb is_git_flag args.
Proof.
  induction n as [|n IH]; intros args config c Hlen Hret.
  { destruct args; [|simpl in Hlen; lia]. simpl in Hret. injection Hret as <-.
    by rewrite orb_false_r. }
  destruct args as [|arg rest].
  { simpl in Hret. injection Hret as <-. by rewrite orb_false_r. }
  rewrite parseFlags_step in Hret. simpl in Hlen. simpl.
  destruct (takes_value arg) eqn:Etv.
  - assert (Eg : is_git_flag arg = false).
    { destruct (is_git_flag arg) eqn:E; [|done].
      apply git_flag_no_value in E. congruence. }
    destruct rest as [|next rest']; [done|].
    destruct (not_a_value next) eqn:Env; [done|].
    apply IH in Hret; [|simpl in Hlen; lia].
    rewrite Hret, Eg. simpl. rewrite (value_not_git _ Env). simpl.
    by destruct (is_template_flag arg).
  - apply IH in Hret; [|lia]. rewrite Hret.
    destruct (is_git_flag arg); simpl; [by rewrite orb_true_r|done].
Qed.

Lemma parse_gitInit_existsb args config :
  parse args = Returned config ->
  Config.gitInit config = existsb is_git_flag args.
Proof.
  unfold parse. intros H.
  destruct (List.find _ args) as [name|]; [|done].
  destruct (truthy name); [|done].
  by apply (parseFlags_gitInit (length args)) in H.
Qed.

(** X4. When [parse] returns, [gitInit] is true exactly when --git or -g
    occurs somewhere in the argument list. *)
Theorem parse_gitInit_iff args config :
  parse args = Returned config ->
  (Config.gitInit config = true <-> exists a, a ∈ args /\ is_git_flag a = true).
Proof.
  intros H. rewrite (parse_gitInit_existsb _ _ H), existsb_exists.
  split; intros (a & Ha & Hg); exists a; (split; [|done]); by apply list_elem_of_In.
Qed.

Lemma parse_gitInit_iff_witness :
  parse ["app"; "-g"] = Returned (Config.Build "app" "basic" true "") /\
  (true = true <-> exists a, a ∈ ["app"; "-g"] /\ is_git_flag a = true).
Proof.
  split; [reflexivity|].
  exact (parse_gitInit_iff ["app"; "-g"] (Config.Build "app" "basic" true "") eq_refl).
Defined.

(** X5. When [parse] returns, a field no flag of the list speaks of has
    its default: the template is "basic" when neither --template nor -t
    occurs, the author is empty when neither --author nor -a occurs, and
    [gitInit] is false when neither --git nor -g occurs. *)
Theorem parse_defaults args config :
  parse args = Returned config ->
  ((forall a, a ∈ args -> is_template_flag a = false) ->
     Config.template config = "basic") /\
  ((forall a, a ∈ args -> is_author_flag a = false) ->
     Config.author config = "") /\
  ((forall a, a ∈ args -> is_git_flag a = false) ->
     Config.gitInit config = false).
Proof.
  intros H. pose proof (parse_gitInit_existsb _ _ H) as Hg. unfold parse in H.
  destruct (List.find _ args) as [name|]; [|done].
  destruct (truthy name); [|done].
  destruct (parseFlags_returns (length args) args (Config.Build name "basic" false "")
              (le_n _) (parseFlags_no_lacks _ _ _ H)) as (c & Hc & _ & Ht & Ha).
  rewrite H in Hc. injection Hc as <-.
  split; [exact Ht|]. split; [exact Ha|].
  intros Hnone. rewrite Hg. apply not_true_iff_false. intros Hex.
  apply existsb_exists in Hex as (a & Hin & Hflag).
  apply list_elem_of_In in Hin. rewrite (Hnone a Hin) in Hflag. done.
Qed.

Lemma parse_defaults_witness :
  parse ["app"; "--verbose"] = Returned (Config.Build "app" "basic" false "") /\
  ((forall a, a ∈ ["app"; "--verbose"] -> is_template_flag a = false) -> "basic" = "basic") /\
  ((forall a, a ∈ ["app"; "--verbose"] -> is_author_flag a = false) -> "" = "") /\
  ((forall a, a ∈ ["app"; "--verbose"] -> is_git_flag a = false) -> false = false).
Proof.
  split; [reflexivity|].
  exact (parse_defaults ["app"; "--verbose"] (Config.Build "app" "basic" false "") eq_refl).
Defined.

(** The loop reaches every token that starts with '-': when it returns on
    [pre ++ flag :: rest], it went through [flag :: rest] from some
    configuration with the same project name. *)
Lemma parseFlags_reaches n : forall pre flag rest config c,
  length pre <= n ->
  startsWith flag "-" = true ->
  parseFlags (pre ++ flag :: rest) config = Returned c ->
  exists config',
    parseFlags (flag :: rest) config' = Returned c.
Proof.
  induction n as [|n IH]; intros pre flag rest config c Hlen Hflag Hret.
  { destruct pre; [|simpl in Hlen; lia]. by exists config. }
  destruct pre as [|a pre]; [by exists config|].
  change ((a :: pre) ++ flag :: rest) with (a :: (pre ++ flag :: rest)) in Hret.
  rewrite parseFlags_step in Hret. simpl in Hlen.
  destruct (takes_value a).
  - destruct pre as [|b pre]; simpl in Hret.
    + unfold not_a_value in Hret. by rewrite Hflag, orb_true_r in Hret.
    + destruct (not_a_value b); [done|].
      apply IH in Hret; [done|simpl in Hlen; lia|done].
  - apply IH in Hret; [done|lia|done].
Qed.

(** X6. When a flag occurs several times the last occurrence wins: if
    [parse] returns on a list in which --template/-t is followed by [v] and
    does not occur further on, the template is [v] in lower case; if
    --author/-a is followed by [v] and does not occur further on, the author
    is [v] as it is. *)
Theorem parse_last_flag_wins pre flag v rest config :
  parse (pre ++ flag :: v :: rest) = Returned config ->
  (is_template_flag flag = true ->
   (forall a, a ∈ rest -> is_template_flag a = false) ->
   Config.template config = toLowerCase v) /\
  (is_author_flag flag = true ->
   (forall a, a ∈ rest -> is_author_flag a = false) ->
   Config.author config = v).
Proof.
  unfold parse. intros H.
  destruct (List.find _ _) as [name|]; [|done].
  destruct (truthy name); [|done].
  assert (Hcases : forall (Htv : takes_value flag = true),
     exists c0 : Config.t,
       parseFlags rest (if is_template_flag flag
                        then set_template (toLowerCase v) c0
                        else set_author v c0) = Returned config /\
       ((forall a, a ∈ rest -> is_template_flag a = false) ->
          Config.template config =
          Config.template (if is_template_flag flag
                           then set_template (toLowerCase v) c0 else set_author v c0)) /\
       ((forall a, a ∈ rest -> is_author_flag a = false) ->
          Config.author config =
          Config.author (if is_template_flag flag
                           then set_template (toLowerCase v) c0 else set_author v c0))).
  { intros Htv.
    destruct (parseFlags_reaches (length pre) pre flag (v :: rest) _ _ (le_n _)
                (takes_value_dash _ Htv) H) as (c0 & Hc0).
    rewrite parseFlags_step, Htv in Hc0.
    destruct (not_a_value v); [done|].
    exists c0. split; [done|].
    destruct (parseFlags_returns (length rest) rest
                (if is_template_flag flag
                 then set_template (toLowerCase v) c0 else set_author v c0) (le_n _)
                (parseFlags_no_lacks _ _ _ Hc0)) as (c & Hc & _ & Ht & Ha).
    rewrite Hc0 in Hc. injection Hc as <-. by split. }
  split; intros Hf Hnone.
  - destruct (Hcases ltac:(unfold takes_value; by rewrite Hf)) as (c0 & _ & Ht & _).
    rewrite (Ht Hnone), Hf. done.
  - assert (Et : is_template_flag flag = false).
    { destruct (is_template_flag flag) eqn:E; [|done].
      unfold is_template_flag, is_author_flag in *.
      apply orb_prop in E as [E|E]; apply bool_decide_eq_true in E; by subst. }
    destruct (Hcases ltac:(unfold takes_value; by rewrite Hf, orb_true_r))
      as (c0 & _ & _ & Ha).
    rewrite (Ha Hnone), Et. done.
Qed.

Lemma parse_last_flag_wins_witness :
  parse (["app"; "-t"; "web"] ++ "-t" :: "API" :: ["-g"])
  = Returned (Config.Build "app" "api" true "") /\
  (is_template_flag "-t" = true ->
   (forall a, a ∈ ["-g"] -> is_template_flag a = false) ->
   "api" = toLowerCase "API") /\
  (is_author_flag "-t" = true ->
   (forall a, a ∈ ["-g"] -> is_author_flag a = false) ->
   "" = "API").
Proof.
  split; [reflexivity|].
  exact (parse_last_flag_wins ["app"; "-t"; "web"] "-t" "API" ["-g"]
           (Config.Build "app" "api" true "") eq_refl).
Defined.






Lemma free_place_cons a pre :
  pre <> [] -> free_place (a :: pre) -> free_place pre.
Proof. unfold free_place. by destruct pre. Qed.

Lemma parseFlags_unknown n : forall pre u post config,
  length pre <= n ->
  startsWith u "-" = true ->
  recognised u = false ->
  free_place pre \/ no_value_ahead post ->
  parseFlags (pre ++ u :: post) config = parseFlags (pre ++ post) config.
Proof.
  induction n as [|n IH]; intros pre u post config Hlen Hu Hun Hplace.
  all: apply orb_false_elim in Hun as [Htv Hg].
  all: assert (Hstep : parseFlags (u :: post) config = parseFlags post config)
         by (by rewrite parseFlags_step, Htv, Hg).
  { destruct pre; [done|simpl in Hlen; lia]. }
  destruct pre as [|a pre]; [done|].
  change ((a :: pre) ++ u :: post) with (a :: (pre ++ u :: post)).
  change ((a :: pre) ++ post) with (a :: (pre ++ post)).
  rewrite !parseFlags_step. simpl in Hlen.
  assert (Hrec : recognised u = false) by (unfold recognised; by rewrite Htv, Hg).
  destruct (takes_value a) eqn:Ea.
  - destruct pre as [|b pre]; simpl.
    + unfold not_a_value at 1. rewrite Hu, orb_true_r.
      destruct Hplace as [Hfree|Hahead]; [unfold free_place in Hfree; simpl in Hfree; congruence|].
      destruct post as [|b post]; [done|]. simpl in Hahead. by rewrite Hahead.
    + destruct (not_a_value b); [done|].
      apply IH; [simpl in Hlen; lia|done|done|].
      destruct Hplace as [Hfree|Hahead]; [|by right]. left.
      destruct pre as [|c pre]; [done|].
      apply (free_place_cons b); [done|]. by apply (free_place_cons a).
  - apply IH; [lia|done|done|].
    destruct Hplace as [Hfree|Hahead]; [|by right]. left.
    destruct pre as [|c pre]; [done|]. by apply (free_place_cons a).
Qed.

(** X3. A token that starts with '-' and is none of --template, -t,
    --git, -g, --author, -a is skipped by [parse]: the result, returned
    configuration or thrown error, is the one for the list without it. This
    holds when the token does not stand in the value place of a flag, or
    when the token after it cannot be a value either. *)
Theorem parse_ignores_unknown_flag pre u post :
  startsWith u "-" = true ->
  recognised u = false ->
  free_place pre \/ no_value_ahead post ->
  parse (pre ++ u :: post) = parse (pre ++ post).
Proof.
  intros Hu Hun Hplace. unfold parse.
  assert (Hfind : List.find (fun arg => negb (startsWith arg "-")) (pre ++ u :: post)
                  = List.find (fun arg => negb (startsWith arg "-")) (pre ++ post)).
  { clear Hplace. induction pre as [|a pre IH]; simpl; [by rewrite Hu|].
    by destruct (negb (startsWith a "-")). }
  rewrite Hfind. destruct (List.find _ (pre ++ post)) as [name|]; [|done].
  destruct (truthy name); [|done].
  by apply (parseFlags_unknown (length pre)).
Qed.

Lemma parse_ignores_unknown_flag_witness :
  startsWith "--verbose" "-" = true /\
  recognised "--verbose" = false /\
  (free_place ["app"; "-t"; "web"] \/ no_value_ahead ["-g"]) /\
  parse (["app"; "-t"; "web"] ++ "--verbose" :: ["-g"])
  = parse (["app"; "-t"; "web"] ++ ["-g"]).
Proof.
  split; [reflexivity|]. split; [reflexivity|].
  assert (H : free_place ["app"; "-t"; "web"] \/ no_value_ahead ["-g"])
    by (left; reflexivity).
  split; [exact H|].
  exact (parse_ignores_unknown_flag ["app"; "-t"; "web"] "--verbose" ["-g"]
           eq_refl eq_refl H).
Defined.

(** ** The test suite against the program *)

Lemma validateConfig_accepts config w :
  nameRegex_test (Config.projectName config) = true ->
  Fs.node_at (fs w) (project_path config w) = None ->
  Config.template config ∈ validTemplates ->
  fst (validateConfig config w) = Returned tt.
Proof.
  intros Hname Hnone Htpl.
  unfold project_path in Hnone.
  unfold validateConfig, bind, Process.cwd, Fs.existsSync, throw, ret.
  rewrite Hname. simpl. rewrite Hnone.
  rewrite bool_decide_eq_false_2 by (by intros [? ?]). simpl.
  by rewrite bool_decide_eq_true_2.
Qed.

(** The program under test on a command that passes validation, without
    --git: it exits with code 0 and leaves the project directory with the
    layout of the template. *)
Lemma node_index_creates sub args config w :
  help_requested args = false ->
  parse args = Returned config ->
  Config.gitInit config = false ->
  nameRegex_test (Config.projectName config) = true ->
  Config.template config ∈ validTemplates ->
  well_formed (fs w) ->
  Fs.node_at (fs w) (join (cwd w) []) = Some Dir ->
  Fs.node_at (fs w) (join (cwd w) [Config.projectName config]) = None ->
  let P := join (cwd w) [Config.projectName config] in
  exists f,
    node_index sub args (cwd w) (fs w) = (Code 0, f) /\
    f !! P = Some Dir /\
    (forall rel : Path, rel <> [] ->
       f !! (P ++ rel)
       = Script.find_node (layout (project_options config) (Config.template config)) rel) /\
    (forall p, p <> P -> ~ inside P p -> f !! p = fs w !! p).
Proof.
  intros Hhelp Hparse Hgit Hname Htpl Hwf Hcwd Hnone P.
  set (w0 := {| fs := fs w; cwd := cwd w; log := [] |}).
  assert (Hval : fst (validateConfig config w0) = Returned tt)
    by (by apply validateConfig_accepts).
  destruct (run_scaffolded sub args config w0 Hhelp Hparse Hval Hwf Hcwd)
    as (w3 & git & _ & _ & Hw3 & Hrun).
  rewrite (Hw3 Hgit) in Hrun.
  exists (fs (scaffolded config w0)). split.
  { unfold node_index. fold w0. rewrite Hrun. cbn [fst snd]. by rewrite fold_emit_fs. }
  exact (scaffolded_below config w0 Hval Hwf Hcwd).
Qed.

(** Removing the project directory undoes the run. *)
Lemma rm_project (P : Path) (f g : gmap Path Node) :
  well_formed g -> P <> [] -> g !! P = None ->
  (forall p, p <> P -> ~ inside P p -> f !! p = g !! p) ->
  filter (fun entry : Path * Node => ~ P `prefix_of` entry.1) f = g.
Proof.
  intros Hwf HP Hnone Hother. apply map_eq. intros p.
  destruct (decide (P `prefix_of` p)) as [[rel ->]|Hno].
  - rewrite map_lookup_filter_None_2; [|right; intros n _ Hn; apply Hn; by exists rel].
    symmetry. destruct rel as [|c rel]; [by rewrite app_nil_r|].
    by apply well_formed_nothing_below.
  - assert (Hp : p <> P) by (intros ->; by apply Hno).
    assert (Hin : ~ inside P p) by (intros (rel & _ & ->); apply Hno; by exists rel).
    rewrite <- (Hother p Hp Hin).
    destruct (f !! p) as [n|] eqn:E.
    + by apply map_lookup_filter_Some_2.
    + apply map_lookup_filter_None_2. by left.
Qed.

Lemma join_project base name args :
  forallb Script.is_plain (segments args) = true ->
  join (join base name) args = join base name ++ segments args.
Proof. intros H. by rewrite join_plain, join_normal. Qed.

Lemma assert_exists_found p message w :
  is_Some (Fs.node_at (fs w) p) ->
  assert_exists p message w = (Done tt, w).
Proof.
  intros H. unfold assert_exists, and_then, existsSync.
  by rewrite bool_decide_eq_true_2.
Qed.

(** What a template test needs of the run it starts. *)
Lemma template_test_run sub name template args w :
  help_requested args = false ->
  parse args = Returned (Config.Build name template false "") ->
  nameRegex_test name = true ->
  template ∈ validTemplates ->
  well_formed (fs w) ->
  Fs.node_at (fs w) (join (cwd w) []) = Some Dir ->
  Fs.node_at (fs w) (join (cwd w) [name]) = None ->
  let P := join (cwd w) [name] in
  exists f,
    execSync (node_index sub) args w = (Done tt, set_fs f w) /\
    rmSync P (set_fs f w) = (Done tt, w) /\
    is_Some (Fs.node_at f P) /\
    (forall args' : list string,
       forallb Script.is_plain (segments args') = true ->
       segments args' <> [] ->
       is_Some (Script.find_node (layout (Options.Build name (Some "")) template)
                  (segments args')) ->
       is_Some (Fs.node_at f (join P args'))).
Proof.
  intros Hhelp Hparse Hname Htpl Hwf Hcwd Hnone P.
  destruct (node_index_creates sub args (Config.Build name template false "") w
              Hhelp Hparse eq_refl Hname Htpl Hwf Hcwd Hnone)
    as (f & Hrun & HP & Hbelow & Hother).
  cbn [Config.projectName Config.template Config.author project_options]
    in HP, Hbelow, Hother.
  fold P in HP, Hbelow, Hother.
  assert (HPeq : P = join (cwd w) [] ++ [name])
    by exact (project_path_inside (Config.Build name template false "") w Hname).
  assert (HPne : P <> []) by (rewrite HPeq; by destruct (join (cwd w) [])).
  assert (HnodeP : forall g, Fs.node_at g P = g !! P) by (intros g; by destruct P).
  exists f. split_and!.
  - unfold execSync. by rewrite Hrun.
  - unfold rmSync. cbn [fs set_fs]. f_equal.
    rewrite (rm_project P f (fs w) Hwf HPne); [by destruct w| |done].
    by rewrite <- HnodeP.
  - by rewrite HnodeP, HP.
  - intros args' Hplain Hne Hfound. unfold P at 1.
    rewrite join_project by done. fold P.
    rewrite node_at_below by done. by rewrite Hbelow.
Qed.

(** X19. The four template tests of the test suite pass against this
    program and clean up after themselves. On a file system in which every
    entry has its parent directory, with the working directory a directory
    and the test's project directory not there yet, each of
    [testBasicTemplate], [testWebTemplate], [testApiTemplate] and
    [testCliTemplate] returns without a failed assertion, and the world
    after it is the world before it: every path the test checks exists
    after the run, and removing the project directory undoes the run. *)
Theorem template_tests_pass sub name test w :
  (name, test) ∈ template_tests sub ->
  well_formed (fs w) ->
  Fs.node_at (fs w) (join (cwd w) []) = Some Dir ->
  Fs.node_at (fs w) (join (cwd w) [name]) = None ->
  test w = (Done tt, w).
Proof.
  intros Hin Hwf Hcwd Hnone. unfold template_tests in Hin.
  repeat (apply elem_of_cons in Hin as [Hin|Hin]; [injection Hin as -> ->|]);
    [| | | |by apply elem_of_nil in Hin].
  - destruct (template_test_run sub "test-basic-app" "basic"
                ["test-basic-app"; "--template"; "basic"] w)
      as (f & Hexec & Hrm & HP & Hfound); try done.
    { apply (bool_decide_unpack _). vm_compute. exact I. }
    unfold testBasicTemplate, and_then at 1. rewrite Hexec.
    unfold and_then at 1, process_cwd. cbn [cwd set_fs].
    repeat (unfold and_then at 1;
            rewrite assert_exists_found by (first [exact HP | found_in Hfound])).
    exact Hrm.
  - destruct (template_test_run sub "test-web-app" "web"
                ["test-web-app"; "-t"; "web"] w)
      as (f & Hexec & Hrm & HP & Hfound); try done.
    { apply (bool_decide_unpack _). vm_compute. exact I. }
    unfold testWebTemplate, and_then at 1. rewrite Hexec.
    unfold and_then at 1, process_cwd. cbn [cwd set_fs].
    repeat (unfold and_then at 1;
            rewrite assert_exists_found by (first [exact HP | found_in Hfound])).
    exact Hrm.
  - destruct (template_test_run sub "test-api-app" "api"
                ["test-api-app"; "-t"; "api"] w)
      as (f & Hexec & Hrm & HP & Hfound); try done.
    { apply (bool_decide_unpack _). vm_compute. exact I. }
    unfold testApiTemplate, and_then at 1. rewrite Hexec.
    unfold and_then at 1, process_cwd. cbn [cwd set_fs].
    repeat (unfold and_then at 1;
            rewrite assert_exists_found by (first [exact HP | found_in Hfound])).
    exact Hrm.
  - destruct (template_test_run sub "test-cli-app" "cli"
                ["test-cli-app"; "-t"; "cli"] w)
      as (f & Hexec & Hrm & HP & Hfound); try done.
    { apply (bool_decide_unpack _). vm_compute. exact I. }
    unfold testCliTemplate, and_then at 1. rewrite Hexec.
    unfold and_then at 1, process_cwd. cbn [cwd set_fs].
    repeat (unfold and_then at 1;
            rewrite assert_exists_found by (first [exact HP | found_in Hfound])).
    exact Hrm.
Qed.

Lemma template_tests_pass_witness :
  ("test-basic-app", testBasicTemplate (node_index no_git)) ∈ template_tests no_git /\
  well_formed (fs home) /\
  Fs.node_at (fs home) (join (cwd home) []) = Some Dir /\
  Fs.node_at (fs home) (join (cwd home) ["test-basic-app"]) = None /\
  testBasicTemplate (node_index no_git) home = (Done tt, home).
Proof.
  assert (Hin : ("test-basic-app", testBasicTemplate (node_index no_git))
                  ∈ template_tests no_git) by apply list_elem_of_here.
  assert (Hcwd : Fs.node_at (fs home) (join (cwd home) []) = Some Dir)
    by (vm_compute; reflexivity).
  assert (Hnone : Fs.node_at (fs home) (join (cwd home) ["test-basic-app"]) = None)
    by (vm_compute; reflexivity).
  split_and!; [exact Hin|exact home_well_formed|exact Hcwd|exact Hnone|].
  exact (template_tests_pass no_git "test-basic-app" _ home Hin home_well_formed
           Hcwd Hnone).
Defined.

(** The program under test on the invalid name of the test: exit code 1,
    files as they were. *)
Lemma node_index_invalid_name sub here f :
  node_index sub ["test@invalid#name"; "--template"; "basic"] here f = (Code 1, f).
Proof.
  unfold node_index. rewrite run_stages.
  change (help_requested _) with false.
  change (parse _) with (Returned (Config.Build "test@invalid#name" "basic" false "")).
  cbv iota. by rewrite validateConfig_rejects_name.
Qed.

(** X20. [testInvalidProjectName] cannot fail. Whatever the program under
    test does with the invalid name (also if it exits with code 0), the test
    returns without a failed assertion: the error the test throws itself
    inside the [try] is caught by its own [catch], where it has no [status],
    and [undefined !== 0] holds. Against this program the run exits with
    code 1 and the test leaves the world as it was. *)
Theorem testInvalidProjectName_cannot_fail :
  (forall cli w, fst (testInvalidProjectName cli w) = Done tt) /\
  (forall sub w, testInvalidProjectName (node_index sub) w = (Done tt, w)).
Proof.
  split.
  - intros cli w. unfold testInvalidProjectName, catch, and_then, execSync.
    by destruct (cli _ (cwd w) (fs w)) as [[[|status]|] f].
  - intros sub w. unfold testInvalidProjectName, catch, and_then, execSync.
    rewrite node_index_invalid_name. by destruct w.
Qed.

(** X22. [testDuplicateProjectName] checks the first run only: for every
    program under test, the test passes exactly when the first of its two
    runs exits with code 0, whatever the second run does. *)
Theorem testDuplicateProjectName_first_run_only cli w :
  fst (testDuplicateProjectName cli w) = Done tt <->
  fst (cli ["test-duplicate-app"; "--template"; "basic"] (cwd w) (fs w)) = Code 0.
Proof.
  unfold testDuplicateProjectName, catch, and_then, execSync, process_cwd, existsSync.
  destruct (cli _ (cwd w) (fs w)) as [[[|status]|] f]; cbn [fst set_fs cwd fs]; [|done..].
  split; [done|intros _].
  destruct (cli _ (cwd w) f) as [[[|status]|] g]; cbn [fst snd set_fs cwd fs assert status_not_zero negb Nat.eqb done raise];
    by destruct (bool_decide _).
Qed.

(** The program under test when the project directory is there. *)
Lemma node_index_existing sub args name template here f :
  help_requested args = false ->
  parse args = Returned (Config.Build name template false "") ->
  nameRegex_test name = true ->
  is_Some (Fs.node_at f (join here [name])) ->
  node_index sub args here f = (Code 1, f).
Proof.
  intros Hhelp Hparse Hname Hex. unfold node_index.
  rewrite run_stages, Hhelp, Hparse.
  by rewrite (validateConfig_rejects_existing (Config.Build name template false "")
                {| fs := f; cwd := here; log := [] |} Hname Hex).
Qed.

(** X21. [testDuplicateProjectName] passes against this program and cleans
    up after itself: on a file system in which every entry has its parent
    directory, with the working directory a directory and no
    test-duplicate-app in it, the test returns without a failed assertion
    and the world after it is the world before it. *)
Theorem testDuplicateProjectName_passes sub w :
  well_formed (fs w) ->
  Fs.node_at (fs w) (join (cwd w) []) = Some Dir ->
  Fs.node_at (fs w) (join (cwd w) ["test-duplicate-app"]) = None ->
  testDuplicateProjectName (node_index sub) w = (Done tt, w).
Proof.
  intros Hwf Hcwd Hnone.
  destruct (template_test_run sub "test-duplicate-app" "basic"
              ["test-duplicate-app"; "--template"; "basic"] w)
    as (f & Hexec & Hrm & HP & _); try done.
  { apply (bool_decide_unpack _). vm_compute. exact I. }
  unfold testDuplicateProjectName, and_then at 1. rewrite Hexec.
  unfold and_then at 1, catch, and_then at 1, execSync at 1. cbn [cwd fs set_fs].
  rewrite (node_index_existing sub _ "test-duplicate-app" "basic" (cwd w) f)
    by done.
  cbn [assert status_not_zero negb Nat.eqb done].
  unfold and_then, process_cwd, existsSync. cbn [cwd fs set_fs].
  rewrite bool_decide_eq_true_2 by done.
  replace (set_fs f (set_fs f w)) with (set_fs f w) by (by destruct w).
  exact Hrm.
Qed.

Lemma testDuplicateProjectName_passes_witness :
  well_formed (fs home) /\
  Fs.node_at (fs home) (join (cwd home) []) = Some Dir /\
  Fs.node_at (fs home) (join (cwd home) ["test-duplicate-app"]) = None /\
  testDuplicateProjectName (node_index quiet_git) home = (Done tt, home).
Proof.
  assert (Hcwd : Fs.node_at (fs home) (join (cwd home) []) = Some Dir)
    by (vm_compute; reflexivity).
  assert (Hnone : Fs.node_at (fs home) (join (cwd home) ["test-duplicate-app"]) = None)
    by (vm_compute; reflexivity).
  split_and!; [exact home_well_formed|exact Hcwd|exact Hnone|].
  exact (testDuplicateProjectName_passes quiet_git home home_well_formed Hcwd Hnone).
Defined.
